(** * AutoCare Pro (VeloManage): route handlers and document models

    A shallow embedding of the back-end of the vehicle-service application:
    the Mongoose document models (Payment, Message, Location, Vehicle,
    Service) and the Express route handlers that read and write them,
    and of the handler registry of the socket client of the front end.

    Conventions of the embedding.
    - An [ObjectId] is the string Mongoose prints for it; [===] on such
      strings is [String.eqb].
    - [new Date()] is an input of the handler ([now]), a [Date] is a
      millisecond count.
    - An awaited promise of an external collaborator (payment provider,
      PayPal REST call) is an [Outcome]: resolved with a value or rejected
      with an error message.  The collaborator itself is an input.
    - [validationResult(req)] of express-validator is an input of the
      handler: the list of field errors.
    - Schema validation run by [save()] is a parameter of each model
      ([validate]); the validator read off the schema is given next to
      the model and used for the concrete runs.  Failures of the database
      itself (connection loss, unique-index clashes) are outside the model.
    - A collection that the code searches by field ([findOne], [find]) is
      the list of its documents in insertion order; a collection that is
      only addressed by [_id] is a finite map from ids to documents. *)

From Stdlib Require Import ZArith QArith Qround String List Bool Sorted Lia.
From stdpp Require Import gmap strings list fin_maps.

Open Scope string_scope.

Abbreviation ObjectId := string.
Abbreviation Date := Z.

(** ** Promises, responses and the handler monad *)

Inductive Outcome (A : Type) : Type :=
| Resolved (a : A)
| Rejected (message : string).
Arguments Resolved {A} a.
Arguments Rejected {A} message.

(** One entry of [errors.array()]. *)
Record FieldError := { fe_path : string; fe_msg : string }.

(** The JSON envelope [{success, data | message | errors}]. *)
Inductive Body (D : Type) : Type :=
| Errors (errors : list FieldError)
| Failure (message : string)
| Success (data : D).
Arguments Errors {D} errors.
Arguments Failure {D} message.
Arguments Success {D} data.

Record Response (D : Type) : Type := { code : nat; body : Body D }.
Arguments code {D} r.
Arguments body {D} r.

Definition json {D} (c : nat) (b : Body D) : Response D := {| code := c; body := b |}.

(** [a || b] on strings: the empty string is falsy. *)
Definition or_default (a b : string) : string := if a =? "" then b else a.

(** [String.prototype.toUpperCase] on strings of ASCII characters, where
    it maps the letters a to z and nothing else.  (On other strings the
    JavaScript function also maps the cased letters above 127; the
    statements that read the result are about ASCII strings.) *)
Definition upper (c : Ascii.ascii) : Ascii.ascii :=
  let n := Ascii.nat_of_ascii c in
  if (97 <=? n)%nat && (n <=? 122)%nat then Ascii.ascii_of_nat (n - 32) else c.

Fixpoint toUpperCase (s : string) : string :=
  match s with
  | EmptyString => EmptyString
  | String c r => String (upper c) (toUpperCase r)
  end.

(** A string of ASCII characters: every byte is below 128. *)
Definition isAscii (s : string) : bool :=
  forallb (fun c => (Ascii.nat_of_ascii c <? 128)%nat) (list_ascii_of_string s).

(** [Math.round]: the nearest integer, halves upwards, of the exact
    number.  (The code rounds the double that the product in its argument
    gives; the result goes to the provider only.) *)
Definition Math_round (q : Q) : Z := Qfloor (Qplus q (1 # 2)).

(** The authenticated caller ([req.user]). *)
Record User := { uid : ObjectId; uname : string; email : string; isAdmin : bool }.

(** The User collection as [populate] reads it: the ids of the stored
    users. *)
Abbreviation Users := (gset string).

(** [.populate(path, ...)] of a reference to a User: the document of that
    id when the collection has one, [null] otherwise. *)
Definition populate (users : Users) (id : ObjectId) : option ObjectId :=
  if bool_decide (id ∈ users) then Some id else None.

(** *** The relay (socket.io server) *)

Record Session := { sid : string; rooms : list string }.

Record Delivery := { d_to : string; d_event : string; d_subject : ObjectId }.

Definition inRoom (room : string) (s : Session) : bool :=
  existsb (String.eqb room) (rooms s).

(** [io.to(room).emit(event, data)] reaches the sessions joined to [room]. *)
Definition to_emit (io : list Session) (room event : string) (subject : ObjectId)
  : list Delivery :=
  map (fun s => {| d_to := sid s; d_event := event; d_subject := subject |})
      (List.filter (inRoom room) io).

(** [io.emit(event, data)] reaches every connected session. *)
Definition io_emit (io : list Session) (event : string) (subject : ObjectId)
  : list Delivery :=
  map (fun s => {| d_to := sid s; d_event := event; d_subject := subject |}) io.

(** *** State of a request: the collection and what the relay delivered *)

Record World (S : Type) : Type := { db : S; delivered : list Delivery }.
Arguments db {S} w.
Arguments delivered {S} w.

Definition with_db {S} (f : S -> S) (w : World S) : World S :=
  {| db := f (db w); delivered := delivered w |}.

(** A handler body runs over the world. It moves on ([Next]), ends the
    request with [return res.status(..).json(..)] ([Done]) or throws. *)
Inductive Step (D A : Type) : Type :=
| Next (a : A)
| Done (r : Response D)
| Thrown (message : string).
Arguments Next {D A} a.
Arguments Done {D A} r.
Arguments Thrown {D A} message.

Definition Handler (S D A : Type) : Type := World S -> Step D A * World S.

Section HandlerMonad.
Context {S D : Type}.

Definition hret {A} (a : A) : Handler S D A := fun w => (Next a, w).

Definition hbind {A B} (f : A -> Handler S D B) (m : Handler S D A)
  : Handler S D B :=
  fun w =>
    match m w with
    | (Next a, w') => f a w'
    | (Done r, w') => (Done r, w')
    | (Thrown e, w') => (Thrown e, w')
    end.

Definition respond {A} (c : nat) (b : Body D) : Handler S D A :=
  fun w => (Done (json c b), w).

Definition throw {A} (e : string) : Handler S D A := fun w => (Thrown e, w).

Definition await {A} (o : Outcome A) : Handler S D A :=
  match o with
  | Resolved a => hret a
  | Rejected e => throw e
  end.

Definition read {A} (f : S -> A) : Handler S D A := fun w => (Next (f (db w)), w).

Definition modify (f : S -> S) : Handler S D unit := fun w => (Next tt, with_db f w).

Definition emit (ds : list Delivery) : Handler S D unit :=
  fun w => (Next tt, {| db := db w; delivered := delivered w ++ ds |}).

(** [try { body } catch (error) { res.status(500).json(onError error) }] *)
Definition try_catch (body : Handler S D (Response D))
           (onError : string -> Response D) (w : World S)
  : Response D * World S :=
  match body w with
  | (Next r, w') => (r, w')
  | (Done r, w') => (r, w')
  | (Thrown e, w') => (onError e, w')
  end.
End HandlerMonad.

(** Weakest precondition of a handler body: run from [w], the body moves
    on with a value and a world in [Q], or leaves the request (a response
    or a throw) with the world in [R]. *)
Definition wp {S D A} (h : Handler S D A) (Q : A -> World S -> Prop)
           (R : World S -> Prop) (w : World S) : Prop :=
  match h w with
  | (Next a, w') => Q a w'
  | (Done _, w') => R w'
  | (Thrown _, w') => R w'
  end.

#[global] Instance handler_ret {S D} : MRet (Handler S D) := fun A => @hret S D A.
#[global] Instance handler_bind {S D} : MBind (Handler S D) := fun A B => @hbind S D A B.

(** * Payments *)

Module Payments.

(** ** The Payment model (backend/models/Payment.js) *)

Record Payment := {
  _id : ObjectId;
  user : ObjectId;
  amount : Q;
  currency : string;
  description : option string;
  paymentMethod : string;
  status : string;
  paystackReference : option string;
  paystackTransactionId : option string;
  paystackStatus : option string;
  paypalOrderId : option string;
  paypalCaptureId : option string;
  transactionId : option string;
  completedAt : option Date
}.

Definition set_status (v : string) (p : Payment) : Payment :=
  {| _id := _id p; user := user p; amount := amount p; currency := currency p;
     description := description p; paymentMethod := paymentMethod p; status := v;
     paystackReference := paystackReference p;
     paystackTransactionId := paystackTransactionId p;
     paystackStatus := paystackStatus p; paypalOrderId := paypalOrderId p;
     paypalCaptureId := paypalCaptureId p; transactionId := transactionId p;
     completedAt := completedAt p |}.

Definition set_paystackReference (v : option string) (p : Payment) : Payment :=
  {| _id := _id p; user := user p; amount := amount p; currency := currency p;
     description := description p; paymentMethod := paymentMethod p;
     status := status p; paystackReference := v;
     paystackTransactionId := paystackTransactionId p;
     paystackStatus := paystackStatus p; paypalOrderId := paypalOrderId p;
     paypalCaptureId := paypalCaptureId p; transactionId := transactionId p;
     completedAt := completedAt p |}.

Definition set_paystackTransactionId (v : option string) (p : Payment) : Payment :=
  {| _id := _id p; user := user p; amount := amount p; currency := currency p;
     description := description p; paymentMethod := paymentMethod p;
     status := status p; paystackReference := paystackReference p;
     paystackTransactionId := v;
     paystackStatus := paystackStatus p; paypalOrderId := paypalOrderId p;
     paypalCaptureId := paypalCaptureId p; transactionId := transactionId p;
     completedAt := completedAt p |}.

Definition set_paystackStatus (v : option string) (p : Payment) : Payment :=
  {| _id := _id p; user := user p; amount := amount p; currency := currency p;
     description := description p; paymentMethod := paymentMethod p;
     status := status p; paystackReference := paystackReference p;
     paystackTransactionId := paystackTransactionId p;
     paystackStatus := v; paypalOrderId := paypalOrderId p;
     paypalCaptureId := paypalCaptureId p; transactionId := transactionId p;
     completedAt := completedAt p |}.

Definition set_paypalCaptureId (v : option string) (p : Payment) : Payment :=
  {| _id := _id p; user := user p; amount := amount p; currency := currency p;
     description := description p; paymentMethod := paymentMethod p;
     status := status p; paystackReference := paystackReference p;
     paystackTransactionId := paystackTransactionId p;
     paystackStatus := paystackStatus p; paypalOrderId := paypalOrderId p;
     paypalCaptureId := v; transactionId := transactionId p;
     completedAt := completedAt p |}.

Definition set_transactionId (v : option string) (p : Payment) : Payment :=
  {| _id := _id p; user := user p; amount := amount p; currency := currency p;
     description := description p; paymentMethod := paymentMethod p;
     status := status p; paystackReference := paystackReference p;
     paystackTransactionId := paystackTransactionId p;
     paystackStatus := paystackStatus p; paypalOrderId := paypalOrderId p;
     paypalCaptureId := paypalCaptureId p; transactionId := v;
     completedAt := completedAt p |}.

Definition set_completedAt (v : option Date) (p : Payment) : Payment :=
  {| _id := _id p; user := user p; amount := amount p; currency := currency p;
     description := description p; paymentMethod := paymentMethod p;
     status := status p; paystackReference := paystackReference p;
     paystackTransactionId := paystackTransactionId p;
     paystackStatus := paystackStatus p; paypalOrderId := paypalOrderId p;
     paypalCaptureId := paypalCaptureId p; transactionId := transactionId p;
     completedAt := v |}.

(** [enum: [...]] of a schema path. *)
Definition isIn (xs : list string) (x : string) : bool := existsb (String.eqb x) xs.

(** A path of a document being saved is modified when the document is new
    or the value differs from the stored one. *)
Definition modified {A} (eq : A -> A -> bool) (f : Payment -> A)
           (prev : option Payment) (p : Payment) : bool :=
  match prev with
  | Some q => negb (eq (f q) (f p))
  | None => true
  end.

Definition eqOpt (a b : option string) : bool :=
  match a, b with
  | Some x, Some y => x =? y
  | None, None => true
  | _, _ => false
  end.

(** The validators of [paymentSchema] on the paths the handlers assign:
    [min: 0] on the amount and the four enumerations.  [save()] runs the
    validators of a path when the path is modified ([prev] is the stored
    document, [None] for a new one); an optional path that is not set
    passes. *)
Definition paymentSchema (prev : option Payment) (p : Payment) : bool :=
  (negb (modified Qeq_bool amount prev p) || Qle_bool 0 (amount p))
  && (negb (modified String.eqb currency prev p)
      || isIn ["NGN"; "USD"; "GHS"; "ZAR"; "KES"] (currency p))
  && (negb (modified String.eqb paymentMethod prev p)
      || isIn ["paystack"; "paypal"; "manual"] (paymentMethod p))
  && (negb (modified String.eqb status prev p)
      || isIn ["pending"; "completed"; "failed"; "cancelled"; "refunded"] (status p))
  && (negb (modified eqOpt paystackStatus prev p)
      || match paystackStatus p with
         | None => true
         | Some s => isIn ["pending"; "ongoing"; "success"; "failed"; "timeout";
                           "processing"; "abandoned"] s
         end).

Abbreviation Store := (list Payment).

Definition findById (id : ObjectId) (s : list Payment) : option Payment :=
  List.find (fun p => _id p =? id) s.

Definition findOne (q : Payment -> bool) (s : list Payment) : option Payment :=
  List.find q s.

(** What a successful [save()] does to the collection: an insert for a new
    document, a replacement of the stored one otherwise. *)
Definition persist (p : Payment) (s : list Payment) : list Payment :=
  match findById (_id p) s with
  | Some _ => map (fun q => if _id q =? _id p then p else q) s
  | None => s ++ [p]
  end.

(** [paymentSchema.pre('save')]: a transaction id [AC<timestamp><random>]
    when the document has none; [stamp] is the generated digit string. *)
Definition preSave (stamp : string) (p : Payment) : Payment :=
  match transactionId p with
  | Some t => if t =? "" then set_transactionId (Some ("AC" +:+ stamp)) p else p
  | None => set_transactionId (Some ("AC" +:+ stamp)) p
  end.

(** ** External collaborators *)

Record Metadata := { payment_id : option ObjectId }.

Record Transaction := {
  tx_id : string;
  tx_status : string;
  tx_amount : Z;
  tx_currency : string;
  tx_metadata : option Metadata
}.

Record VerifyResponse := { vr_status : bool; vr_message : string; vr_data : Transaction }.

Record InitData := {
  authorization_url : string;
  access_code : string;
  reference : option string
}.

Record InitResponse := { ir_status : bool; ir_message : string; ir_data : InitData }.

Record TransactionData := {
  td_amount : Z;
  td_email : string;
  td_currency : string;
  td_reference : string;
  td_payment_id : string;
  td_user_id : string
}.

(** The [paystack-api] client. *)
Record PayStack := {
  initialize : TransactionData -> Outcome InitResponse;
  verify : string -> Outcome VerifyResponse
}.

Record Link := { rel : string; href : string }.

Record Order := { order_id : option string; links : option (list Link) }.

Record CaptureItem := { ci_id : option string }.
Record UnitPayments := { captures : option (list CaptureItem) }.
Record PurchaseUnit := { payments : option UnitPayments }.
Record Capture := { cap_status : option string; purchase_units : option (list PurchaseUnit) }.

(** The PayPal REST API behind [fetch]; [None] when the client id or the
    secret is not configured. *)
Record PayPal := {
  getPayPalAccessToken : Outcome string;
  createOrder : string -> Q -> string -> Outcome Order;
  captureOrder : string -> string -> Outcome Capture
}.

Record PaymentIntent := { pi_id : string; client_secret : string }.

Record Stripe := { createIntent : Z -> string -> Outcome PaymentIntent }.

(** ** Requests and environment *)

Record Env := {
  now : Date;          (* new Date() *)
  stamp : string;      (* digits of the generated transaction id *)
  newId : ObjectId;    (* the _id of a document made by [new Payment] *)
  io : list Session    (* sessions connected to the relay *)
}.

Record Req (B : Type) : Type := { caller : User; errors : list FieldError; reqBody : B }.
Arguments caller {B} r.
Arguments errors {B} r.
Arguments reqBody {B} r.

Record Charge := { c_amount : Q; c_currency : string; c_description : option string }.

Record InitializeData := {
  id_authorization_url : string;
  id_access_code : string;
  id_reference : option string;
  id_payment_id : ObjectId
}.

Record VerifyData := {
  payment_status : string;
  vd_payment_id : ObjectId;
  vd_amount : Q;
  vd_currency : string
}.

Record OrderData := { od_order_id : option string; approval_url : string; od_payment_id : ObjectId }.

Record CaptureData := { capture_status : option string; cd_payment_id : ObjectId }.

Record IntentData := { sd_client_secret : string; sd_payment_id : ObjectId }.

(** [new Payment({...})] as the handlers call it: everything they do not
    pass takes the schema default. *)
Definition newPayment (id user : ObjectId) (c : Charge) (method : string)
           (orderId : option string) : Payment :=
  {| _id := id; user := user; amount := c_amount c; currency := c_currency c;
     description := c_description c; paymentMethod := method; status := "pending";
     paystackReference := None; paystackTransactionId := None;
     paystackStatus := None; paypalOrderId := orderId; paypalCaptureId := None;
     transactionId := None; completedAt := None |}.

(** The "payment received" notification of the verify and capture handlers. *)
Definition notifyAdmins {D} (e : Env) (p : Payment) : Handler Store D unit :=
  emit (to_emit (io e) "admin-room" "payment-notification" (_id p)
        ++ io_emit (io e) "admin-submission-received" (_id p)).

(** The assignments of the Paystack verify handler to the loaded document. *)
Definition applyTransaction (t : Transaction) (now : Date) (p : Payment) : Payment :=
  let p := set_status (if tx_status t =? "success" then "completed" else "failed") p in
  let p := set_paystackTransactionId (Some (tx_id t)) p in
  let p := set_paystackStatus (Some (tx_status t)) p in
  if tx_status t =? "success" then set_completedAt (Some now) p else p.

(** [capture.purchase_units[0]?.payments?.captures?.[0]?.id]; indexing
    [purchase_units] when the reply has none is a TypeError. *)
Definition firstCaptureId (c : Capture) : Outcome (option string) :=
  match purchase_units c with
  | None => Rejected "Cannot read properties of undefined (reading '0')"
  | Some units =>
      Resolved
        (u ← head units; ps ← payments u; cs ← captures ps; c0 ← head cs; ci_id c0)
  end.

Definition isCompleted (c : Capture) : bool :=
  match cap_status c with Some s => s =? "COMPLETED" | None => false end.

(** The assignments of the PayPal capture handler to the loaded document;
    reading the capture id throws after the status was assigned in memory. *)
Definition applyCapture (c : Capture) (now : Date) (p : Payment) : Outcome Payment :=
  let p := set_status (if isCompleted c then "completed" else "failed") p in
  match firstCaptureId c with
  | Rejected m => Rejected m
  | Resolved captureId =>
      let p := set_paypalCaptureId captureId p in
      Resolved (if isCompleted c then set_completedAt (Some now) p else p)
  end.

Section Routes.
(** Schema validation as run by [save()]. *)
Variable validate : option Payment -> Payment -> bool.

(** [await payment.save()]: validation, the pre-save hook, the write.
    The in-memory document carries what the hook assigned. *)
Definition save {D} (e : Env) (p : Payment) : Handler Store D Payment :=
  prev ← read (findById (_id p));
  if validate prev p then
    let p' := preSave (stamp e) p in
    modify (persist p');; mret p'
  else throw "Payment validation failed".

(** POST /paystack/initialize *)
Definition paystack_initialize (paystack : option PayStack) (e : Env)
           (req : Req Charge) : World Store -> Response InitializeData * World Store :=
  try_catch
    (if negb (bool_decide (errors req = [])) then respond 400 (Errors (errors req))
     else
       let c := reqBody req in
       match paystack with
       | None =>
           respond 503 (Failure "Paystack payment processing is not configured. Please contact administrator.")
       | Some client =>
           payment ← save e (newPayment (newId e) (uid (caller req)) c "paystack" None);
           let transactionData :=
             {| td_amount := Math_round (Qmult (c_amount c) (100 # 1));
                td_email := email (caller req);
                td_currency := toUpperCase (c_currency c);
                td_reference := _id payment;
                td_payment_id := _id payment;
                td_user_id := uid (caller req) |} in
           response ← await (initialize client transactionData);
           if ir_status response then
             payment ← save e (set_paystackReference (reference (ir_data response)) payment);
             mret (json 200 (Success
               {| id_authorization_url := authorization_url (ir_data response);
                  id_access_code := access_code (ir_data response);
                  id_reference := reference (ir_data response);
                  id_payment_id := _id payment |}))
           else throw (or_default (ir_message response) "Failed to initialize transaction")
       end)
    (fun m => json 500 (Failure (or_default m "Error initializing payment"))).

(** POST /paystack/verify *)
Definition paystack_verify (paystack : option PayStack) (e : Env)
           (req : Req string) : World Store -> Response VerifyData * World Store :=
  try_catch
    (if negb (bool_decide (errors req = [])) then respond 400 (Errors (errors req))
     else
       match paystack with
       | None =>
           respond 503 (Failure "Paystack payment processing is not configured. Please contact administrator.")
       | Some client =>
           response ← await (verify client (reqBody req));
           if negb (vr_status response)
           then throw (or_default (vr_message response) "Transaction verification failed")
           else
             let transaction := vr_data response in
             md ← match tx_metadata transaction with
                  | Some md => mret md
                  | None => throw "Cannot read properties of undefined (reading 'payment_id')"
                  end;
             found ← read (fun s => pid ← payment_id md; findById pid s);
             match found with
             | None => respond 404 (Failure "Payment record not found")
             | Some payment =>
                 payment ← save e (applyTransaction transaction (now e) payment);
                 (if tx_status transaction =? "success"
                  then notifyAdmins e payment else mret tt);;
                 mret (json 200 (Success
                   {| payment_status := tx_status transaction;
                      vd_payment_id := _id payment;
                      vd_amount := tx_amount transaction # 100;
                      vd_currency := tx_currency transaction |}))
             end
       end)
    (fun m => json 500 (Failure (or_default m "Error verifying payment"))).

(** POST /paypal/create-order *)
Definition paypal_create_order (paypal : option PayPal) (e : Env)
           (req : Req Charge) : World Store -> Response OrderData * World Store :=
  try_catch
    (if negb (bool_decide (errors req = [])) then respond 400 (Errors (errors req))
     else
       let c := reqBody req in
       match paypal with
       | None =>
           respond 503 (Failure "PayPal payment processing is not configured. Please contact administrator.")
       | Some api =>
           accessToken ← await (getPayPalAccessToken api);
           order ← await (createOrder api accessToken (c_amount c) (c_currency c));
           payment ← save e (newPayment (newId e) (uid (caller req)) c "paypal" (order_id order));
           approve ← match ls ← links order; List.find (fun l => rel l =? "approve") ls with
                     | Some l => mret (href l)
                     | None => throw "Cannot read properties of undefined"
                     end;
           mret (json 200 (Success
             {| od_order_id := order_id order; approval_url := approve;
                od_payment_id := _id payment |}))
       end)
    (fun _ => json 500 (Failure "Error creating PayPal order")).

(** POST /paypal/capture *)
Definition paypal_capture (paypal : option PayPal) (e : Env)
           (req : Req string) : World Store -> Response CaptureData * World Store :=
  try_catch
    (if negb (bool_decide (errors req = [])) then respond 400 (Errors (errors req))
     else
       let order_id := reqBody req in
       match paypal with
       | None =>
           respond 503 (Failure "PayPal payment processing is not configured. Please contact administrator.")
       | Some api =>
           accessToken ← await (getPayPalAccessToken api);
           capture ← await (captureOrder api accessToken order_id);
           found ← read (findOne (fun p => bool_decide (paypalOrderId p = Some order_id)));
           match found with
           | None => respond 404 (Failure "Payment record not found")
           | Some payment =>
               payment ← await (applyCapture capture (now e) payment);
               payment ← save e payment;
               (if isCompleted capture then notifyAdmins e payment else mret tt);;
               mret (json 200 (Success
                 {| capture_status := cap_status capture; cd_payment_id := _id payment |}))
           end
       end)
    (fun _ => json 500 (Failure "Error capturing PayPal payment")).

(** POST /stripe/create-payment-intent (the legacy route file).  The
    schema has no path [stripePaymentIntentId]; the document keeps only
    the method it was given. *)
Definition stripe_create_payment_intent (stripe : Stripe) (e : Env)
           (req : Req Charge) : World Store -> Response IntentData * World Store :=
  try_catch
    (if negb (bool_decide (errors req = [])) then respond 400 (Errors (errors req))
     else
       let c := reqBody req in
       paymentIntent ← await (createIntent stripe
                                (Math_round (Qmult (c_amount c) (100 # 1)))
                                (c_currency c));
       payment ← save e (newPayment (newId e) (uid (caller req)) c "stripe" None);
       mret (json 200 (Success
         {| sd_client_secret := client_secret paymentIntent;
            sd_payment_id := _id payment |})))
    (fun _ => json 500 (Failure "Error creating payment intent")).

(** The requests of the payment routes, each with the collaborators and
    the environment it meets. *)
Inductive Request : Type :=
| PaystackInitialize (paystack : option PayStack) (e : Env) (req : Req Charge)
| PaystackVerify (paystack : option PayStack) (e : Env) (req : Req string)
| PaypalCreateOrder (paypal : option PayPal) (e : Env) (req : Req Charge)
| PaypalCapture (paypal : option PayPal) (e : Env) (req : Req string)
| StripeCreatePaymentIntent (stripe : Stripe) (e : Env) (req : Req Charge).

Definition serve (r : Request) (w : World Store) : World Store :=
  match r with
  | PaystackInitialize paystack e req => snd (paystack_initialize paystack e req w)
  | PaystackVerify paystack e req => snd (paystack_verify paystack e req w)
  | PaypalCreateOrder paypal e req => snd (paypal_create_order paypal e req w)
  | PaypalCapture paypal e req => snd (paypal_capture paypal e req w)
  | StripeCreatePaymentIntent stripe e req =>
      snd (stripe_create_payment_intent stripe e req w)
  end.

Definition run (rs : list Request) (w : World Store) : World Store :=
  fold_left (fun w r => serve r w) rs w.
End Routes.

Definition emptyWorld : World Store := {| db := []; delivered := [] |}.

(** What a provider reported to the verify handler about a payment: the
    call resolved, the provider accepted it and named the payment. *)
Definition reports (client : PayStack) (ref : string) (t : Transaction)
           (pid : ObjectId) : Prop :=
  exists m md,
    verify client ref = Resolved {| vr_status := true; vr_message := m; vr_data := t |}
    /\ tx_metadata t = Some md /\ payment_id md = Some pid.

(** The provider's verify call failed: the promise rejected, or the reply
    carries a false [status]. *)
Definition verifyFails (client : PayStack) (ref : string) : Prop :=
  (exists m, verify client ref = Rejected m)
  \/ (exists r, verify client ref = Resolved r /\ vr_status r = false).

(** The PayPal capture call failed: the token request or the capture
    request rejected. *)
Definition captureFails (api : PayPal) (order : string) : Prop :=
  (exists m, getPayPalAccessToken api = Rejected m)
  \/ (exists tok m, getPayPalAccessToken api = Resolved tok
                   /\ captureOrder api tok order = Rejected m).

(** Outcome of a verification on a record: completed exactly on a reported
    success and failed otherwise; the completion time is stamped on
    success and is what it was otherwise. *)
Definition verifiedAs (success : bool) (now : Date) (before after : Payment) : Prop :=
  (status after = "completed" <-> success = true)
  /\ (success = false -> status after = "failed")
  /\ (success = true -> completedAt after = Some now)
  /\ (success = false -> completedAt after = completedAt before).

(** C1 as the specification words it: a completed record stays completed
    when a later verify reports a status other than success. *)
Definition terminalStatusKept (validate : option Payment -> Payment -> bool) : Prop :=
  forall client e (req : Req string) w t pid p,
    errors req = [] ->
    reports client (reqBody req) t pid ->
    tx_status t <> "success" ->
    findById pid (db w) = Some p ->
    status p = "completed" ->
    exists p', findById pid (db (snd (paystack_verify validate (Some client) e req w)))
               = Some p'
               /\ status p' = "completed".



(** Provider correlation fields agree with the payment method. *)
Definition correlationConsistent (p : Payment) : Prop :=
  (is_Some (paystackReference p) -> paymentMethod p = "paystack")
  /\ (is_Some (paypalOrderId p) -> paymentMethod p = "paypal").

Definition consistentWorld (w : World Store) : Prop := Forall correlationConsistent (db w).

(** The stronger reading: a reference exactly on Paystack records, an
    order id exactly on PayPal records. *)
Definition correlationExact (p : Payment) : Prop :=
  (is_Some (paystackReference p) <-> paymentMethod p = "paystack")
  /\ (is_Some (paypalOrderId p) <-> paymentMethod p = "paypal").

(** C2 as the specification words it, over the records the handlers
    persist starting from an empty collection. *)
Definition everyRecordExact (validate : option Payment -> Payment -> bool) : Prop :=
  forall rs p, In p (db (run validate rs emptyWorld)) -> correlationExact p.

(** Concrete collaborators and requests for the runs below. *)
Module Sample.
Definition john : User :=
  {| uid := "u1"; uname := "John"; email := "john@example.com"; isAdmin := false |}.

Definition env (id : ObjectId) (t : Date) : Env :=
  {| now := t; stamp := "1700000000000042"; newId := id;
     io := [{| sid := "s-admin"; rooms := ["admin-room"] |}] |}.

Definition charge : Req Charge :=
  {| caller := john; errors := [];
     reqBody := {| c_amount := 5000 # 1; c_currency := "NGN"; c_description := None |} |}.

Definition txn (st : string) : Transaction :=
  {| tx_id := "901"; tx_status := st; tx_amount := 500000; tx_currency := "NGN";
     tx_metadata := Some {| payment_id := Some "p1" |} |}.

(** A provider that accepts the initialisation and reports [st] on verify. *)
Definition provider (st : string) : PayStack :=
  {| initialize := fun d =>
       Resolved {| ir_status := true; ir_message := "Authorization URL created";
                   ir_data := {| authorization_url := "https://checkout.paystack.com/x";
                                 access_code := "x";
                                 reference := Some (td_reference d) |} |};
     verify := fun _ =>
       Resolved {| vr_status := true; vr_message := "Verification successful";
                   vr_data := txn st |} |}.

(** A provider that cannot be reached. *)
Definition offline : PayStack :=
  {| initialize := fun _ => Rejected "connect ETIMEDOUT";
     verify := fun _ => Rejected "connect ETIMEDOUT" |}.

Definition verifyReq : Req string := {| caller := john; errors := []; reqBody := "p1" |}.


(** The record after initialise and a verify that reported success. *)
Definition paid : World Store :=
  run paymentSchema
      [PaystackInitialize (Some (provider "success")) (env "p1" 1000) charge;
       PaystackVerify (Some (provider "success")) (env "p2" 2000) verifyReq]
      emptyWorld.

Definition paypalDown : PayPal :=
  {| getPayPalAccessToken := Rejected "fetch failed";
     createOrder := fun _ _ _ => Rejected "fetch failed";
     captureOrder := fun _ _ => Rejected "fetch failed" |}.

Definition paypalUp (st : string) : PayPal :=
  {| getPayPalAccessToken := Resolved "token";
     createOrder := fun _ _ _ =>
       Resolved {| order_id := Some "O-1";
                   links := Some [{| rel := "approve"; href := "https://paypal.com/a" |}] |};
     captureOrder := fun _ _ =>
       Resolved {| cap_status := Some st;
                   purchase_units :=
                     Some [{| payments :=
                                Some {| captures := Some [{| ci_id := Some "C-1" |}] |} |}] |} |}.

Definition usd : Req Charge :=
  {| caller := john; errors := [];
     reqBody := {| c_amount := 20 # 1; c_currency := "USD"; c_description := None |} |}.

Definition captureReq : Req string := {| caller := john; errors := []; reqBody := "O-1" |}.

Definition ordered : World Store :=
  run paymentSchema [PaypalCreateOrder (Some (paypalUp "COMPLETED")) (env "q1" 1000) usd] emptyWorld.
End Sample.

End Payments.

(** * Messages *)

Module Messages.

(** ** The Message model (backend/models/Message.js) *)

Record ReadReceipt := { rr_user : ObjectId; readAt : Date }.

Record Message := {
  _id : ObjectId;
  sender : option ObjectId;
  recipient : option ObjectId;
  conversation : string;
  text : string;
  senderType : string;
  recipientType : string;
  isRead : list ReadReceipt;
  isAutoReply : bool;
  isVisibleToAllAdmins : bool;
  createdAt : Date
}.

Abbreviation Store := (list Message).

Definition isIn (xs : list string) (x : string) : bool := existsb (String.eqb x) xs.

(** The validators of [messageSchema]: [sender], [conversation], [text]
    and [senderType] are required, [text] has at most 1000 characters
    (counted here as bytes, which is the count of the schema on ASCII
    text and no less on other text), the two type tags are enumerations. *)
Definition messageSchema (m : Message) : bool :=
  match sender m with Some _ => true | None => false end
  && negb (conversation m =? "")
  && negb (text m =? "")
  && (String.length (text m) <=? 1000)%nat
  && isIn ["user"; "admin"] (senderType m)
  && isIn ["user"; "admin"; "all_admins"] (recipientType m).

Definition findById (id : ObjectId) (s : Store) : option Message :=
  List.find (fun m => _id m =? id) s.

(** [.sort({ createdAt: -1 })] *)
Fixpoint insertDesc (m : Message) (l : list Message) : list Message :=
  match l with
  | [] => [m]
  | x :: r => if (createdAt x <? createdAt m)%Z then m :: x :: r else x :: insertDesc m r
  end.

Definition sortDesc (l : list Message) : list Message := fold_right insertDesc [] l.

(** The filter of [getAllAdminSubmissions]. *)
Definition adminSubmission (m : Message) : bool :=
  (recipientType m =? "all_admins") || isVisibleToAllAdmins m || (senderType m =? "user").

(** [messageSchema.statics.getAllAdminSubmissions] ([populate] joins the
    user documents onto the result and drops nothing). *)
Definition getAllAdminSubmissions (s : Store) : list Message :=
  sortDesc (List.filter adminSubmission s).

(** [messageSchema.statics.getConversation] with its default limit. *)
Definition getConversation (userId : string) (s : Store) : list Message :=
  firstn 50
    (sortDesc (List.filter (fun m => (conversation m =? userId) || isVisibleToAllAdmins m) s)).

(** The query of [sendAutoReply]: an auto-reply of that conversation. *)
Definition autoReplyOf (c : string) (m : Message) : bool :=
  (conversation m =? c) && isAutoReply m.

Definition hasReadBy (adminId : ObjectId) (m : Message) : bool :=
  existsb (fun r => rr_user r =? adminId) (isRead m).

Definition pushRead (r : ReadReceipt) (m : Message) : Message :=
  {| _id := _id m; sender := sender m; recipient := recipient m;
     conversation := conversation m; text := text m; senderType := senderType m;
     recipientType := recipientType m; isRead := isRead m ++ [r];
     isAutoReply := isAutoReply m; isVisibleToAllAdmins := isVisibleToAllAdmins m;
     createdAt := createdAt m |}.

(** [messageSchema.statics.markAsReadByAdmin]: an [updateMany] that pushes
    a receipt on the messages of the conversation the admin has not read. *)
Definition markAsReadByAdmin (conversationId : string) (adminId : ObjectId) (now : Date)
           (s : Store) : Store :=
  map (fun m =>
         if (conversation m =? conversationId) && negb (hasReadBy adminId m)
         then pushRead {| rr_user := adminId; readAt := now |} m
         else m) s.

Record Env := {
  now : Date;
  newId : ObjectId;      (* the _id of the message made by the handler *)
  replyId : ObjectId;    (* the _id of the auto-reply, if one is made *)
  io : list Session
}.

Record Req (B : Type) : Type := { caller : User; errors : list FieldError; reqBody : B }.
Arguments caller {B} r.
Arguments errors {B} r.
Arguments reqBody {B} r.

(** Bodies as the route's sanitizers leave them ([trim()] applied). *)
Record SendBody := { b_text : string; recipientId : option string }.
Record BroadcastBody := { bc_text : string; title : option string }.

Record Sent := { data : option Message; autoReply : option Message }.

(** JavaScript truthiness of an optional string. *)
Definition truthy (o : option string) : bool :=
  match o with Some x => negb (x =? "") | None => false end.

Section Routes.
Variable validate : Message -> bool.

(** [await message.save()] of a new document. *)
Definition save {D} (m : Message) : Handler Store D Message :=
  if validate m then modify (fun s : Store => (s ++ [m])%list);; mret m
  else throw "Message validation failed".

(** [messageSchema.statics.sendAutoReply]; a rejected save is caught
    inside and gives [null]. *)
Definition sendAutoReply {D} (e : Env) (userId : ObjectId)
  : Handler Store D (option Message) :=
  existingAutoReply ← read (List.find (autoReplyOf userId));
  match existingAutoReply with
  | Some _ => mret None
  | None =>
      let autoReply :=
        {| _id := replyId e; sender := None; recipient := Some userId;
           conversation := userId;
           text := "Thanks for your message! An admin will review it shortly and get back to you.";
           senderType := "admin"; recipientType := "user"; isRead := [];
           isAutoReply := true; isVisibleToAllAdmins := false;
           createdAt := now e |} in
      if validate autoReply
      then modify (fun s : Store => (s ++ [autoReply])%list);; mret (Some autoReply)
      else mret None
  end.

(** POST /messages *)
Definition send (e : Env) (req : Req SendBody)
  : World Store -> Response Sent * World Store :=
  try_catch
    (if negb (bool_decide (errors req = [])) then respond 400 (Errors (errors req))
     else
       let admin := isAdmin (caller req) in
       let toUser := admin && truthy (recipientId (reqBody req)) in
       '(conversationId, recipient, recipientType, isVisibleToAllAdmins) ←
         (if toUser
          then mret (default "" (recipientId (reqBody req)),
                     recipientId (reqBody req), "user", false)
          else if negb admin
               then mret (uid (caller req), None, "all_admins", true)
               else respond 400 (Failure "Invalid message configuration"));
       message ← save
         {| _id := newId e; sender := Some (uid (caller req)); recipient := recipient;
            conversation := conversationId; text := b_text (reqBody req);
            senderType := if admin then "admin" else "user";
            recipientType := recipientType; isRead := [];
            isAutoReply := false; isVisibleToAllAdmins := isVisibleToAllAdmins;
            createdAt := now e |};
       populatedMessage ← read (findById (_id message));
       autoReply ← (if negb admin then sendAutoReply e (uid (caller req))
                    else mret None);
       (if toUser
        then emit (to_emit (io e) ("user-" +:+ conversationId) "message-received"
                     (_id message))
        else if negb admin
             then emit (to_emit (io e) "admin-room" "message-received" (_id message)
                        ++ io_emit (io e) "admin-submission-received" (_id message))
             else mret tt);;
       mret (json 201 (Success {| data := populatedMessage; autoReply := autoReply |})))
    (fun _ => json 500 (Failure "Error sending message")).

(** GET /messages *)
Definition list_messages (user : User) (userId : option string)
  : World Store -> Response (list Message) * World Store :=
  try_catch
    (messages ← (if isAdmin user
                 then if truthy userId
                      then read (getConversation (default "" userId))
                      else read getAllAdminSubmissions
                 else read (getConversation (uid user)));
     mret (json 200 (Success messages)))
    (fun _ => json 500 (Failure "Error retrieving messages")).

(** PUT /messages/read/:conversationId (both branches of the handler
    make the same call). *)
Definition mark_read (e : Env) (user : User) (conversationId : string)
  : World Store -> Response unit * World Store :=
  try_catch
    (modify (markAsReadByAdmin conversationId (uid user) (now e));;
     mret (json 200 (Success tt)))
    (fun _ => json 500 (Failure "Error marking messages as read")).

(** Modelled from the spec: the [requireAdmin] middleware of
    middleware/auth.js, which is not among the sources; the broadcast
    endpoint is admin-only and an authorization failure answers 403. *)
Definition requireAdmin {D A} (user : User) (next : Handler Store D A) : Handler Store D A :=
  if isAdmin user then next else respond 403 (Failure "Admin access required").

(** POST /messages/broadcast *)
Definition broadcast (e : Env) (req : Req BroadcastBody)
  : World Store -> Response Message * World Store :=
  try_catch
    (requireAdmin (caller req)
       (if negb (bool_decide (errors req = [])) then respond 400 (Errors (errors req))
        else
          message ← save
            {| _id := newId e; sender := Some (uid (caller req)); recipient := None;
               conversation := "admin-broadcast";
               text := if truthy (title (reqBody req))
                       then default "" (title (reqBody req)) +:+ ": " +:+ bc_text (reqBody req)
                       else bc_text (reqBody req);
               senderType := "admin"; recipientType := "all_admins"; isRead := [];
               isAutoReply := false; isVisibleToAllAdmins := true;
               createdAt := now e |};
          emit (to_emit (io e) "admin-room" "admin-broadcast-received" (_id message)
                ++ io_emit (io e) "admin-submission-received" (_id message));;
          mret (json 201 (Success message))))
    (fun _ => json 500 (Failure "Error sending broadcast message")).

(** The requests that write to the collection. *)
Inductive Request : Type :=
| Send (e : Env) (req : Req SendBody)
| Broadcast (e : Env) (req : Req BroadcastBody)
| MarkRead (e : Env) (user : User) (conversationId : string).

Definition serve (r : Request) (w : World Store) : World Store :=
  match r with
  | Send e req => snd (send e req w)
  | Broadcast e req => snd (broadcast e req w)
  | MarkRead e user c => snd (mark_read e user c w)
  end.

Definition run (rs : list Request) (w : World Store) : World Store :=
  fold_left (fun w r => serve r w) rs w.
End Routes.

Definition emptyWorld : World Store := {| db := []; delivered := [] |}.

(** The same environment with other sessions connected to the relay. *)
Definition connected (sessions : list Session) (e : Env) : Env :=
  {| now := now e; newId := newId e; replyId := replyId e; io := sessions |}.

(** A message as stored, whatever its read receipts have become. *)
Definition sameMessage (m m' : Message) : Prop :=
  _id m' = _id m /\ sender m' = sender m /\ recipient m' = recipient m
  /\ conversation m' = conversation m /\ text m' = text m
  /\ senderType m' = senderType m /\ recipientType m' = recipientType m
  /\ isAutoReply m' = isAutoReply m
  /\ isVisibleToAllAdmins m' = isVisibleToAllAdmins m
  /\ createdAt m' = createdAt m.

(** The collection still holds the message. *)
Definition kept (m : Message) (s : Store) : Prop :=
  exists m', sameMessage m m' /\ In m' s.

(** The message a non-admin caller sends. *)
Definition userMessage (e : Env) (req : Req SendBody) : Message :=
  {| _id := newId e; sender := Some (uid (caller req)); recipient := None;
     conversation := uid (caller req); text := b_text (reqBody req);
     senderType := "user"; recipientType := "all_admins"; isRead := [];
     isAutoReply := false; isVisibleToAllAdmins := true; createdAt := now e |}.

(** At most one auto-reply in every conversation. *)
Definition atMostOneAutoReply (s : Store) : Prop :=
  forall c, (length (List.filter (autoReplyOf c) s) <= 1)%nat.

Module Sample.
Definition john : User :=
  {| uid := "u1"; uname := "John"; email := "john@example.com"; isAdmin := false |}.
Definition root : User :=
  {| uid := "a1"; uname := "Admin"; email := "admin@example.com"; isAdmin := true |}.

Definition env (id : ObjectId) (t : Date) : Env :=
  {| now := t; newId := id; replyId := id +:+ "-reply"; io := [] |}.

Definition hello (t : string) : Req SendBody :=
  {| caller := john; errors := []; reqBody := {| b_text := t; recipientId := None |} |}.

(** A validator that lets the system-sent auto-reply through. *)
Definition lenient (m : Message) : bool := true.

Definition greeted : World Store :=
  run lenient [Send (env "m1" 10) (hello "Hi")] emptyWorld.
End Sample.

End Messages.

(** * Locations *)

Module Locations.

(** ** The Location model (the second model of backend/models/Message.js) *)

Record Location := {
  user : ObjectId;
  name : option string;
  description : option string;
  latitude : Q;
  longitude : Q;
  type : string;
  isActive : bool;
  isPrimary : bool;
  isVisibleToAdmins : bool
}.

Abbreviation Store := (gmap string Location).

Definition set_isPrimary (v : bool) (l : Location) : Location :=
  {| user := user l; name := name l; description := description l;
     latitude := latitude l; longitude := longitude l; type := type l;
     isActive := isActive l; isPrimary := v;
     isVisibleToAdmins := isVisibleToAdmins l |}.

Definition set_isActive (v : bool) (l : Location) : Location :=
  {| user := user l; name := name l; description := description l;
     latitude := latitude l; longitude := longitude l; type := type l;
     isActive := v; isPrimary := isPrimary l;
     isVisibleToAdmins := isVisibleToAdmins l |}.

Definition isIn (xs : list string) (x : string) : bool := existsb (String.eqb x) xs.

(** [maxlength], counted as bytes (the count of the schema on ASCII text). *)
Definition maxlength (n : nat) (o : option string) : bool :=
  match o with Some x => (String.length x <=? n)%nat | None => true end.

(** The validators of [locationSchema]. *)
Definition locationSchema (l : Location) : bool :=
  Qle_bool (-90 # 1) (latitude l) && Qle_bool (latitude l) (90 # 1)
  && Qle_bool (-180 # 1) (longitude l) && Qle_bool (longitude l) (180 # 1)
  && isIn ["home"; "work"; "service_location"; "pickup"; "delivery"; "emergency"; "other"]
          (type l)
  && maxlength 100 (name l) && maxlength 500 (description l).

(** [this.isModified('isPrimary')]: every path given to the constructor of
    a new document counts as modified; on a loaded document a path is
    modified when its value differs from the stored one. *)
Definition isModified_isPrimary (stored : option Location) (l : Location) : bool :=
  match stored with
  | None => true
  | Some old => negb (eqb (isPrimary old) (isPrimary l))
  end.

(** The [updateMany] of the pre-save hook: the other primary locations of
    the same user and type lose the flag. *)
Definition clearOtherPrimaries (id : ObjectId) (l : Location) (s : Store) : Store :=
  map_imap (fun k o =>
              Some (if (user o =? user l) && (type o =? type l)
                       && negb (k =? id) && isPrimary o
                    then set_isPrimary false o else o)) s.

(** [locationSchema.pre('save')]; [stored] is the document as it was
    loaded, [None] for a new one. *)
Definition preSave (stored : option Location) (id : ObjectId) (l : Location) (s : Store)
  : Store :=
  if isPrimary l && isModified_isPrimary stored l
  then clearOtherPrimaries id l s
  else s.

Record Env := { now : Date; newId : ObjectId; io : list Session }.

Record Req (B : Type) : Type := { caller : User; errors : list FieldError; reqBody : B }.
Arguments caller {B} r.
Arguments errors {B} r.
Arguments reqBody {B} r.

Record NewLocation := {
  n_latitude : Q;
  n_longitude : Q;
  n_name : option string;
  n_description : option string;
  n_type : option string;
  n_isPrimary : option bool
}.

(** The keys of a PUT body that are paths of the schema. *)
Record Update := {
  u_latitude : option Q;
  u_longitude : option Q;
  u_name : option string;
  u_description : option string;
  u_type : option string;
  u_isPrimary : option bool;
  u_isActive : option bool;
  u_user : option ObjectId
}.

(** A number in a condition: zero is falsy. *)
Definition truthyQ (o : option Q) : bool :=
  match o with Some q => negb (Qeq_bool q 0) | None => false end.

(** The assignments of the PUT handler to the loaded document. *)
Definition applyUpdate (u : Update) (l : Location) : Location :=
  let both := truthyQ (u_latitude u) && truthyQ (u_longitude u) in
  {| user := default (user l) (u_user u);
     name := match u_name u with Some x => Some x | None => name l end;
     description := match u_description u with Some x => Some x | None => description l end;
     latitude := if both then default (latitude l) (u_latitude u) else latitude l;
     longitude := if both then default (longitude l) (u_longitude u) else longitude l;
     type := default (type l) (u_type u);
     isActive := default (isActive l) (u_isActive u);
     isPrimary := default (isPrimary l) (u_isPrimary u);
     isVisibleToAdmins := isVisibleToAdmins l |}.

Section Routes.
Variable validate : Location -> bool.

(** [await location.save()]: validation, then the pre-save hook, then
    the write of the document itself. *)
Definition save {D} (stored : option Location) (id : ObjectId) (l : Location)
  : Handler Store D unit :=
  if validate l
  then modify (fun s : Store => <[id := l]> (preSave stored id l s))
  else throw "Location validation failed".

(** POST /locations *)
Definition share (e : Env) (req : Req NewLocation)
  : World Store -> Response (option Location) * World Store :=
  try_catch
    (if negb (bool_decide (errors req = [])) then respond 400 (Errors (errors req))
     else
       let b := reqBody req in
       let location :=
         {| user := uid (caller req); name := n_name b; description := n_description b;
            latitude := n_latitude b; longitude := n_longitude b;
            type := default "other" (n_type b); isActive := true;
            isPrimary := default false (n_isPrimary b);
            isVisibleToAdmins := true |} in
       save None (newId e) location;;
       populatedLocation ← read (fun s : Store => s !! newId e);
       emit (to_emit (io e) "admin-room" "location-update" (newId e)
             ++ io_emit (io e) "admin-submission-received" (newId e));;
       mret (json 201 (Success populatedLocation)))
    (fun _ => json 500 (Failure "Error sharing location")).

(** PUT /locations/:id *)
Definition update (id : ObjectId) (req : Req Update)
  : World Store -> Response (option Location) * World Store :=
  try_catch
    (if negb (bool_decide (errors req = [])) then respond 400 (Errors (errors req))
     else
       found ← read (fun s : Store => s !! id);
       match found with
       | None => respond 404 (Failure "Location not found")
       | Some location =>
           if negb (isAdmin (caller req)) && negb (user location =? uid (caller req))
           then respond 403 (Failure "Not authorized to update this location")
           else
             save (Some location) id (applyUpdate (reqBody req) location);;
             populatedLocation ← read (fun s : Store => s !! id);
             mret (json 200 (Success populatedLocation))
       end)
    (fun _ => json 500 (Failure "Error updating location")).

(** DELETE /locations/:id: a soft delete. *)
Definition remove (id : ObjectId) (req : Req unit)
  : World Store -> Response unit * World Store :=
  try_catch
    (found ← read (fun s : Store => s !! id);
     match found with
     | None => respond 404 (Failure "Location not found")
     | Some location =>
         if negb (isAdmin (caller req)) && negb (user location =? uid (caller req))
         then respond 403 (Failure "Not authorized to delete this location")
         else
           save (Some location) id (set_isActive false location);;
           mret (json 200 (Success tt))
     end)
    (fun _ => json 500 (Failure "Error deleting location")).
End Routes.

(** At most one primary location for a user and a type. *)
Definition onePrimaryPerType (s : Store) : Prop :=
  forall i j a b,
    s !! i = Some a -> s !! j = Some b ->
    isPrimary a = true -> isPrimary b = true ->
    user a = user b -> type a = type b -> i = j.

Module Sample.
Definition john : User :=
  {| uid := "u1"; uname := "John"; email := "john@example.com"; isAdmin := false |}.
Definition mary : User :=
  {| uid := "u2"; uname := "Mary"; email := "mary@example.com"; isAdmin := false |}.

Definition place (t : string) (primary : bool) : Location :=
  {| user := "u1"; name := None; description := None;
     latitude := 6 # 1; longitude := 3 # 1; type := t; isActive := true;
     isPrimary := primary; isVisibleToAdmins := true |}.

(** John's primary home and primary work place. *)
Definition places : World Store :=
  {| db := <["L1" := place "home" true]> (<["L2" := place "work" true]> ∅);
     delivered := [] |}.

Definition noChange : Update :=
  {| u_latitude := None; u_longitude := None; u_name := None; u_description := None;
     u_type := None; u_isPrimary := None; u_isActive := None; u_user := None |}.

(** [{ "type": "home" }] *)
Definition retype (t : string) : Update :=
  {| u_latitude := None; u_longitude := None; u_name := None; u_description := None;
     u_type := Some t; u_isPrimary := None; u_isActive := None; u_user := None |}.

Definition put (who : User) (u : Update) : Req Update :=
  {| caller := who; errors := []; reqBody := u |}.
End Sample.

End Locations.

(** * Vehicles *)

Module Vehicles.

(** ** The Vehicle model (backend/src/models/Vehicle.js) *)

Record MaintenanceRecord := {
  serviceType : string;
  mr_description : option string;
  cost : option Q;
  mileageAtService : option Z;
  serviceDate : Date
}.

(** A record as a caller of [addMaintenanceRecord] passes it. *)
Record MaintenanceInput := {
  i_serviceType : string;
  i_description : option string;
  i_cost : option Q;
  i_mileageAtService : option Z;
  i_serviceDate : option Date
}.

Record Vehicle := {
  owner : ObjectId;
  make : string;
  model : string;
  year : Z;
  licensePlate : string;
  color : option string;
  mileage : Z;
  maintenanceHistory : list MaintenanceRecord;
  isActive : bool
}.

Abbreviation Store := (gmap string Vehicle).

Definition set_isActive (b : bool) (v : Vehicle) : Vehicle :=
  {| owner := owner v; make := make v; model := model v; year := year v;
     licensePlate := licensePlate v; color := color v; mileage := mileage v;
     maintenanceHistory := maintenanceHistory v; isActive := b |}.

Definition set_mileage (n : Z) (v : Vehicle) : Vehicle :=
  {| owner := owner v; make := make v; model := model v; year := year v;
     licensePlate := licensePlate v; color := color v; mileage := n;
     maintenanceHistory := maintenanceHistory v; isActive := isActive v |}.

Definition push_maintenance (r : MaintenanceRecord) (v : Vehicle) : Vehicle :=
  {| owner := owner v; make := make v; model := model v; year := year v;
     licensePlate := licensePlate v; color := color v; mileage := mileage v;
     maintenanceHistory := maintenanceHistory v ++ [r]; isActive := isActive v |}.

(** The validators of [vehicleSchema]; [maxYear] is the year after the one
    in which the schema was loaded. *)
Definition vehicleSchema (maxYear : Z) (v : Vehicle) : bool :=
  negb (make v =? "") && negb (model v =? "") && negb (licensePlate v =? "")
  && (1900 <=? year v)%Z && (year v <=? maxYear)%Z && (0 <=? mileage v)%Z
  && forallb (fun r => negb (serviceType r =? "")) (maintenanceHistory v).

(** A number in a condition: zero is falsy, so is a missing one. *)
Definition truthyZ (o : option Z) : bool :=
  match o with Some n => negb (n =? 0)%Z | None => false end.

(** The mutation of [vehicleSchema.methods.addMaintenanceRecord], before
    its [save()]. *)
Definition addMaintenanceRecord (record : MaintenanceInput) (now : Date) (v : Vehicle)
  : Vehicle :=
  let v := push_maintenance
             {| serviceType := i_serviceType record;
                mr_description := i_description record;
                cost := i_cost record;
                mileageAtService := i_mileageAtService record;
                serviceDate := default now (i_serviceDate record) |} v in
  if truthyZ (i_mileageAtService record)
     && (mileage v <? default 0%Z (i_mileageAtService record))%Z
  then set_mileage (default 0%Z (i_mileageAtService record)) v
  else v.

(** [vehicleSchema.methods.updateMileage]: the document after the call and
    whether the method saved it. *)
Definition updateMileage (newMileage : Z) (v : Vehicle) : Vehicle * bool :=
  if (mileage v <? newMileage)%Z then (set_mileage newMileage v, true) else (v, false).

Record Req (B : Type) : Type := { caller : User; errors : list FieldError; reqBody : B }.
Arguments caller {B} r.
Arguments errors {B} r.
Arguments reqBody {B} r.

(** The keys of a PUT body that are paths of the schema. *)
Record Update := {
  u_make : option string;
  u_model : option string;
  u_year : option Z;
  u_licensePlate : option string;
  u_color : option string;
  u_mileage : option Z;
  u_owner : option ObjectId;
  u_isActive : option bool
}.

(** The assignments of the PUT handler to the loaded document. *)
Definition applyUpdate (u : Update) (v : Vehicle) : Vehicle :=
  {| owner := default (owner v) (u_owner u);
     make := default (make v) (u_make u);
     model := default (model v) (u_model u);
     year := default (year v) (u_year u);
     licensePlate := match u_licensePlate u with
                     | Some p => toUpperCase p
                     | None => licensePlate v
                     end;
     color := match u_color u with Some c => Some c | None => color v end;
     mileage := default (mileage v) (u_mileage u);
     maintenanceHistory := maintenanceHistory v;
     isActive := default (isActive v) (u_isActive u) |}.

Section Routes.
Variable validate : Vehicle -> bool.

Definition save {D} (id : ObjectId) (v : Vehicle) : Handler Store D unit :=
  if validate v then modify (fun s : Store => <[id := v]> s)
  else throw "Vehicle validation failed".

(** GET /vehicles/:id.  The query populates [owner]; for a caller who is
    not an admin the handler reads [vehicle.owner._id], a TypeError when
    the owner id names no stored user. *)
Definition get_vehicle (users : Users) (id : ObjectId) (user : User)
  : World Store -> Response Vehicle * World Store :=
  try_catch
    (found ← read (fun s : Store => s !! id);
     match found with
     | None => respond 404 (Failure "Vehicle not found")
     | Some vehicle =>
         if negb (isActive vehicle) then respond 404 (Failure "Vehicle not found")
         else
           denied ← (if negb (isAdmin user)
                     then match populate users (owner vehicle) with
                          | Some ownerId => mret (negb (ownerId =? uid user))
                          | None => throw "Cannot read properties of null (reading '_id')"
                          end
                     else mret false);
           if denied : bool
           then respond 403 (Failure "Not authorized to view this vehicle")
           else mret (json 200 (Success vehicle))
     end)
    (fun _ => json 500 (Failure "Server error")).

(** PUT /vehicles/:id *)
Definition update (id : ObjectId) (req : Req Update)
  : World Store -> Response Vehicle * World Store :=
  try_catch
    (if negb (bool_decide (errors req = [])) then respond 400 (Errors (errors req))
     else
       found ← read (fun s : Store => s !! id);
       match found with
       | None => respond 404 (Failure "Vehicle not found")
       | Some vehicle =>
           if negb (isActive vehicle) then respond 404 (Failure "Vehicle not found")
           else if negb (isAdmin (caller req)) && negb (owner vehicle =? uid (caller req))
                then respond 403 (Failure "Not authorized to update this vehicle")
                else
                  let vehicle := applyUpdate (reqBody req) vehicle in
                  save id vehicle;;
                  mret (json 200 (Success vehicle))
       end)
    (fun _ => json 500 (Failure "Server error")).

(** DELETE /vehicles/:id: a soft delete. *)
Definition remove (id : ObjectId) (user : User)
  : World Store -> Response unit * World Store :=
  try_catch
    (found ← read (fun s : Store => s !! id);
     match found with
     | None => respond 404 (Failure "Vehicle not found")
     | Some vehicle =>
         if negb (isAdmin user) && negb (owner vehicle =? uid user)
         then respond 403 (Failure "Not authorized to delete this vehicle")
         else
           save id (set_isActive false vehicle);;
           mret (json 200 (Success tt))
     end)
    (fun _ => json 500 (Failure "Server error")).

(** POST /vehicles/:id/maintenance *)
Definition add_maintenance (id : ObjectId) (now : Date) (req : Req MaintenanceInput)
  : World Store -> Response Vehicle * World Store :=
  try_catch
    (if negb (bool_decide (errors req = [])) then respond 400 (Errors (errors req))
     else
       found ← read (fun s : Store => s !! id);
       match found with
       | None => respond 404 (Failure "Vehicle not found")
       | Some vehicle =>
           if negb (isActive vehicle) then respond 404 (Failure "Vehicle not found")
           else if negb (isAdmin (caller req)) && negb (owner vehicle =? uid (caller req))
                then respond 403 (Failure "Not authorized to add maintenance to this vehicle")
                else
                  let vehicle := addMaintenanceRecord (reqBody req) now vehicle in
                  save id vehicle;;
                  mret (json 200 (Success vehicle))
       end)
    (fun _ => json 500 (Failure "Server error")).
End Routes.

Module Sample.
Definition john : User :=
  {| uid := "u1"; uname := "John"; email := "john@example.com"; isAdmin := false |}.
Definition mary : User :=
  {| uid := "u2"; uname := "Mary"; email := "mary@example.com"; isAdmin := false |}.

Definition camry (active : bool) : Vehicle :=
  {| owner := "u1"; make := "Toyota"; model := "Camry"; year := 2020;
     licensePlate := "ABC123"; color := None; mileage := 42000;
     maintenanceHistory := []; isActive := active |}.

Definition garage (active : bool) : World Store :=
  {| db := <["v1" := camry active]> ∅; delivered := [] |}.

Definition noChange : Update :=
  {| u_make := None; u_model := None; u_year := None; u_licensePlate := None;
     u_color := None; u_mileage := None; u_owner := None; u_isActive := None |}.
End Sample.

End Vehicles.

(** * Services *)

Module Services.

(** ** The Service model (backend/src/models/Service.js) *)

Record Note := { n_text : string; createdBy : ObjectId; n_createdAt : Date }.

Record Service := {
  user : ObjectId;
  vehicle : ObjectId;
  serviceType : string;
  title : string;
  description : string;
  urgency : string;
  status : string;
  preferredDate : Date;
  completedAt : option Date;
  notes : list Note
}.

Abbreviation Store := (gmap string Service).

Definition set_status (v : string) (s : Service) : Service :=
  {| user := user s; vehicle := vehicle s; serviceType := serviceType s;
     title := title s; description := description s; urgency := urgency s;
     status := v; preferredDate := preferredDate s; completedAt := completedAt s;
     notes := notes s |}.

Definition set_completedAt (v : option Date) (s : Service) : Service :=
  {| user := user s; vehicle := vehicle s; serviceType := serviceType s;
     title := title s; description := description s; urgency := urgency s;
     status := status s; preferredDate := preferredDate s; completedAt := v;
     notes := notes s |}.

Definition push_note (n : Note) (s : Service) : Service :=
  {| user := user s; vehicle := vehicle s; serviceType := serviceType s;
     title := title s; description := description s; urgency := urgency s;
     status := status s; preferredDate := preferredDate s;
     completedAt := completedAt s; notes := notes s ++ [n] |}.

Definition isIn (xs : list string) (x : string) : bool := existsb (String.eqb x) xs.

(** The validators of [serviceSchema]. *)
Definition serviceSchema (s : Service) : bool :=
  isIn ["oil_change"; "brake_service"; "tire_rotation"; "transmission_service";
        "engine_tune_up"; "battery_replacement"; "air_conditioning"; "heating_system";
        "suspension_repair"; "exhaust_system"; "electrical_system"; "cooling_system";
        "fuel_system"; "emissions_test"; "general_inspection"; "other"] (serviceType s)
  && negb (title s =? "") && negb (description s =? "")
  && isIn ["low"; "medium"; "high"; "critical"] (urgency s)
  && isIn ["pending"; "approved"; "in_progress"; "completed"; "cancelled"] (status s)
  && forallb (fun n => negb (n_text n =? "")) (notes s).

Record Env := {
  now : Date;
  (** The handler calls [save()] while the [save()] started by [addNote] is
      in flight; what that second call does is left to Mongoose. *)
  secondSave : Outcome unit
}.

Record Req (B : Type) : Type := { caller : User; errors : list FieldError; reqBody : B }.
Arguments caller {B} r.
Arguments errors {B} r.
Arguments reqBody {B} r.

Record StatusBody := { b_status : string; b_notes : option string }.

Definition truthy (o : option string) : bool :=
  match o with Some x => negb (x =? "") | None => false end.

(** The assignments of the status handler to the loaded document. *)
Definition applyStatus (e : Env) (who : User) (b : StatusBody) (s : Service) : Service :=
  let s := set_status (b_status b) s in
  let s := if b_status b =? "completed" then set_completedAt (Some (now e)) s else s in
  if truthy (b_notes b)
  then push_note {| n_text := default "" (b_notes b); createdBy := uid who;
                    n_createdAt := now e |} s
  else s.

Section Routes.
Variable validate : Service -> bool.

Definition save {D} (id : ObjectId) (s : Service) : Handler Store D unit :=
  if validate s then modify (fun m : Store => <[id := s]> m)
  else throw "Service validation failed".

(** GET /services/:id.  The query populates [user]; for a caller who is
    not an admin the handler reads [service.user._id], a TypeError when
    the user id names no stored user. *)
Definition get_service (users : Users) (id : ObjectId) (who : User)
  : World Store -> Response Service * World Store :=
  try_catch
    (found ← read (fun s : Store => s !! id);
     match found with
     | None => respond 404 (Failure "Service not found")
     | Some service =>
         denied ← (if negb (isAdmin who)
                   then match populate users (user service) with
                        | Some userId => mret (negb (userId =? uid who))
                        | None => throw "Cannot read properties of null (reading '_id')"
                        end
                   else mret false);
         if denied : bool
         then respond 403 (Failure "Not authorized to view this service")
         else mret (json 200 (Success service))
     end)
    (fun _ => json 500 (Failure "Server error")).

(** PUT /services/:id/status.  With notes, [addNote] pushes the note and
    saves; the handler then saves again. *)
Definition update_status (id : ObjectId) (e : Env) (req : Req StatusBody)
  : World Store -> Response Service * World Store :=
  try_catch
    (if negb (isAdmin (caller req)) then respond 403 (Failure "Admin access required")
     else if negb (bool_decide (errors req = [])) then respond 400 (Errors (errors req))
     else
       found ← read (fun s : Store => s !! id);
       match found with
       | None => respond 404 (Failure "Service not found")
       | Some service =>
           let service := applyStatus e (caller req) (reqBody req) service in
           (if truthy (b_notes (reqBody req))
            then (if validate service then modify (fun m : Store => <[id := service]> m)
                  else mret tt);;
                 await (secondSave e)
            else mret tt);;
           save id service;;
           mret (json 200 (Success service))
       end)
    (fun _ => json 500 (Failure "Server error")).
End Routes.

Module Sample.
Definition john : User :=
  {| uid := "u1"; uname := "John"; email := "john@example.com"; isAdmin := false |}.
Definition mary : User :=
  {| uid := "u2"; uname := "Mary"; email := "mary@example.com"; isAdmin := false |}.
Definition root : User :=
  {| uid := "a1"; uname := "Admin"; email := "admin@example.com"; isAdmin := true |}.

Definition oilChange : Service :=
  {| user := "u1"; vehicle := "v1"; serviceType := "oil_change";
     title := "Oil change"; description := "Regular oil change";
     urgency := "medium"; status := "pending"; preferredDate := 700;
     completedAt := None; notes := [] |}.

Definition booked : World Store := {| db := <["s1" := oilChange]> ∅; delivered := [] |}.

Definition env (t : Date) : Env := {| now := t; secondSave := Resolved tt |}.

Definition setStatus (st : string) : Req StatusBody :=
  {| caller := root; errors := []; reqBody := {| b_status := st; b_notes := None |} |}.
End Sample.

End Services.

(** * Access to the resources of another user *)

Module Access.



(** The response carries no resource, whatever its code. *)
Definition withheld {D} (r : Response D) : Prop :=
  match body r with Success _ => False | _ => True end.


(** The users John and Mary. *)
Definition twoUsers : Users := {["u1"]} ∪ {["u2"]}.


End Access.

(** * Further methods of the Payment model *)

Module Refunds.
Import Payments.


(** A number in a condition: zero is falsy, so is a missing one. *)
Definition truthyQ (o : option Q) : bool :=
  match o with Some q => negb (Qeq_bool q 0) | None => false end.





(** What a verification leaves alone: who paid, what, how, and the
    provider correlation ids. *)
Definition sameParty (p q : Payment) : Prop :=
  _id q = _id p /\ user q = user p /\ amount q = amount p
  /\ currency q = currency p /\ description q = description p
  /\ paymentMethod q = paymentMethod p
  /\ paystackReference q = paystackReference p
  /\ paypalOrderId q = paypalOrderId p.

(** The deliveries a request added to those already made. *)
Definition newDeliveries {S} (before after : World S) : list Delivery :=
  skipn (length (delivered before)) (delivered after).

End Refunds.

(** * Further queries and methods of the Message model *)

Module Inbox.
Import Messages.

(** The [$match] stage of [getAllConversations]. *)
Definition inConversations (m : Message) : bool :=
  negb (conversation m =? "admin-broadcast") || isVisibleToAllAdmins m.

(** The [$cond] of [unreadCount]: sent by a user and read by nobody. *)
Definition unread (m : Message) : bool :=
  (senderType m =? "user") && match isRead m with [] => true | _ => false end.

(** One output document of the [$group] stage. *)
Record Summary := {
  c_id : string;
  lastMessage : Message;
  messageCount : nat;
  unreadCount : nat
}.

Definition firstOf (m : Message) : Summary :=
  {| c_id := conversation m; lastMessage := m; messageCount := 1;
     unreadCount := if unread m then 1 else 0 |}.

(** The accumulators of a group take one more message: [$first] keeps
    the message it has, the two sums grow. *)
Definition bump (m : Message) (g : Summary) : Summary :=
  {| c_id := c_id g; lastMessage := lastMessage g;
     messageCount := S (messageCount g);
     unreadCount := (if unread m then 1 else 0) + unreadCount g |}.

(** The [$group] stage takes the next message of its input. *)
Fixpoint accumulate (m : Message) (gs : list Summary) : list Summary :=
  match gs with
  | [] => [firstOf m]
  | g :: rest =>
      if c_id g =? conversation m then bump m g :: rest else g :: accumulate m rest
  end.

Definition group (l : list Message) : list Summary :=
  fold_left (fun gs m => accumulate m gs) l [].

(** [messageSchema.statics.getAllConversations]: match, sort by creation
    time (newest first), group by conversation.  ([populate] joins the
    sender of each last message and drops nothing.) *)
Definition getAllConversations (s : Store) : list Summary :=
  group (sortDesc (List.filter inConversations s)).

Definition summaryOf (c : string) (gs : list Summary) : option Summary :=
  List.find (fun g => c_id g =? c) gs.

(** The summary of conversation [c] over a stream of messages: the first
    message of the conversation, how many there are, how many unread. *)
Definition summarise (c : string) (l : list Message) : option Summary :=
  match List.filter (fun m => conversation m =? c) l with
  | [] => None
  | m :: r =>
      Some {| c_id := c; lastMessage := m; messageCount := length (m :: r);
              unreadCount := length (List.filter unread (m :: r)) |}
  end.

(** [messageSchema.methods.markAsReadByAdmin]: the document after the call
    and whether the method saved it. *)
Definition markRead (adminId : ObjectId) (now : Date) (m : Message) : Message * bool :=
  if negb (hasReadBy adminId m)
  then (pushRead {| rr_user := adminId; readAt := now |} m, true)
  else (m, false).

(** Newest first. *)
Definition newestFirst (l : list Message) : Prop :=
  StronglySorted (fun a b => (createdAt b <= createdAt a)%Z) l.

(** No reader has two receipts on the message. *)
Definition readOnce (m : Message) : Prop := NoDup (map rr_user (isRead m)).

(** The auto-reply that [sendAutoReply] builds. *)
Definition autoReplyFor (e : Env) (userId : ObjectId) : Message :=
  {| _id := replyId e; sender := None; recipient := Some userId;
     conversation := userId;
     text := "Thanks for your message! An admin will review it shortly and get back to you.";
     senderType := "admin"; recipientType := "user"; isRead := [];
     isAutoReply := true; isVisibleToAllAdmins := false;
     createdAt := now e |}.

(** The message an admin sends to the user [r]. *)
Definition adminMessage (e : Env) (req : Req SendBody) (r : string) : Message :=
  {| _id := newId e; sender := Some (uid (caller req)); recipient := Some r;
     conversation := r; text := b_text (reqBody req);
     senderType := "admin"; recipientType := "user"; isRead := [];
     isAutoReply := false; isVisibleToAllAdmins := false; createdAt := now e |}.

End Inbox.

(** * Sequences of location requests *)

Module Places.
Import Locations.

Section Routes.
Variable validate : Location -> bool.

(** The requests that write to the collection. *)
Inductive Request : Type :=
| Share (e : Env) (req : Req NewLocation)
| Put (id : ObjectId) (req : Req Update)
| Delete (id : ObjectId) (req : Req unit).

Definition serve (r : Request) (w : World Store) : World Store :=
  match r with
  | Share e req => snd (share validate e req w)
  | Put id req => snd (update validate id req w)
  | Delete id req => snd (remove validate id req w)
  end.

Definition run (rs : list Request) (w : World Store) : World Store :=
  fold_left (fun w r => serve r w) rs w.
End Routes.

(** A request that, in the world it meets, moves no location to another
    type or user: the body of a PUT may name a type and a user as long as
    they are the ones the location has. *)
Definition keepsTypeAndUser (r : Request) (w : World Store) : Prop :=
  match r with
  | Put id req =>
      forall l, db w !! id = Some l ->
                default (type l) (u_type (reqBody req)) = type l
                /\ default (user l) (u_user (reqBody req)) = user l
  | _ => True
  end.

(** No request of the sequence moves a location, each taken in the world
    that the requests before it left. *)
Fixpoint noneMoves (validate : Location -> bool) (rs : list Request) (w : World Store)
  : Prop :=
  match rs with
  | [] => True
  | r :: rest => keepsTypeAndUser r w /\ noneMoves validate rest (serve validate r w)
  end.

Definition emptyWorld : World Store := {| db := ∅; delivered := [] |}.

Module Sample.
Definition env (id : ObjectId) : Env := {| now := 0%Z; newId := id; io := [] |}.

(** John shares a primary location of the given type. *)
Definition primary (t : string) : Req NewLocation :=
  {| caller := Locations.Sample.john; errors := [];
     reqBody := {| n_latitude := 6 # 1; n_longitude := 3 # 1; n_name := None;
                   n_description := None; n_type := Some t;
                   n_isPrimary := Some true |} |}.

Definition byJohn : Req unit :=
  {| caller := Locations.Sample.john; errors := []; reqBody := tt |}.
End Sample.

End Places.

(** * Creating vehicles, and the maintenance schedule *)

Module Garage.
Import Vehicles.

(** The keys of a POST body that are paths of the schema. *)
Record NewVehicle := {
  n_make : string;
  n_model : string;
  n_year : Z;
  n_licensePlate : string;
  n_color : option string;
  n_mileage : option Z;
  n_owner : option ObjectId;
  n_isActive : option bool
}.

(** [Vehicle.findOne({ licensePlate, isActive: true })] as a condition. *)
Definition plateTaken (plate : string) (s : Store) : bool :=
  existsb (fun v => (licensePlate v =? plate) && isActive v) (map snd (map_to_list s)).

Section Routes.
Variable validate : Vehicle -> bool.

(** POST /vehicles; [newId] is the [_id] of the new document. *)
Definition create (newId : ObjectId) (req : Req NewVehicle)
  : World Store -> Response Vehicle * World Store :=
  try_catch
    (if negb (bool_decide (errors req = [])) then respond 400 (Errors (errors req))
     else
       let b := reqBody req in
       let plate := toUpperCase (n_licensePlate b) in
       existingVehicle ← read (plateTaken plate);
       if existingVehicle : bool
       then respond 400 (Failure "A vehicle with this license plate already exists")
       else
         let vehicle :=
           {| owner := uid (caller req); make := n_make b; model := n_model b;
              year := n_year b; licensePlate := plate; color := n_color b;
              mileage := default 0%Z (n_mileage b); maintenanceHistory := [];
              isActive := default true (n_isActive b) |} in
         save validate newId vehicle;;
         mret (json 201 (Success vehicle)))
    (fun _ => json 500 (Failure "Server error")).

(** The requests that write to the collection. *)
Inductive Request : Type :=
| Create (newId : ObjectId) (req : Req NewVehicle)
| Put (id : ObjectId) (req : Req Update)
| Delete (id : ObjectId) (who : User)
| Maintain (id : ObjectId) (now : Date) (req : Req MaintenanceInput).

Definition serve (r : Request) (w : World Store) : World Store :=
  match r with
  | Create newId req => snd (create newId req w)
  | Put id req => snd (update validate id req w)
  | Delete id who => snd (remove validate id who w)
  | Maintain id now req => snd (add_maintenance validate id now req w)
  end.

Definition run (rs : list Request) (w : World Store) : World Store :=
  fold_left (fun w r => serve r w) rs w.
End Routes.

(** The [_id] a request gives to a new document. *)
Definition creates (r : Request) : option ObjectId :=
  match r with Create newId _ => Some newId | _ => None end.

Definition emptyWorld : World Store := {| db := ∅; delivered := [] |}.

(** A request whose license plate, when the body has one, is made of
    ASCII characters. *)
Definition asciiPlates (r : Request) : Prop :=
  match r with
  | Create _ req => isAscii (n_licensePlate (reqBody req)) = true
  | Put _ req =>
      match u_licensePlate (reqBody req) with
      | Some plate => isAscii plate = true
      | None => True
      end
  | _ => True
  end.

(** Every stored plate is an ASCII string in upper case. *)
Definition platesUpper (s : Store) : Prop :=
  forall k v, s !! k = Some v ->
              isAscii (licensePlate v) = true
              /\ toUpperCase (licensePlate v) = licensePlate v.

(** *** The maintenance schedule of a vehicle *)

Record Upcoming := {
  up_id : ObjectId;
  up_serviceType : string;
  dueDate : option Date;
  dueMileage : option Z
}.

(** A Vehicle document with its [upcomingMaintenance] path. *)
Record VehicleDoc := { doc : Vehicle; upcomingMaintenance : list Upcoming }.

(** The condition of the [overdueMaintenance] virtual. *)
Definition isOverdue (now : Date) (mileage : Z) (m : Upcoming) : bool :=
  match dueDate m with Some t => (t <? now)%Z | None => false end
  || (truthyZ (dueMileage m) && (default 0%Z (dueMileage m) <=? mileage)%Z).

Definition overdueMaintenance (now : Date) (d : VehicleDoc) : list Upcoming :=
  List.filter (isOverdue now (mileage (doc d))) (upcomingMaintenance d).

(** [vehicleSchema.methods.scheduleMaintenance], up to its [save()]. *)
Definition scheduleMaintenance (m : Upcoming) (d : VehicleDoc) : VehicleDoc :=
  {| doc := doc d; upcomingMaintenance := upcomingMaintenance d ++ [m] |}.

(** [vehicleSchema.methods.completeScheduledMaintenance], up to its
    [save()]. *)
Definition completeScheduledMaintenance (maintenanceId : ObjectId)
           (serviceRecord : MaintenanceRecord) (d : VehicleDoc) : VehicleDoc :=
  {| doc := push_maintenance serviceRecord (doc d);
     upcomingMaintenance :=
       List.filter (fun m => negb (up_id m =? maintenanceId)) (upcomingMaintenance d) |}.

Module Sample.
Definition corolla (plate : string) : Req NewVehicle :=
  {| caller := Vehicles.Sample.mary; errors := [];
     reqBody := {| n_make := "Toyota"; n_model := "Corolla"; n_year := 2021;
                   n_licensePlate := plate; n_color := None; n_mileage := None;
                   n_owner := Some "u1"; n_isActive := None |} |}.

Definition oilDue : Upcoming :=
  {| up_id := "k1"; up_serviceType := "oil_change"; dueDate := Some 500%Z;
     dueMileage := None |}.

Definition tyresDue : Upcoming :=
  {| up_id := "k2"; up_serviceType := "tire_rotation"; dueDate := None;
     dueMileage := Some 40000%Z |}.

Definition scheduled : VehicleDoc :=
  {| doc := Vehicles.Sample.camry true; upcomingMaintenance := [oilDue; tyresDue] |}.

Definition oilDone : MaintenanceRecord :=
  {| serviceType := "oil_change"; mr_description := None; cost := None;
     mileageAtService := Some 43000%Z; serviceDate := 600%Z |}.
End Sample.

End Garage.

(** * Creating services, and their notes *)

Module Bookings.
Import Services.

(** The mutation of [serviceSchema.methods.addNote], before its [save()];
    [createdAt] takes its default. *)
Definition addNote (text : string) (userId : ObjectId) (now : Date) (s : Service) : Service :=
  push_note {| n_text := text; createdBy := userId; n_createdAt := now |} s.

Record NewService := {
  b_vehicleId : ObjectId;
  b_serviceType : string;
  b_title : string;
  b_description : string;
  b_preferredDate : Date;
  b_urgency : option string
}.

Section Routes.
Variable validate : Service -> bool.

(** POST /services/:id/notes *)
Definition add_note (id : ObjectId) (e : Env) (req : Req string)
  : World Store -> Response (list Note) * World Store :=
  try_catch
    (if negb (bool_decide (errors req = [])) then respond 400 (Errors (errors req))
     else
       found ← read (fun s : Store => s !! id);
       match found with
       | None => respond 404 (Failure "Service not found")
       | Some service =>
           if negb (isAdmin (caller req)) && negb (user service =? uid (caller req))
           then respond 403 (Failure "Not authorized to add notes to this service")
           else
             let service := addNote (reqBody req) (uid (caller req)) (now e) service in
             save validate id service;;
             mret (json 200 (Success (notes service)))
       end)
    (fun _ => json 500 (Failure "Server error")).

(** POST /services; [vehicles] is the Vehicle collection, which the
    handler only reads, [newId] the [_id] of the new document. *)
Definition create (vehicles : Vehicles.Store) (newId : ObjectId) (req : Req NewService)
  : World Store -> Response Service * World Store :=
  try_catch
    (if negb (bool_decide (errors req = [])) then respond 400 (Errors (errors req))
     else
       let b := reqBody req in
       match vehicles !! b_vehicleId b with
       | None => respond 404 (Failure "Vehicle not found")
       | Some vehicle =>
           if negb (isAdmin (caller req))
              && negb (Vehicles.owner vehicle =? uid (caller req))
           then respond 403 (Failure "Not authorized to create service for this vehicle")
           else
             let service :=
               {| user := uid (caller req); vehicle := b_vehicleId b;
                  serviceType := b_serviceType b; title := b_title b;
                  description := b_description b;
                  urgency := or_default (default "" (b_urgency b)) "medium";
                  status := "pending"; preferredDate := b_preferredDate b;
                  completedAt := None; notes := [] |} in
             save validate newId service;;
             mret (json 201 (Success service))
       end)
    (fun _ => json 500 (Failure "Server error")).

(** The requests that write to the collection. *)
Inductive Request : Type :=
| Create (vehicles : Vehicles.Store) (newId : ObjectId) (req : Req NewService)
| Status (id : ObjectId) (e : Env) (req : Req StatusBody)
| AddNote (id : ObjectId) (e : Env) (req : Req string).

Definition serve (r : Request) (w : World Store) : World Store :=
  match r with
  | Create vehicles newId req => snd (create vehicles newId req w)
  | Status id e req => snd (update_status validate id e req w)
  | AddNote id e req => snd (add_note id e req w)
  end.

Definition run (rs : list Request) (w : World Store) : World Store :=
  fold_left (fun w r => serve r w) rs w.
End Routes.

(** The [_id] a request gives to a new document. *)
Definition creates (r : Request) : option ObjectId :=
  match r with Create _ newId _ => Some newId | _ => None end.

(** The later state of a service: who asked, for which vehicle and what
    stay, the notes are the earlier ones and possibly more. *)
Definition grown (s s' : Service) : Prop :=
  user s' = user s /\ vehicle s' = vehicle s /\ serviceType s' = serviceType s
  /\ title s' = title s /\ description s' = description s
  /\ urgency s' = urgency s /\ preferredDate s' = preferredDate s
  /\ exists more, notes s' = (notes s ++ more)%list.

(** The collection holds a later state of the service under [id]. *)
Definition grownAt (id : ObjectId) (s : Service) (m : Store) : Prop :=
  exists s', m !! id = Some s' /\ grown s s'.

Module Sample.
Definition note (who : User) (t : string) : Req string :=
  {| caller := who; errors := []; reqBody := t |}.

Definition brakes (who : User) : Req NewService :=
  {| caller := who; errors := [];
     reqBody := {| b_vehicleId := "v1"; b_serviceType := "brake_service";
                   b_title := "Brake check"; b_description := "Brakes squeal when cold";
                   b_preferredDate := 800%Z; b_urgency := None |} |}.
End Sample.

End Bookings.

(** * The socket client of the front end *)

Module Sockets.

(** ** SocketService (the second file of unnamed/part_001)

    A handler is known by its identity, as a JavaScript [Set] knows a
    function; [eventHandlers] maps an event to its set of handlers, a set
    being the list of its elements in insertion order. *)

Abbreviation HandlerId := string.
Abbreviation Registry := (gmap string (list HandlerId)).

Record SocketService := {
  socket : option string;
  isConnected : bool;
  eventHandlers : Registry
}.

(** [new SocketService()] *)
Definition initial : SocketService :=
  {| socket := None; isConnected := false; eventHandlers := ∅ |}.

(** [Set.prototype.add] *)
Definition add (h : HandlerId) (l : list HandlerId) : list HandlerId :=
  if existsb (String.eqb h) l then l else (l ++ [h])%list.

(** [Set.prototype.delete] *)
Definition delete (h : HandlerId) (l : list HandlerId) : list HandlerId :=
  List.filter (fun x => negb (x =? h)) l.

(** [on(event, handler)] *)
Definition on (event : string) (handler : HandlerId) (s : SocketService) : SocketService :=
  {| socket := socket s; isConnected := isConnected s;
     eventHandlers :=
       <[event := add handler (default [] (eventHandlers s !! event))]> (eventHandlers s) |}.

(** The unsubscribe function that [on(event, handler)] returns. *)
Definition unsubscribe (event : string) (handler : HandlerId) (s : SocketService)
  : SocketService :=
  match eventHandlers s !! event with
  | Some handlers =>
      {| socket := socket s; isConnected := isConnected s;
         eventHandlers := <[event := delete handler handlers]> (eventHandlers s) |}
  | None => s
  end.

(** [emit(event, data)]: the handlers called, in order; a handler that
    throws is logged and the next one is called.  (Handlers that subscribe
    or unsubscribe while they run are outside the model.) *)
Definition emit (event : string) (s : SocketService) : list HandlerId :=
  default [] (eventHandlers s !! event).

(** [disconnect()] *)
Definition disconnect (s : SocketService) : SocketService :=
  match socket s with
  | Some _ => {| socket := None; isConnected := false; eventHandlers := eventHandlers s |}
  | None => s
  end.

(** [connect(user)]; [sock] is the socket that [io(...)] makes. *)
Definition connect (sock : string) (s : SocketService) : SocketService :=
  let s := disconnect s in
  {| socket := Some sock; isConnected := isConnected s; eventHandlers := eventHandlers s |}.

(** The events of the socket: [connect] ([up]), whose listener reads
    [this.socket.id] before it sets the flag, a TypeError when the service
    holds no socket; [disconnect] and [connect_error], which clear the
    flag. *)
Definition connected (up : bool) (s : SocketService) : SocketService :=
  if up
  then match socket s with
       | Some _ =>
           {| socket := socket s; isConnected := true; eventHandlers := eventHandlers s |}
       | None => s
       end
  else {| socket := socket s; isConnected := false; eventHandlers := eventHandlers s |}.

(** What a component does to the service. *)
Inductive Op : Type :=
| On (event : string) (handler : HandlerId)
| Unsubscribe (event : string) (handler : HandlerId)
| Connect (sock : string)
| Disconnect
| SocketEvent (up : bool).

Definition apply (s : SocketService) (o : Op) : SocketService :=
  match o with
  | On event handler => on event handler s
  | Unsubscribe event handler => unsubscribe event handler s
  | Connect sock => connect sock s
  | Disconnect => disconnect s
  | SocketEvent up => connected up s
  end.

Definition run (ops : list Op) : SocketService := fold_left apply ops initial.

(** Whether the last thing done about [handler] on [event] was to
    subscribe it. *)
Definition subscribed (event : string) (handler : HandlerId) (ops : list Op) : bool :=
  fold_left
    (fun b o =>
       match o with
       | On e h => if (e =? event) && (h =? handler) then true else b
       | Unsubscribe e h => if (e =? event) && (h =? handler) then false else b
       | _ => b
       end) ops false.

End Sockets.

(** * Verification *)

Section HandlerLogic.
Context {S D : Type}.
Implicit Types (w : World S) (R : World S -> Prop).

Lemma wp_ret {A} (a : A) (Q : A -> World S -> Prop) R w :
  Q a w -> wp (D := D) (mret a) Q R w.
Proof. auto. Qed.

Lemma wp_bind {A B} (m : Handler S D A) (f : A -> Handler S D B)
      (Q : B -> World S -> Prop) R w :
  wp m (fun a w' => wp (f a) Q R w') R w -> wp (m ≫= f) Q R w.
Proof.
  unfold wp, mbind, handler_bind, hbind.
  destruct (m w) as [[a|r|e] w']; auto.
Qed.

Lemma wp_respond {A} c b (Q : A -> World S -> Prop) R w :
  R w -> wp (D := D) (respond c b) Q R w.
Proof. auto. Qed.

Lemma wp_throw {A} e (Q : A -> World S -> Prop) R w :
  R w -> wp (D := D) (throw e) Q R w.
Proof. auto. Qed.

Lemma wp_await {A} (o : Outcome A) (Q : A -> World S -> Prop) R w :
  (forall a, o = Resolved a -> Q a w) -> R w -> wp (D := D) (await o) Q R w.
Proof. destruct o; unfold wp; simpl; auto. Qed.

Lemma wp_read {A} (f : S -> A) (Q : A -> World S -> Prop) R w :
  Q (f (db w)) w -> wp (D := D) (read f) Q R w.
Proof. auto. Qed.

Lemma wp_modify (f : S -> S) (Q : unit -> World S -> Prop) R w :
  Q tt (with_db f w) -> wp (D := D) (modify f) Q R w.
Proof. auto. Qed.

Lemma wp_emit ds (Q : unit -> World S -> Prop) R w :
  Q tt {| db := db w; delivered := delivered w ++ ds |} -> wp (D := D) (emit ds) Q R w.
Proof. auto. Qed.

Lemma wp_try_catch (body : Handler S D (Response D)) onError R w :
  wp body (fun _ w' => R w') R w -> R (snd (try_catch body onError w)).
Proof.
  unfold wp, try_catch. destruct (body w) as [[a|r|e] w']; auto.
Qed.
End HandlerLogic.

Lemma populate_stored (users : Users) id : id ∈ users -> populate users id = Some id.
Proof. intros H. unfold populate. now rewrite bool_decide_eq_true_2. Qed.

Lemma populate_missing (users : Users) id : id ∉ users -> populate users id = None.
Proof. intros H. unfold populate. now rewrite bool_decide_eq_false_2. Qed.

Ltac wp_basic :=
  first
    [ apply wp_await; [intros ? ? |]
    | apply wp_ret | apply wp_respond | apply wp_throw
    | apply wp_read | apply wp_modify | apply wp_emit
    | apply wp_bind ].

Ltac wp_case :=
  match goal with
  | |- wp (if ?b then _ else _) _ _ _ => destruct b eqn:?
  | |- wp (match ?x with _ => _ end) _ _ _ => destruct x eqn:?
  | |- wp (let '(_, _) := ?x in _) _ _ _ => destruct x eqn:?
  end.

(** Unfolding of the handler monad at a known scrutinee. *)
Ltac unfold_handler :=
  unfold try_catch, mbind, mret, handler_bind, handler_ret, hbind, hret,
    respond, throw, await, read, modify, emit in *.

Module PaymentsSpec.
Import Payments.

Example paid_record :
  db Sample.paid =
  [ {| _id := "p1"; user := "u1"; amount := 5000 # 1; currency := "NGN";
       description := None; paymentMethod := "paystack"; status := "completed";
       paystackReference := Some "p1"; paystackTransactionId := Some "901";
       paystackStatus := Some "success"; paypalOrderId := None;
       paypalCaptureId := None; transactionId := Some "AC1700000000000042";
       completedAt := Some 2000%Z |} ].
Proof. vm_compute. reflexivity. Qed.


(** C3. When the provider's verify call fails (the promise rejects or the
    reply is unsuccessful) the Paystack verify handler answers 500 with a
    failure message and the world, hence the status of every Payment, is
    what it was; the same holds for the PayPal capture handler when the
    token or the capture request rejects. *)
Theorem provider_failure_leaves_status
        (validate : option Payment -> Payment -> bool) (e : Env) (w : World Store) :
  (forall client (req : Req string),
      errors req = [] -> verifyFails client (reqBody req) ->
      exists m, paystack_verify validate (Some client) e req w
                = (json 500 (Failure m), w))
  /\ (forall api (req : Req string),
      errors req = [] -> captureFails api (reqBody req) ->
      exists m, paypal_capture validate (Some api) e req w
                = (json 500 (Failure m), w)).
Proof.
  split.
  - intros client req Herr Hfail. unfold paystack_verify. rewrite Herr. simpl.
    destruct Hfail as [[m Hm] | [r [Hr Hst]]]; unfold_handler.
    + rewrite Hm. eexists; reflexivity.
    + rewrite Hr. cbn. rewrite Hst. cbn. eexists; reflexivity.
  - intros api req Herr Hfail. unfold paypal_capture. rewrite Herr. simpl.
    destruct Hfail as [[m Hm] | [tok [m [Htok Hm]]]]; unfold_handler.
    + rewrite Hm. eexists; reflexivity.
    + rewrite Htok. cbn. rewrite Hm. eexists; reflexivity.
Qed.


Lemma provider_failure_witness :
  (exists m, paystack_verify paymentSchema (Some Sample.offline) (Sample.env "p2" 3000)
               Sample.verifyReq Sample.paid
             = (json 500 (Failure m), Sample.paid))
  /\ (exists m, paypal_capture paymentSchema (Some Sample.paypalDown) (Sample.env "q2" 3000)
                 Sample.captureReq Sample.ordered
               = (json 500 (Failure m), Sample.ordered)).
Proof.
  destruct (provider_failure_leaves_status paymentSchema (Sample.env "p2" 3000) Sample.paid)
    as [Hpaystack _].
  destruct (provider_failure_leaves_status paymentSchema (Sample.env "q2" 3000) Sample.ordered)
    as [_ Hpaypal].
  split.
  - apply Hpaystack; [reflexivity |]. left. exists "connect ETIMEDOUT". reflexivity.
  - apply Hpaypal; [reflexivity |]. left. exists "fetch failed". reflexivity.
Defined.

(** ** The collection under [save] *)

Lemma find_id_sound id s p : findById id s = Some p -> _id p = id.
Proof.
  unfold findById. intros H. apply find_some in H as [_ H].
  now apply String.eqb_eq.
Qed.

Lemma findById_app_fresh id s p :
  findById id s = None -> _id p = id -> findById id (s ++ [p]) = Some p.
Proof.
  unfold findById. induction s as [|q s IH]; simpl; intros Hn Hp.
  - subst. now rewrite String.eqb_refl.
  - destruct (_id q =? id); [discriminate | auto].
Qed.

Lemma findById_replace id s p q :
  findById id s = Some q -> _id p = id ->
  findById id (map (fun d => if _id d =? id then p else d) s) = Some p.
Proof.
  unfold findById. induction s as [|d s IH]; simpl; [discriminate |].
  intros Hq Hp. destruct (_id d =? id) eqn:Hd; simpl.
  - subst id. now rewrite String.eqb_refl.
  - rewrite Hd. auto.
Qed.

Lemma findById_persist p s : findById (_id p) (persist p s) = Some p.
Proof.
  unfold persist. destruct (findById (_id p) s) eqn:H.
  - now apply findById_replace with (q := p0).
  - now apply findById_app_fresh.
Qed.

Lemma preSave_id st p : _id (preSave st p) = _id p.
Proof. unfold preSave. destruct (transactionId p) as [t|]; [destruct (t =? "")|]; reflexivity. Qed.

Lemma preSave_status st p : status (preSave st p) = status p.
Proof. unfold preSave. destruct (transactionId p) as [t|]; [destruct (t =? "")|]; reflexivity. Qed.

Lemma preSave_completedAt st p : completedAt (preSave st p) = completedAt p.
Proof. unfold preSave. destruct (transactionId p) as [t|]; [destruct (t =? "")|]; reflexivity. Qed.

Lemma applyTransaction_id t n p : _id (applyTransaction t n p) = _id p.
Proof. unfold applyTransaction. destruct (tx_status t =? "success"); reflexivity. Qed.

Lemma applyTransaction_verified t n p :
  verifiedAs (tx_status t =? "success") n p (applyTransaction t n p).
Proof.
  unfold verifiedAs, applyTransaction.
  destruct (tx_status t =? "success"); simpl; repeat split; intros; congruence.
Qed.

Lemma applyCapture_id c n p p' : applyCapture c n p = Resolved p' -> _id p' = _id p.
Proof.
  unfold applyCapture. destruct (firstCaptureId c); [|discriminate].
  destruct (isCompleted c); intros [= <-]; reflexivity.
Qed.


Lemma verifiedAs_preSave b n p q st :
  verifiedAs b n p q -> verifiedAs b n p (preSave st q).
Proof. unfold verifiedAs. now rewrite preSave_status, preSave_completedAt. Qed.

Lemma save_run {D} validate e p (w : World Store) :
  save (D := D) validate e p w
  = if validate (findById (_id p) (db w)) p
    then (Next (preSave (stamp e) p), with_db (persist (preSave (stamp e) p)) w)
    else (Thrown "Payment validation failed", w).
Proof.
  unfold save. unfold_handler. destruct (validate _ p); reflexivity.
Qed.

(** What a Paystack verify that answered 200 did. *)
Lemma paystack_verify_200 validate client e (req : Req string) w res w' :
  paystack_verify validate (Some client) e req w = (res, w') ->
  code res = 200 ->
  exists t pid before,
    reports client (reqBody req) t pid
    /\ findById pid (db w) = Some before
    /\ db w' = persist (preSave (stamp e) (applyTransaction t (now e) before)) (db w).
Proof.
  unfold paystack_verify. intros Hrun Hcode.
  destruct (bool_decide (errors req = [])); simpl in Hrun;
    [| unfold_handler; injection Hrun as <- <-; discriminate].
  unfold_handler.
  destruct (verify client (reqBody req)) as [[st m t]|m] eqn:Hv; cbn in Hrun;
    [| injection Hrun as <- <-; discriminate].
  destruct st; cbn in Hrun; [| injection Hrun as <- <-; discriminate].
  destruct (tx_metadata t) as [md|] eqn:Hmd; cbn in Hrun;
    [| injection Hrun as <- <-; discriminate].
  destruct (payment_id md) as [pid|] eqn:Hpid; cbn in Hrun;
    [| injection Hrun as <- <-; discriminate].
  destruct (findById pid (db w)) as [before|] eqn:Hfind; cbn in Hrun;
    [| injection Hrun as <- <-; discriminate].
  rewrite save_run in Hrun.
  destruct (validate _ _); cbn in Hrun; [| injection Hrun as <- <-; discriminate].
  exists t, pid, before. split; [exists m, md; auto |]. split; [assumption |].
  unfold notifyAdmins in Hrun. unfold_handler.
  destruct (tx_status t =? "success"); cbn in Hrun; injection Hrun as <- <-; reflexivity.
Qed.


(** What a PayPal capture that answered 200 did. *)
Lemma paypal_capture_200 validate api e (req : Req string) w res w' :
  paypal_capture validate (Some api) e req w = (res, w') ->
  code res = 200 ->
  exists tok c before after,
    getPayPalAccessToken api = Resolved tok
    /\ captureOrder api tok (reqBody req) = Resolved c
    /\ findOne (fun p => bool_decide (paypalOrderId p = Some (reqBody req))) (db w)
       = Some before
    /\ applyCapture c (now e) before = Resolved after
    /\ db w' = persist (preSave (stamp e) after) (db w).
Proof.
  unfold paypal_capture. intros Hrun Hcode.
  destruct (bool_decide (errors req = [])); simpl in Hrun;
    [| unfold_handler; injection Hrun as <- <-; discriminate].
  unfold_handler.
  destruct (getPayPalAccessToken api) as [tok|m] eqn:Htok; cbn in Hrun;
    [| injection Hrun as <- <-; discriminate].
  destruct (captureOrder api tok (reqBody req)) as [c|m] eqn:Hc; cbn in Hrun;
    [| injection Hrun as <- <-; discriminate].
  destruct (findOne _ (db w)) as [before|] eqn:Hfind; cbn in Hrun;
    [| injection Hrun as <- <-; discriminate].
  destruct (applyCapture c (now e) before) as [after|m] eqn:Happ; cbn in Hrun;
    [| injection Hrun as <- <-; discriminate].
  rewrite save_run in Hrun.
  destruct (validate _ _); cbn in Hrun; [| injection Hrun as <- <-; discriminate].
  exists tok, c, before, after. repeat (split; [assumption || reflexivity |]).
  unfold notifyAdmins in Hrun. unfold_handler.
  destruct (isCompleted c); cbn in Hrun; injection Hrun as <- <-; reflexivity.
Qed.

Lemma reports_functional client ref t pid t' pid' :
  reports client ref t pid -> reports client ref t' pid' -> t = t' /\ pid = pid'.
Proof.
  intros (m & md & Hv & Hmd & Hp) (m' & md' & Hv' & Hmd' & Hp').
  rewrite Hv in Hv'. injection Hv' as _ ->. split; congruence.
Qed.

(** ** What the schema lets a verification store *)










(** C1 fails on the code: after a verify that reported success, a second
    verify that reports [failed] for the same reference leaves the record
    failed. *)
Lemma terminal_status_overwritten : ~ terminalStatusKept paymentSchema.
Proof.
  intros H.
  destruct (H (Sample.provider "failed") (Sample.env "p3" 3000) Sample.verifyReq
              Sample.paid (Sample.txn "failed") "p1"
              {| _id := "p1"; user := "u1"; amount := 5000 # 1; currency := "NGN";
                 description := None; paymentMethod := "paystack"; status := "completed";
                 paystackReference := Some "p1"; paystackTransactionId := Some "901";
                 paystackStatus := Some "success"; paypalOrderId := None;
                 paypalCaptureId := None; transactionId := Some "AC1700000000000042";
                 completedAt := Some 2000%Z |})
    as (p' & Hfind & Hst).
  - reflexivity.
  - exists "Verification successful", {| payment_id := Some "p1" |}. repeat split.
  - discriminate.
  - vm_compute. reflexivity.
  - reflexivity.
  - vm_compute in Hfind. injection Hfind as <-. discriminate Hst.
Qed.

(** C1 as amended. The verify handler assigns the status from the report
    whatever the record held: when a verify that reports a status other
    than success for a completed record answers 200, the record is
    failed; the completion time of the earlier success stays. *)
Theorem later_failure_overwrites_completed
        (validate : option Payment -> Payment -> bool) client e (req : Req string)
        w t pid p res w' :
  reports client (reqBody req) t pid ->
  tx_status t <> "success" ->
  findById pid (db w) = Some p ->
  status p = "completed" ->
  paystack_verify validate (Some client) e req w = (res, w') ->
  code res = 200 ->
  exists p', findById pid (db w') = Some p'
             /\ status p' = "failed"
             /\ completedAt p' = completedAt p.
Proof.
  intros Hrep Hns Hfind Hst Hrun Hcode.
  destruct (paystack_verify_200 _ _ _ _ _ _ _ Hrun Hcode)
    as (t0 & pid0 & before & Hrep0 & Hfind0 & Hdb).
  destruct (reports_functional _ _ _ _ _ _ Hrep Hrep0) as [<- <-].
  rewrite Hfind in Hfind0. injection Hfind0 as <-.
  exists (preSave (stamp e) (applyTransaction t (now e) p)). split.
  - rewrite Hdb. rewrite <- (find_id_sound _ _ _ Hfind) at 1.
    rewrite <- (applyTransaction_id t (now e) p).
    rewrite <- (preSave_id (stamp e)). apply findById_persist.
  - rewrite preSave_status, preSave_completedAt.
    apply String.eqb_neq in Hns.
    destruct (applyTransaction_verified t (now e) p) as (_ & Hf & _ & Hc).
    rewrite Hns in Hf, Hc. auto.
Qed.

Lemma later_failure_witness :
  exists p', findById "p1"
               (db (snd (paystack_verify paymentSchema (Some (Sample.provider "failed"))
                           (Sample.env "p3" 3000) Sample.verifyReq Sample.paid)))
             = Some p'
             /\ status p' = "failed"
             /\ completedAt p' = Some 2000%Z.
Proof.
  eapply (later_failure_overwrites_completed paymentSchema (Sample.provider "failed")
            (Sample.env "p3" 3000) Sample.verifyReq Sample.paid (Sample.txn "failed") "p1"
            {| _id := "p1"; user := "u1"; amount := 5000 # 1; currency := "NGN";
               description := None; paymentMethod := "paystack"; status := "completed";
               paystackReference := Some "p1"; paystackTransactionId := Some "901";
               paystackStatus := Some "success"; paypalOrderId := None;
               paypalCaptureId := None; transactionId := Some "AC1700000000000042";
               completedAt := Some 2000%Z |}).
  - exists "Verification successful", {| payment_id := Some "p1" |}. repeat split.
  - discriminate.
  - vm_compute. reflexivity.
  - reflexivity.
  - apply surjective_pairing.
  - vm_compute. reflexivity.
Defined.


(** ** Correlation fields along the handlers *)

Lemma wp_save {D} validate e p (Q : Payment -> World Store -> Prop) R w :
  (validate (findById (_id p) (db w)) p = true ->
   Q (preSave (stamp e) p) (with_db (persist (preSave (stamp e) p)) w)) ->
  R w ->
  wp (D := D) (save validate e p) Q R w.
Proof.
  intros HQ HR. unfold wp. rewrite save_run.
  destruct (validate _ p); auto.
Qed.

Lemma persist_Forall (P : Payment -> Prop) p s :
  Forall P s -> P p -> Forall P (persist p s).
Proof.
  intros Hs Hp. rewrite List.Forall_forall in *. unfold persist.
  destruct (findById (_id p) s); intros x Hx.
  - apply List.in_map_iff in Hx as (q & <- & Hq).
    destruct (_id q =? _id p); auto.
  - apply List.in_app_iff in Hx as [Hx | [<- | []]]; auto.
Qed.

Lemma find_Forall (P : Payment -> Prop) f s p :
  Forall P s -> List.find f s = Some p -> P p.
Proof.
  intros Hs Hf. apply find_some in Hf as [Hin _].
  rewrite List.Forall_forall in Hs. auto.
Qed.

Lemma consistent_preSave st p : correlationConsistent p -> correlationConsistent (preSave st p).
Proof.
  unfold preSave. destruct (transactionId p) as [t|]; [destruct (t =? "")|]; auto.
Qed.

Lemma consistent_applyTransaction t n p :
  correlationConsistent p -> correlationConsistent (applyTransaction t n p).
Proof. unfold applyTransaction. destruct (tx_status t =? "success"); auto. Qed.

Lemma consistent_applyCapture c n p p' :
  applyCapture c n p = Resolved p' -> correlationConsistent p -> correlationConsistent p'.
Proof.
  unfold applyCapture. destruct (firstCaptureId c); [|discriminate].
  destruct (isCompleted c); intros [= <-]; auto.
Qed.

Lemma consistent_new id u c m o :
  (is_Some o -> m = "paypal") -> correlationConsistent (newPayment id u c m o).
Proof.
  intros H. split; simpl; [intros [x Hx]; discriminate | exact H].
Qed.

Lemma consistent_reference r p :
  paymentMethod p = "paystack" -> paypalOrderId p = None ->
  correlationConsistent (set_paystackReference r p).
Proof.
  intros Hm Ho. split; simpl; [auto | rewrite Ho; intros [x Hx]; discriminate].
Qed.

Lemma preSave_method st p : paymentMethod (preSave st p) = paymentMethod p.
Proof. unfold preSave. destruct (transactionId p) as [t|]; [destruct (t =? "")|]; reflexivity. Qed.

Lemma preSave_order st p : paypalOrderId (preSave st p) = paypalOrderId p.
Proof. unfold preSave. destruct (transactionId p) as [t|]; [destruct (t =? "")|]; reflexivity. Qed.

Ltac wp_step := first [ apply wp_save; [intros ? |] | wp_basic ].

(** Runs a handler body symbolically down to its exits. *)
Ltac wp_run := repeat (cbv beta zeta; first [wp_step | wp_case]).

Lemma consistent_persisted st p (s : Store) :
  Forall correlationConsistent s -> correlationConsistent p ->
  Forall correlationConsistent (persist (preSave st p) s).
Proof.
  intros Hs Hp. apply persist_Forall; [exact Hs | now apply consistent_preSave].
Qed.

Lemma consistent_loaded (w : World Store) (o : option ObjectId) p :
  consistentWorld w ->
  o ≫= (fun pid => findById pid (db w)) = Some p -> correlationConsistent p.
Proof.
  intros Hw H. destruct o as [pid|]; [| discriminate].
  eapply find_Forall; [exact Hw | exact H].
Qed.

Lemma paystack_initialize_consistent validate paystack e req w :
  consistentWorld w -> consistentWorld (snd (paystack_initialize validate paystack e req w)).
Proof.
  intros Hw. unfold paystack_initialize. apply wp_try_catch.
  wp_run; try assumption; unfold consistentWorld; simpl.
  - apply consistent_persisted.
    + apply consistent_persisted; [assumption |].
      apply consistent_new. intros [x Hx]; discriminate.
    + apply consistent_reference; [now rewrite preSave_method | now rewrite preSave_order].
  - apply consistent_persisted; [assumption |].
    apply consistent_new. intros [x Hx]; discriminate.
  - apply consistent_persisted; [assumption |].
    apply consistent_new. intros [x Hx]; discriminate.
  - apply consistent_persisted; [assumption |].
    apply consistent_new. intros [x Hx]; discriminate.
Qed.

Lemma paystack_verify_consistent validate paystack e req w :
  consistentWorld w -> consistentWorld (snd (paystack_verify validate paystack e req w)).
Proof.
  intros Hw. unfold paystack_verify. apply wp_try_catch.
  wp_run; try assumption; unfold consistentWorld; simpl;
    (apply consistent_persisted; [assumption |]);
    apply consistent_applyTransaction; eapply consistent_loaded; eassumption.
Qed.

Lemma paypal_create_order_consistent validate paypal e req w :
  consistentWorld w -> consistentWorld (snd (paypal_create_order validate paypal e req w)).
Proof.
  intros Hw. unfold paypal_create_order. apply wp_try_catch.
  wp_run; try assumption; unfold consistentWorld; simpl;
    (apply consistent_persisted; [assumption |]); now apply consistent_new.
Qed.

Lemma paypal_capture_consistent validate paypal e req w :
  consistentWorld w -> consistentWorld (snd (paypal_capture validate paypal e req w)).
Proof.
  intros Hw. unfold paypal_capture. apply wp_try_catch.
  wp_run; try assumption; unfold consistentWorld; simpl;
    (apply consistent_persisted; [assumption |]);
    (eapply consistent_applyCapture; [eassumption |]);
    (eapply find_Forall; [exact Hw | eassumption]).
Qed.

Lemma stripe_intent_consistent validate stripe e req w :
  consistentWorld w ->
  consistentWorld (snd (stripe_create_payment_intent validate stripe e req w)).
Proof.
  intros Hw. unfold stripe_create_payment_intent. apply wp_try_catch.
  wp_run; try assumption; unfold consistentWorld; simpl.
  apply consistent_persisted; [assumption |]. apply consistent_new.
  intros [x Hx]; discriminate.
Qed.

Lemma serve_consistent validate r w :
  consistentWorld w -> consistentWorld (serve validate r w).
Proof.
  destruct r; simpl;
    auto using paystack_initialize_consistent, paystack_verify_consistent,
      paypal_create_order_consistent, paypal_capture_consistent, stripe_intent_consistent.
Qed.

Lemma run_consistent validate rs w :
  consistentWorld w -> consistentWorld (run validate rs w).
Proof.
  revert w. induction rs as [|r rs IH]; simpl; intros w Hw; [assumption |].
  apply IH. now apply serve_consistent.
Qed.

(** C2 fails on the code: the initialise handler saves the pending record
    before it calls the provider, so when the provider cannot be reached a
    Paystack record without a reference stays in the collection. *)
Lemma paystack_record_without_reference : ~ everyRecordExact paymentSchema.
Proof.
  intros H.
  destruct (H [PaystackInitialize (Some Sample.offline) (Sample.env "p1" 1000) Sample.charge]
              {| _id := "p1"; user := "u1"; amount := 5000 # 1; currency := "NGN";
                 description := None; paymentMethod := "paystack"; status := "pending";
                 paystackReference := None; paystackTransactionId := None;
                 paystackStatus := None; paypalOrderId := None; paypalCaptureId := None;
                 transactionId := Some "AC1700000000000042"; completedAt := None |})
    as [[_ Href] _].
  - vm_compute. left. reflexivity.
  - destruct (Href eq_refl) as [x Hx]. discriminate.
Qed.

(** C2 as amended. Every Payment the handlers persist, starting from an
    empty collection and under any schema validation, carries a Paystack
    reference only if its method is [paystack] and a PayPal order id only
    if its method is [paypal]; so at most one of the two is populated and a
    [manual] record has neither. *)
Theorem correlation_fields_agree_with_method
        (validate : option Payment -> Payment -> bool) (rs : list (Request)) :
  Forall (fun p =>
            correlationConsistent p
            /\ ~ (is_Some (paystackReference p) /\ is_Some (paypalOrderId p))
            /\ (paymentMethod p = "manual" ->
                paystackReference p = None /\ paypalOrderId p = None))
         (db (run validate rs emptyWorld)).
Proof.
  eapply List.Forall_impl; [| apply (run_consistent validate rs emptyWorld); constructor].
  intros p [Hps Hpp]. split; [split; assumption |]. split.
  - intros [H1 H2]. rewrite (Hps H1) in Hpp. specialize (Hpp H2). discriminate.
  - intros Hm. split.
    + destruct (paystackReference p) eqn:E; [| reflexivity].
      assert (paymentMethod p = "paystack") by (apply Hps; eauto). congruence.
    + destruct (paypalOrderId p) eqn:E; [| reflexivity].
      assert (paymentMethod p = "paypal") by (apply Hpp; eauto). congruence.
Qed.

End PaymentsSpec.

Module MessagesSpec.
Import Messages.

Ltac wp_run := repeat (cbv beta zeta; first [wp_basic | wp_case]).

(** ** Sorting keeps the messages *)

Lemma in_insertDesc x m l : In x (insertDesc m l) <-> x = m \/ In x l.
Proof.
  induction l as [|y l IH]; simpl.
  - intuition congruence.
  - destruct (createdAt y <? createdAt m)%Z; simpl; [intuition congruence |].
    rewrite IH. intuition congruence.
Qed.

Lemma in_sortDesc x l : In x (sortDesc l) <-> In x l.
Proof.
  induction l as [|y l IH]; simpl; [reflexivity |].
  rewrite in_insertDesc, IH. intuition congruence.
Qed.

Lemma in_submissions m s :
  In m (getAllAdminSubmissions s) <-> In m s /\ adminSubmission m = true.
Proof.
  unfold getAllAdminSubmissions. rewrite in_sortDesc. apply List.filter_In.
Qed.

(** ** What a request keeps *)

Lemma sameMessage_refl m : sameMessage m m.
Proof. repeat split. Qed.

Lemma sameMessage_pushRead m m' r : sameMessage m m' -> sameMessage m (pushRead r m').
Proof. intros H. exact H. Qed.

Lemma kept_app m s t : kept m s -> kept m (s ++ t).
Proof. intros (m' & Hs & Hin). exists m'. split; [assumption | apply List.in_or_app; auto]. Qed.

Lemma kept_markRead m c a n s : kept m s -> kept m (markAsReadByAdmin c a n s).
Proof.
  intros (m' & Hs & Hin). unfold markAsReadByAdmin.
  exists (if (conversation m' =? c) && negb (hasReadBy a m')
          then pushRead {| rr_user := a; readAt := n |} m' else m').
  split.
  - destruct (_ && _); [now apply sameMessage_pushRead | assumption].
  - apply List.in_map_iff. exists m'. split; [reflexivity | assumption].
Qed.

Lemma serve_kept validate m r w : kept m (db w) -> kept m (db (serve validate r w)).
Proof.
  intros Hk. destruct r as [e req | e req | e user c]; cbn [serve].
  - unfold send. apply (wp_try_catch _ _ (fun w => kept m (db w))).
    unfold save, sendAutoReply. wp_run; simpl; repeat apply kept_app; assumption.
  - unfold broadcast. apply (wp_try_catch _ _ (fun w => kept m (db w))).
    unfold requireAdmin, save. wp_run; simpl; repeat apply kept_app; assumption.
  - unfold mark_read. apply (wp_try_catch _ _ (fun w => kept m (db w))).
    wp_run; simpl. now apply kept_markRead.
Qed.

Lemma run_kept validate m rs w : kept m (db w) -> kept m (db (run validate rs w)).
Proof.
  revert w. induction rs as [|r rs IH]; simpl; intros w Hk; [assumption |].
  apply IH. now apply serve_kept.
Qed.

Lemma sameMessage_submission m m' :
  sameMessage m m' -> adminSubmission m' = adminSubmission m.
Proof.
  intros (_ & _ & _ & _ & _ & Hst & Hrt & _ & Hv & _).
  unfold adminSubmission. now rewrite Hst, Hrt, Hv.
Qed.

Ltac case_all :=
  repeat match goal with
         | |- context [if ?b then _ else _] => destruct b eqn:?; simpl
         | |- context [match ?x with Some _ => _ | None => _ end] => destruct x eqn:?; simpl
         end.

(** What a send by a non-admin that answered 201 stored. *)
Lemma send_user_201 validate e (req : Req SendBody) w :
  isAdmin (caller req) = false ->
  code (fst (send validate e req w)) = 201 ->
  exists tail, db (snd (send validate e req w)) = (db w ++ userMessage e req :: tail)%list.
Proof.
  intros Hadm. unfold send, userMessage, save, sendAutoReply. rewrite Hadm. simpl.
  unfold_handler. simpl.
  case_all; intros Hcode; try discriminate Hcode.
  - exists []. reflexivity.
  - exists [ {| _id := replyId e; sender := None; recipient := Some (uid (caller req));
                conversation := uid (caller req);
                text := "Thanks for your message! An admin will review it shortly and get back to you.";
                senderType := "admin"; recipientType := "user"; isRead := [];
                isAutoReply := true; isVisibleToAllAdmins := false;
                createdAt := now e |} ].
    rewrite <- List.app_assoc. reflexivity.
  - exists []. reflexivity.
Qed.

(** The relay takes no part in what is stored or answered. *)
Lemma send_relay_independent validate e (req : Req SendBody) w sessions :
  fst (send validate (connected sessions e) req w) = fst (send validate e req w)
  /\ db (snd (send validate (connected sessions e) req w))
     = db (snd (send validate e req w)).
Proof.
  unfold send, save, sendAutoReply, connected. simpl. unfold_handler. simpl.
  case_all; split; reflexivity.
Qed.


(** C7. A message that a non-admin caller sends through POST /messages
    (the handler answers 201) is stored as a submission to all admins: it
    is in the result of [getAllAdminSubmissions], which is what GET
    /messages answers to every admin; what is stored does not depend on
    the sessions connected to the relay; and it stays in that result after
    any further requests. *)
Theorem user_message_visible_to_every_admin
        (validate : Message -> bool) (e : Env) (req : Req SendBody) (w : World Store) :
  isAdmin (caller req) = false ->
  code (fst (send validate e req w)) = 201 ->
  let w' := snd (send validate e req w) in
  In (userMessage e req) (getAllAdminSubmissions (db w'))
  /\ (forall admin, isAdmin admin = true ->
        exists ms, fst (list_messages admin None w') = json 200 (Success ms)
                   /\ In (userMessage e req) ms)
  /\ (forall sessions,
        code (fst (send validate (connected sessions e) req w)) = 201
        /\ db (snd (send validate (connected sessions e) req w)) = db w')
  /\ (forall rs, exists m',
          sameMessage (userMessage e req) m'
          /\ In m' (getAllAdminSubmissions (db (run validate rs w')))).
Proof.
  intros Hadm Hcode w'.
  destruct (send_user_201 validate e req w Hadm Hcode) as [tail Hdb].
  assert (Hin : In (userMessage e req) (db w')).
  { unfold w'. rewrite Hdb. apply List.in_or_app. right. left. reflexivity. }
  assert (Hsub : In (userMessage e req) (getAllAdminSubmissions (db w'))).
  { apply in_submissions. split; [exact Hin | reflexivity]. }
  split; [exact Hsub |]. split; [| split].
  - intros admin Ha. exists (getAllAdminSubmissions (db w')). split; [| exact Hsub].
    unfold list_messages. rewrite Ha. reflexivity.
  - intros sessions.
    destruct (send_relay_independent validate e req w sessions) as [Hres Hdb'].
    rewrite Hres. split; [exact Hcode | exact Hdb'].
  - intros rs.
    destruct (run_kept validate (userMessage e req) rs w') as (m' & Hs & Hm').
    { exists (userMessage e req). split; [apply sameMessage_refl | exact Hin]. }
    exists m'. split; [exact Hs |]. apply in_submissions. split; [exact Hm' |].
    rewrite (sameMessage_submission _ _ Hs). reflexivity.
Qed.

Lemma user_message_visible_witness :
  In (userMessage (Sample.env "m1" 10) (Sample.hello "Hi"))
     (getAllAdminSubmissions
        (db (snd (send messageSchema (Sample.env "m1" 10) (Sample.hello "Hi") emptyWorld)))).
Proof.
  apply (user_message_visible_to_every_admin messageSchema (Sample.env "m1" 10)
           (Sample.hello "Hi") emptyWorld).
  - reflexivity.
  - vm_compute. reflexivity.
Defined.

(** ** Auto-replies *)

Lemma find_none_filter (f : Message -> bool) s : List.find f s = None -> List.filter f s = [].
Proof.
  induction s as [|m s IH]; simpl; [reflexivity |].
  destruct (f m); [discriminate | exact IH].
Qed.

Lemma one_reply_plain s m :
  atMostOneAutoReply s -> isAutoReply m = false -> atMostOneAutoReply (s ++ [m]).
Proof.
  intros Hs Hm c. rewrite List.filter_app. simpl.
  unfold autoReplyOf at 2. rewrite Hm, andb_false_r, List.app_nil_r. apply Hs.
Qed.

Lemma one_reply_first s m :
  atMostOneAutoReply s -> List.find (autoReplyOf (conversation m)) s = None ->
  atMostOneAutoReply (s ++ [m]).
Proof.
  intros Hs Hnone c. rewrite List.filter_app. simpl.
  unfold autoReplyOf at 2. destruct (conversation m =? c) eqn:Hc; simpl.
  - apply String.eqb_eq in Hc. subst c.
    rewrite (find_none_filter _ _ Hnone). destruct (isAutoReply m); simpl; lia.
  - rewrite List.app_nil_r. apply Hs.
Qed.

Lemma one_reply_markRead c a n s :
  atMostOneAutoReply s -> atMostOneAutoReply (markAsReadByAdmin c a n s).
Proof.
  intros Hs c'. specialize (Hs c'). unfold markAsReadByAdmin.
  assert (Heq : forall l,
             length (List.filter (autoReplyOf c')
                       (map (fun m => if (conversation m =? c) && negb (hasReadBy a m)
                                      then pushRead {| rr_user := a; readAt := n |} m
                                      else m) l))
             = length (List.filter (autoReplyOf c') l)).
  { induction l as [|m l IH]; simpl; [reflexivity |].
    assert (Hm : autoReplyOf c'
                   (if (conversation m =? c) && negb (hasReadBy a m)
                    then pushRead {| rr_user := a; readAt := n |} m else m)
                 = autoReplyOf c' m) by (destruct (_ && _); reflexivity).
    rewrite Hm. destruct (autoReplyOf c' m); simpl; congruence. }
  rewrite Heq. exact Hs.
Qed.

Lemma serve_one_reply validate r w :
  atMostOneAutoReply (db w) -> atMostOneAutoReply (db (serve validate r w)).
Proof.
  intros Hw. destruct r as [e req | e req | e user c]; cbn [serve].
  - unfold send. apply (wp_try_catch _ _ (fun w => atMostOneAutoReply (db w))).
    unfold save, sendAutoReply. wp_run; simpl in *; try assumption;
      try (apply one_reply_first; [| assumption]);
      apply one_reply_plain; auto.
  - unfold broadcast. apply (wp_try_catch _ _ (fun w => atMostOneAutoReply (db w))).
    unfold requireAdmin, save. wp_run; simpl; try assumption; apply one_reply_plain; auto.
  - unfold mark_read. apply (wp_try_catch _ _ (fun w => atMostOneAutoReply (db w))).
    wp_run; simpl. now apply one_reply_markRead.
Qed.

Lemma run_one_reply validate rs w :
  atMostOneAutoReply (db w) -> atMostOneAutoReply (db (run validate rs w)).
Proof.
  revert w. induction rs as [|r rs IH]; simpl; intros w Hw; [assumption |].
  apply IH. now apply serve_one_reply.
Qed.

(** C10. Every conversation holds at most one auto-reply: the property
    holds of the empty collection and every request keeps it, because
    [sendAutoReply] looks for an auto-reply of the conversation first and,
    when it finds one, returns null and leaves the collection as it is. *)
Theorem at_most_one_auto_reply (validate : Message -> bool) :
  (forall rs, atMostOneAutoReply (db (run validate rs emptyWorld)))
  /\ (forall rs w, atMostOneAutoReply (db w) ->
                  atMostOneAutoReply (db (run validate rs w)))
  /\ (forall e userId (w : World Store) existing,
        List.find (autoReplyOf userId) (db w) = Some existing ->
        sendAutoReply (D := Sent) validate e userId w = (Next None, w)).
Proof.
  split; [| split].
  - intros rs. apply run_one_reply. intros c. simpl. lia.
  - intros rs w. apply run_one_reply.
  - intros e userId w existing Hfind. unfold sendAutoReply. unfold_handler.
    rewrite Hfind. reflexivity.
Qed.

Lemma at_most_one_auto_reply_witness :
  atMostOneAutoReply
    (db (run Sample.lenient [Send (Sample.env "m1" 10) (Sample.hello "Hi");
                             Send (Sample.env "m2" 20) (Sample.hello "Anyone?");
                             Send (Sample.env "m3" 30) (Sample.hello "Hello?")]
             emptyWorld))
  /\ sendAutoReply (D := Sent) Sample.lenient (Sample.env "m2" 20) "u1" Sample.greeted
     = (Next None, Sample.greeted).
Proof.
  destruct (at_most_one_auto_reply Sample.lenient) as (_ & Hkeep & Hnull).
  split.
  - apply Hkeep. intros c. simpl. lia.
  - eapply Hnull. vm_compute. reflexivity.
Defined.

Example second_send_gets_no_reply :
  map _id (db (run Sample.lenient [Send (Sample.env "m2" 20) (Sample.hello "Anyone?")]
                   Sample.greeted))
  = ["m1"; "m1-reply"; "m2"].
Proof. vm_compute. reflexivity. Qed.

(** Under the validators of the schema itself the auto-reply, made with a
    null [sender], is rejected by [save()] and none is stored. *)
Example schema_rejects_auto_reply :
  map _id (db (run messageSchema [Send (Sample.env "m1" 10) (Sample.hello "Hi")] emptyWorld))
  = ["m1"].
Proof. vm_compute. reflexivity. Qed.

End MessagesSpec.

Module VehiclesSpec.
Import Vehicles.

Lemma addMaintenanceRecord_mileage r n v :
  mileage (addMaintenanceRecord r n v)
  = if truthyZ (i_mileageAtService r) && (mileage v <? default 0%Z (i_mileageAtService r))%Z
    then default 0%Z (i_mileageAtService r) else mileage v.
Proof.
  unfold addMaintenanceRecord. simpl.
  destruct (truthyZ _ && _); reflexivity.
Qed.

(** C9. The mileage of a Vehicle never goes down under the mutation
    methods of the model: [updateMileage n] leaves the maximum of the old
    mileage and [n]; [addMaintenanceRecord] leaves the mileage as it was or
    raises it to [mileageAtService], and raises it only when that value is
    above the current mileage. *)
Theorem mileage_never_decreases (v : Vehicle) :
  (forall n, mileage (fst (updateMileage n v)) = Z.max (mileage v) n)
  /\ (forall r now,
        (mileage v <= mileage (addMaintenanceRecord r now v))%Z
        /\ (mileage (addMaintenanceRecord r now v) = mileage v
            \/ (i_mileageAtService r = Some (mileage (addMaintenanceRecord r now v))
                /\ (mileage v < mileage (addMaintenanceRecord r now v))%Z))).
Proof.
  split.
  - intros n. unfold updateMileage.
    destruct (mileage v <? n)%Z eqn:H; simpl.
    + apply Z.ltb_lt in H. lia.
    + apply Z.ltb_ge in H. lia.
  - intros r now. rewrite addMaintenanceRecord_mileage.
    destruct (i_mileageAtService r) as [n|]; simpl.
    + destruct (negb (n =? 0)%Z && (mileage v <? n)%Z) eqn:H.
      * apply andb_true_iff in H as [_ H]. apply Z.ltb_lt in H.
        split; [lia | right; split; [reflexivity | lia]].
      * split; [lia | left; reflexivity].
    + split; [lia | left; reflexivity].
Qed.

Example maintenance_raises_mileage :
  mileage (addMaintenanceRecord
             {| i_serviceType := "oil_change"; i_description := None; i_cost := None;
                i_mileageAtService := Some 45000%Z; i_serviceDate := None |}
             100 (Sample.camry true)) = 45000%Z.
Proof. reflexivity. Qed.

Example stale_reading_keeps_mileage :
  mileage (fst (updateMileage 30000 (Sample.camry true))) = 42000%Z.
Proof. reflexivity. Qed.

End VehiclesSpec.

Module ServicesSpec.
Import Services.

Lemma applyStatus_status e who b s : status (applyStatus e who b s) = b_status b.
Proof.
  unfold applyStatus. destruct (truthy (b_notes b)), (b_status b =? "completed"); reflexivity.
Qed.

Lemma applyStatus_completedAt e who b s :
  completedAt (applyStatus e who b s)
  = if b_status b =? "completed" then Some (now e) else completedAt s.
Proof.
  unfold applyStatus. destruct (truthy (b_notes b)), (b_status b =? "completed"); reflexivity.
Qed.

(** What the status handler stores for an admin with a valid body. *)
Lemma update_status_stores validate id e (req : Req StatusBody) w before :
  isAdmin (caller req) = true ->
  errors req = [] ->
  db w !! id = Some before ->
  validate (applyStatus e (caller req) (reqBody req) before) = true ->
  db (snd (update_status validate id e req w)) !! id
  = Some (applyStatus e (caller req) (reqBody req) before)
  /\ (code (fst (update_status validate id e req w)) = 200 ->
      body (fst (update_status validate id e req w))
      = Success (applyStatus e (caller req) (reqBody req) before)).
Proof.
  intros Hadm Herr Hfind Hval. unfold update_status, save.
  rewrite Hadm, Herr. simpl. unfold_handler. simpl. rewrite Hfind, Hval.
  destruct (truthy (b_notes (reqBody req))); simpl.
  - destruct (secondSave e) as [[]|m]; simpl.
    + split; [now rewrite lookup_insert_eq | reflexivity].
    + split; [now rewrite lookup_insert_eq | discriminate].
  - split; [now rewrite lookup_insert_eq | reflexivity].
Qed.

(** C8. The admin status update stamps [completedAt] when and only when
    the new status is [completed]: the stored Service has the new status,
    its completion time is the time of the request if that status is
    [completed], and is what it was for every other status. *)
Theorem completion_stamped_only_on_completed
        (validate : Service -> bool) id e (req : Req StatusBody) w before :
  isAdmin (caller req) = true ->
  errors req = [] ->
  db w !! id = Some before ->
  validate (applyStatus e (caller req) (reqBody req) before) = true ->
  exists after,
    db (snd (update_status validate id e req w)) !! id = Some after
    /\ status after = b_status (reqBody req)
    /\ (b_status (reqBody req) = "completed" -> completedAt after = Some (now e))
    /\ (b_status (reqBody req) <> "completed" -> completedAt after = completedAt before)
    /\ (code (fst (update_status validate id e req w)) = 200 ->
        body (fst (update_status validate id e req w)) = Success after).
Proof.
  intros Hadm Herr Hfind Hval.
  destruct (update_status_stores validate id e req w before Hadm Herr Hfind Hval)
    as [Hdb Hbody].
  exists (applyStatus e (caller req) (reqBody req) before).
  split; [exact Hdb |]. split; [apply applyStatus_status |].
  rewrite applyStatus_completedAt. repeat split.
  - intros ->. reflexivity.
  - intros Hne. apply String.eqb_neq in Hne. now rewrite Hne.
  - exact Hbody.
Qed.

Lemma completion_stamped_witness :
  exists after,
    db (snd (update_status serviceSchema "s1" (Sample.env 900)
               (Sample.setStatus "completed") Sample.booked)) !! "s1" = Some after
    /\ status after = "completed"
    /\ completedAt after = Some 900%Z.
Proof.
  destruct (completion_stamped_only_on_completed serviceSchema "s1" (Sample.env 900)
              (Sample.setStatus "completed") Sample.booked Sample.oilChange)
    as (after & Hdb & Hst & Hdone & _).
  - reflexivity.
  - reflexivity.
  - reflexivity.
  - vm_compute. reflexivity.
  - exists after. split; [exact Hdb |]. split; [exact Hst |]. apply Hdone. reflexivity.
Defined.

Example approval_leaves_completion_unset :
  db (snd (update_status serviceSchema "s1" (Sample.env 900)
             (Sample.setStatus "approved") Sample.booked)) !! "s1"
  = Some (set_status "approved" Sample.oilChange).
Proof. vm_compute. reflexivity. Qed.

End ServicesSpec.

Module LocationsSpec.
Import Locations.

Ltac wp_run := repeat (cbv beta zeta; first [wp_basic | wp_case]).

Lemma clear_lookup id l (s : Store) j :
  clearOtherPrimaries id l s !! j
  = (fun o => if (user o =? user l) && (type o =? type l) && negb (j =? id) && isPrimary o
              then set_isPrimary false o else o) <$> s !! j.
Proof.
  unfold clearOtherPrimaries. rewrite map_lookup_imap.
  destruct (s !! j); reflexivity.
Qed.

(** A primary entry after the hook was a primary entry before it, of the
    same user and type. *)
Lemma preSave_primary_from stored id l (s : Store) k o' :
  preSave stored id l s !! k = Some o' -> isPrimary o' = true ->
  exists o, s !! k = Some o /\ isPrimary o = true
            /\ user o = user o' /\ type o = type o'.
Proof.
  unfold preSave. destruct (isPrimary l && isModified_isPrimary stored l).
  - rewrite clear_lookup. destruct (s !! k) as [o|]; simpl; [| discriminate].
    intros [= <-]. destruct (_ && isPrimary o) eqn:E; simpl.
    + discriminate.
    + intros Hp. exists o. auto.
  - intros Hk Hp. exists o'. auto.
Qed.

(** When the hook runs, no other entry of the same user and type is
    primary after it. *)
Lemma cleared_others id l (s : Store) k o' :
  k <> id -> clearOtherPrimaries id l s !! k = Some o' ->
  user o' = user l -> type o' = type l -> isPrimary o' = false.
Proof.
  intros Hk. rewrite clear_lookup. destruct (s !! k) as [o|]; simpl; [| discriminate].
  intros [= <-] Hu Ht.
  destruct (isPrimary o) eqn:Hp; rewrite ?andb_false_r in *; [| exact Hp].
  destruct ((user o =? user l) && (type o =? type l) && negb (k =? id)) eqn:E; simpl.
  - reflexivity.
  - simpl in Hu, Ht. rewrite Hu, Ht, !String.eqb_refl in E. simpl in E.
    apply negb_false_iff, String.eqb_eq in E. contradiction.
Qed.

(** A save keeps the invariant when the document is not primary, or its
    flag was just set (the hook runs), or the stored document was already
    primary for the same user and type. *)
Lemma save_keeps_one_primary (s : Store) stored id l :
  onePrimaryPerType s ->
  (isPrimary l = true ->
   isModified_isPrimary stored l = true
   \/ exists old, s !! id = Some old /\ isPrimary old = true
                  /\ user old = user l /\ type old = type l) ->
  onePrimaryPerType (<[id := l]> (preSave stored id l s)).
Proof.
  intros Hinv Hcond.
  assert (Hother : forall k o', k <> id -> preSave stored id l s !! k = Some o' ->
                                isPrimary o' = true -> isPrimary l = true ->
                                user o' = user l -> type o' = type l -> False).
  { intros k o' Hk Hlk Hp Hl Hu Ht.
    destruct (Hcond Hl) as [Hmod | (old & Hold & Hpo & Huo & Hto)].
    - unfold preSave in Hlk. rewrite Hl, Hmod in Hlk. simpl in Hlk.
      rewrite (cleared_others _ _ _ _ _ Hk Hlk Hu Ht) in Hp. discriminate.
    - destruct (preSave_primary_from _ _ _ _ _ _ Hlk Hp) as (o & Ho & Hpo' & Huo' & Hto').
      apply Hk. apply (Hinv k id o old); congruence. }
  intros i j a b Hi Hj Ha Hb Hu Ht.
  destruct (decide (i = j)) as [|Hij]; [assumption | exfalso].
  apply lookup_insert_Some in Hi as [[<- <-] | [Hi' Hi]];
    apply lookup_insert_Some in Hj as [[<- <-] | [Hj' Hj]].
  - contradiction.
  - apply (Hother j b); auto.
  - apply (Hother i a); auto.
  - destruct (preSave_primary_from _ _ _ _ _ _ Hi Ha) as (oa & Hoa & Hpa & Hua & Hta).
    destruct (preSave_primary_from _ _ _ _ _ _ Hj Hb) as (ob & Hob & Hpb & Hub & Htb).
    apply Hij. apply (Hinv i j oa ob); congruence.
Qed.

(** POST /locations keeps the invariant. *)
Lemma share_keeps_one_primary validate e req w :
  onePrimaryPerType (db w) -> onePrimaryPerType (db (snd (share validate e req w))).
Proof.
  intros Hw. unfold share. apply (wp_try_catch _ _ (fun w => onePrimaryPerType (db w))).
  unfold save. wp_run; simpl; try assumption;
    apply save_keeps_one_primary; auto.
Qed.

(** DELETE /locations/:id keeps the invariant. *)
Lemma remove_keeps_one_primary validate id req w :
  onePrimaryPerType (db w) -> onePrimaryPerType (db (snd (remove validate id req w))).
Proof.
  intros Hw. unfold remove. apply (wp_try_catch _ _ (fun w => onePrimaryPerType (db w))).
  unfold save. wp_run; simpl; try assumption.
  apply save_keeps_one_primary; auto. simpl. intros Hp. right. eauto.
Qed.

(** PUT /locations/:id keeps the invariant when the body changes neither
    the type nor the user of the location. *)
Lemma update_keeps_one_primary validate id (req : Req Update) w :
  u_type (reqBody req) = None -> u_user (reqBody req) = None ->
  onePrimaryPerType (db w) -> onePrimaryPerType (db (snd (update validate id req w))).
Proof.
  intros Hty Hus Hw. unfold update. apply (wp_try_catch _ _ (fun w => onePrimaryPerType (db w))).
  unfold save. wp_run; simpl; try assumption.
  apply save_keeps_one_primary; auto. intros Hp.
  match goal with H : db w !! id = Some ?l |- _ => rename H into Hl; rename l into old end.
  unfold isModified_isPrimary. simpl in *.
  destruct (isPrimary old) eqn:Ho.
  - right. exists old. rewrite Hty, Hus. simpl. auto.
  - left. rewrite Hp. reflexivity.
Qed.

Lemma places_one_primary : onePrimaryPerType (db Sample.places).
Proof.
  intros i j a b Hi Hj _ _ _ Ht. simpl in Hi, Hj.
  apply lookup_insert_Some in Hi as [[<- <-] | [_ Hi]];
    apply lookup_insert_Some in Hj as [[<- <-] | [_ Hj]]; try reflexivity.
  - apply lookup_insert_Some in Hj as [[<- <-] | [_ Hj]]; [discriminate Ht |].
    rewrite lookup_empty in Hj. discriminate.
  - apply lookup_insert_Some in Hi as [[<- <-] | [_ Hi]]; [discriminate Ht |].
    rewrite lookup_empty in Hi. discriminate.
  - apply lookup_insert_Some in Hi as [[<- <-] | [_ Hi]];
      [| rewrite lookup_empty in Hi; discriminate].
    apply lookup_insert_Some in Hj as [[<- <-] | [_ Hj]];
      [reflexivity | rewrite lookup_empty in Hj; discriminate].
Qed.

(** C6 on the code. John has a primary home and a primary work place; he
    changes the type of the work place to [home] (PUT with the body
    [{type: 'home'}]).  [isPrimary] was not modified, the hook does not
    run, and the handler answers 200 with two primary home locations of
    the same user in the collection. *)
Theorem type_change_leaves_two_primaries :
  let run := update locationSchema "L2" (Sample.put Sample.john (Sample.retype "home"))
                    Sample.places in
  onePrimaryPerType (db Sample.places)
  /\ code (fst run) = 200
  /\ db (snd run) !! "L1" = Some (Sample.place "home" true)
  /\ db (snd run) !! "L2" = Some (Sample.place "home" true)
  /\ ~ onePrimaryPerType (db (snd run)).
Proof.
  intros run.
  assert (H1 : db (snd run) !! "L1" = Some (Sample.place "home" true))
    by (vm_compute; reflexivity).
  assert (H2 : db (snd run) !! "L2" = Some (Sample.place "home" true))
    by (vm_compute; reflexivity).
  split; [apply places_one_primary |]. split; [vm_compute; reflexivity |].
  split; [exact H1 |]. split; [exact H2 |].
  intros Hinv.
  specialize (Hinv "L1" "L2" _ _ H1 H2 eq_refl eq_refl eq_refl eq_refl).
  discriminate.
Qed.

End LocationsSpec.

Module AccessSpec.
Import Access.







Example invalid_body_is_rejected_first :
  code (fst (Locations.update Locations.locationSchema "L1"
               {| Locations.caller := Locations.Sample.mary;
                  Locations.errors := [{| fe_path := "latitude"; fe_msg := "Invalid latitude" |}];
                  Locations.reqBody := Locations.Sample.noChange |}
               Locations.Sample.places)) = 400.
Proof. reflexivity. Qed.

(** After John's vehicle was handed, by a PUT with an [owner] key, to an
    id that names no user, Mary's GET ends in the catch block. *)
Example dangling_owner_is_a_server_error :
  fst (Vehicles.get_vehicle twoUsers "v1" Vehicles.Sample.mary
         (snd (Vehicles.update (Vehicles.vehicleSchema 2026) "v1"
                 {| Vehicles.caller := Vehicles.Sample.john; Vehicles.errors := [];
                    Vehicles.reqBody :=
                      {| Vehicles.u_make := None; Vehicles.u_model := None;
                         Vehicles.u_year := None; Vehicles.u_licensePlate := None;
                         Vehicles.u_color := None; Vehicles.u_mileage := None;
                         Vehicles.u_owner := Some "nobody";
                         Vehicles.u_isActive := None |} |}
                 (Vehicles.Sample.garage true))))
  = json 500 (Failure "Server error").
Proof. vm_compute. reflexivity. Qed.



End AccessSpec.

(** * Further properties of the payment code *)

Module RefundsSpec.
Import Payments Refunds.

Ltac wp_step := first [ apply PaymentsSpec.wp_save; [intros ? |] | wp_basic ].
Ltac wp_run := repeat (cbv beta zeta; first [wp_step | wp_case]).



(** ** Requests that are turned away *)

Lemma not_nil_decide (l : list FieldError) : l <> [] -> bool_decide (l = []) = false.
Proof. intros H. now apply bool_decide_eq_false. Qed.

(** X2. A request with validation errors answers 400 with the error list,
    whatever the provider; a request without errors made while the
    provider is not configured answers 503; in both cases no provider is
    called and the world is left as it was. *)
Theorem rejected_payment_requests_write_nothing
        (validate : option Payment -> Payment -> bool) (e : Env) (w : World Store) :
  (forall paystack paypal stripe (c : Req Charge) (r : Req string),
      errors c <> [] -> errors r <> [] ->
      paystack_initialize validate paystack e c w = (json 400 (Errors (errors c)), w)
      /\ paystack_verify validate paystack e r w = (json 400 (Errors (errors r)), w)
      /\ paypal_create_order validate paypal e c w = (json 400 (Errors (errors c)), w)
      /\ paypal_capture validate paypal e r w = (json 400 (Errors (errors r)), w)
      /\ stripe_create_payment_intent validate stripe e c w
         = (json 400 (Errors (errors c)), w))
  /\ (forall (c : Req Charge) (r : Req string),
        errors c = [] -> errors r = [] ->
        (exists m, paystack_initialize validate None e c w = (json 503 (Failure m), w))
        /\ (exists m, paystack_verify validate None e r w = (json 503 (Failure m), w))
        /\ (exists m, paypal_create_order validate None e c w = (json 503 (Failure m), w))
        /\ (exists m, paypal_capture validate None e r w = (json 503 (Failure m), w))).
Proof.
  split.
  - intros paystack paypal stripe c r Hc Hr.
    apply not_nil_decide in Hc, Hr.
    unfold paystack_initialize, paystack_verify, paypal_create_order, paypal_capture,
      stripe_create_payment_intent.
    rewrite Hc, Hr. repeat split.
  - intros c r Hc Hr.
    unfold paystack_initialize, paystack_verify, paypal_create_order, paypal_capture.
    rewrite Hc, Hr. simpl. repeat split; eexists; reflexivity.
Qed.

Lemma rejected_payment_requests_witness :
  paystack_verify paymentSchema (Some (Sample.provider "success")) (Sample.env "p2" 2000)
    {| caller := Sample.john;
       errors := [{| fe_path := "reference"; fe_msg := "Payment reference is required" |}];
       reqBody := "" |} Sample.paid
  = (json 400 (Errors [{| fe_path := "reference";
                          fe_msg := "Payment reference is required" |}]), Sample.paid)
  /\ exists m, paypal_capture paymentSchema None (Sample.env "p2" 2000) Sample.captureReq
                 Sample.paid = (json 503 (Failure m), Sample.paid).
Proof.
  destruct (rejected_payment_requests_write_nothing paymentSchema (Sample.env "p2" 2000)
              Sample.paid) as [Hbad Hoff].
  split.
  - destruct (Hbad (Some (Sample.provider "success")) None
                {| createIntent := fun _ _ => Rejected "unused" |}
                {| caller := Sample.john;
                   errors := [{| fe_path := "amount"; fe_msg := "Amount must be a number" |}];
                   reqBody := reqBody Sample.charge |}
                {| caller := Sample.john;
                   errors := [{| fe_path := "reference";
                                 fe_msg := "Payment reference is required" |}];
                   reqBody := "" |}) as (_ & Hv & _); [discriminate | discriminate |].
    exact Hv.
  - destruct (Hoff Sample.charge Sample.captureReq eq_refl eq_refl) as (_ & _ & _ & Hc).
    exact Hc.
Defined.

(** ** What a verification leaves alone *)

Lemma sameParty_refl p : sameParty p p.
Proof. repeat split. Qed.

Lemma preSave_cases st p :
  preSave st p = p \/ preSave st p = set_transactionId (Some ("AC" +:+ st)) p.
Proof.
  unfold preSave. destruct (transactionId p) as [t|]; [destruct (t =? "")|]; auto.
Qed.

Lemma sameParty_preSave st p q : sameParty p q -> sameParty p (preSave st q).
Proof. destruct (preSave_cases st q) as [-> | ->]; auto. Qed.

Lemma sameParty_applyTransaction t n p : sameParty p (applyTransaction t n p).
Proof.
  unfold applyTransaction. destruct (tx_status t =? "success"); repeat split.
Qed.

Lemma sameParty_applyCapture c n p p' : applyCapture c n p = Resolved p' -> sameParty p p'.
Proof.
  unfold applyCapture. destruct (firstCaptureId c); [| discriminate].
  destruct (isCompleted c); intros [= <-]; repeat split.
Qed.

Lemma unique_id_found (s : Store) id b q :
  NoDup (map _id s) -> findById id s = Some b -> In q s -> _id q = id -> q = b.
Proof.
  unfold findById. induction s as [|x s IH]; simpl; [contradiction |].
  intros Hnd Hfind Hin Hid. apply NoDup_cons in Hnd as [Hx Hnd].
  destruct (_id x =? id) eqn:E.
  - injection Hfind as <-. destruct Hin as [-> | Hin]; [reflexivity |].
    exfalso. apply Hx. apply String.eqb_eq in E. rewrite E, <- Hid.
    apply list_elem_of_In. now apply List.in_map.
  - destruct Hin as [-> | Hin]; [| now apply IH].
    apply String.eqb_neq in E. contradiction.
Qed.

Lemma replace_same_party (s : Store) p :
  (forall q, In q s -> (_id q =? _id p) = true -> sameParty q p) ->
  Forall2 sameParty s (map (fun q => if _id q =? _id p then p else q) s).
Proof.
  induction s as [|x s IH]; simpl; intros H; constructor.
  - destruct (_id x =? _id p) eqn:E; [apply H; auto | apply sameParty_refl].
  - apply IH. intros q Hq. apply H. now right.
Qed.

Lemma persist_same_party (s : Store) b p :
  NoDup (map _id s) -> findById (_id p) s = Some b -> sameParty b p ->
  Forall2 sameParty s (persist p s).
Proof.
  intros Hnd Hfind Hbp. unfold persist. rewrite Hfind.
  apply replace_same_party. intros q Hq Hid. apply String.eqb_eq in Hid.
  now rewrite (unique_id_found s (_id p) b q Hnd Hfind Hq Hid).
Qed.

Lemma same_party_all (s : Store) : Forall2 sameParty s s.
Proof. induction s; constructor; auto using sameParty_refl. Qed.

Lemma loaded_is_found (w : World Store) (o : option ObjectId) b :
  o ≫= (fun pid => findById pid (db w)) = Some b -> findById (_id b) (db w) = Some b.
Proof.
  destruct o as [pid|]; simpl; [| discriminate].
  intros H. now rewrite (PaymentsSpec.find_id_sound _ _ _ H).
Qed.

Lemma found_by_field (s : Store) f b :
  NoDup (map _id s) -> findOne f s = Some b -> findById (_id b) s = Some b.
Proof.
  intros Hnd H. unfold findOne in H. apply find_some in H as [Hin _].
  destruct (findById (_id b) s) as [b'|] eqn:E.
  - f_equal. symmetry. exact (unique_id_found s (_id b) b' b Hnd E Hin eq_refl).
  - exfalso. unfold findById in E. apply (find_none _ _ E) in Hin.
    now rewrite String.eqb_refl in Hin.
Qed.

(** X3. Verification and capture never add or remove a payment and never
    change who paid, the amount, the currency, the method or the provider
    correlation ids of any payment, whatever the provider reports. *)
Theorem verification_keeps_the_books
        (validate : option Payment -> Payment -> bool) (e : Env) (req : Req string)
        (w : World Store) :
  NoDup (map _id (db w)) ->
  (forall paystack,
      Forall2 sameParty (db w) (db (snd (paystack_verify validate paystack e req w))))
  /\ (forall paypal,
        Forall2 sameParty (db w) (db (snd (paypal_capture validate paypal e req w)))).
Proof.
  intros Hnd. split.
  - intros paystack. unfold paystack_verify.
    apply (wp_try_catch _ _ (fun w' => Forall2 sameParty (db w) (db w'))).
    wp_run; simpl; try apply same_party_all.
    all: eapply persist_same_party;
      [ exact Hnd
      | rewrite PaymentsSpec.preSave_id, PaymentsSpec.applyTransaction_id;
        eapply loaded_is_found; eassumption
      | apply sameParty_preSave, sameParty_applyTransaction ].
  - intros paypal. unfold paypal_capture.
    apply (wp_try_catch _ _ (fun w' => Forall2 sameParty (db w) (db w'))).
    wp_run; simpl; try apply same_party_all.
    all: match goal with
         | Ha : applyCapture _ _ ?x = Resolved _ |- _ =>
             apply persist_same_party with (b := x);
             [ exact Hnd
             | rewrite PaymentsSpec.preSave_id, (PaymentsSpec.applyCapture_id _ _ _ _ Ha);
               eapply found_by_field; eassumption
             | apply sameParty_preSave, (sameParty_applyCapture _ _ _ _ Ha) ]
         end.
Qed.

Lemma verification_keeps_the_books_witness :
  Forall2 sameParty (db Sample.paid)
    (db (snd (paystack_verify paymentSchema (Some (Sample.provider "failed"))
                (Sample.env "p3" 3000) Sample.verifyReq Sample.paid))).
Proof.
  apply (verification_keeps_the_books paymentSchema (Sample.env "p3" 3000)
           Sample.verifyReq Sample.paid).
  vm_compute. repeat constructor. intros H. inversion H.
Defined.

(** ** Initialisation *)

Ltac dead_branch H := injection H as <- <-; discriminate.

(** What a Paystack initialise that answered 200 did. *)
Lemma paystack_initialize_200 validate paystack e (req : Req Charge) w res w' :
  paystack_initialize validate paystack e req w = (res, w') ->
  code res = 200 ->
  exists client r,
    let p1 := preSave (stamp e)
                (newPayment (newId e) (uid (caller req)) (reqBody req) "paystack" None) in
    let p2 := preSave (stamp e) (set_paystackReference (reference (ir_data r)) p1) in
    paystack = Some client
    /\ ir_status r = true
    /\ body res = Success {| id_authorization_url := authorization_url (ir_data r);
                             id_access_code := access_code (ir_data r);
                             id_reference := reference (ir_data r);
                             id_payment_id := _id p2 |}
    /\ db w' = persist p2 (persist p1 (db w))
    /\ delivered w' = delivered w.
Proof.
  unfold paystack_initialize. intros Hrun Hcode.
  destruct (bool_decide (errors req = [])); simpl in Hrun;
    [| unfold_handler; dead_branch Hrun].
  destruct paystack as [client|]; [| unfold_handler; dead_branch Hrun].
  unfold_handler. rewrite PaymentsSpec.save_run in Hrun.
  destruct (validate _ _); cbn in Hrun; [| dead_branch Hrun].
  destruct (initialize client _) as [r|m] eqn:Hr; cbn in Hrun; [| dead_branch Hrun].
  destruct (ir_status r) eqn:Hst; cbn in Hrun; [| dead_branch Hrun].
  rewrite PaymentsSpec.save_run in Hrun.
  destruct (validate _ _); cbn in Hrun; [| dead_branch Hrun].
  injection Hrun as <- <-. exists client, r. cbn. auto.
Qed.

(** X4. A Paystack initialise that answers 200 leaves, under the id it
    returns, a pending Paystack payment of the caller for the amount and
    currency asked, carrying the reference that the response gives to the
    client; nothing is completed and nothing is notified. *)
Theorem initialize_attaches_reference
        (validate : option Payment -> Payment -> bool) paystack e (req : Req Charge)
        w res w' :
  paystack_initialize validate paystack e req w = (res, w') ->
  code res = 200 ->
  exists data p,
    body res = Success data
    /\ id_payment_id data = newId e
    /\ findById (id_payment_id data) (db w') = Some p
    /\ paystackReference p = id_reference data
    /\ status p = "pending" /\ completedAt p = None
    /\ paymentMethod p = "paystack" /\ paypalOrderId p = None
    /\ user p = uid (caller req)
    /\ amount p = c_amount (reqBody req) /\ currency p = c_currency (reqBody req)
    /\ delivered w' = delivered w.
Proof.
  intros Hrun Hcode.
  destruct (paystack_initialize_200 _ _ _ _ _ _ _ Hrun Hcode)
    as (client & r & _ & _ & Hbody & Hdb & Hdel).
  eexists. eexists. split; [exact Hbody |]. cbn [id_payment_id id_reference].
  rewrite Hdb.
  split; [now rewrite !PaymentsSpec.preSave_id |].
  split; [apply PaymentsSpec.findById_persist |].
  destruct (preSave_cases (stamp e)
              (newPayment (newId e) (uid (caller req)) (reqBody req) "paystack" None))
    as [-> | ->];
    match goal with
    | |- context [preSave ?st ?q] => destruct (preSave_cases st q) as [-> | ->]
    end; repeat split; assumption.
Qed.

Lemma initialize_attaches_reference_witness :
  exists p, findById "p1"
              (db (snd (paystack_initialize paymentSchema (Some (Sample.provider "success"))
                          (Sample.env "p1" 1000) Sample.charge emptyWorld))) = Some p
            /\ paystackReference p = Some "p1"
            /\ status p = "pending".
Proof.
  destruct (initialize_attaches_reference paymentSchema (Some (Sample.provider "success"))
              (Sample.env "p1" 1000) Sample.charge emptyWorld _ _
              (surjective_pairing _))
    as (data & p & Hbody & Hid & Hfind & Href & Hst & _).
  - vm_compute. reflexivity.
  - vm_compute in Hbody. injection Hbody as <-. exists p. auto.
Defined.

(** ** Notifications *)

Lemma skipn_app_exact {A} (l k : list A) : skipn (length l) (l ++ k) = k.
Proof. induction l; simpl; auto. Qed.

Lemma skipn_all_exact {A} (l : list A) : skipn (length l) l = [].
Proof. induction l; simpl; auto. Qed.

(** Every way a Paystack verify can end, with what it delivered. *)
Lemma paystack_verify_deliveries validate client e (req : Req string) w :
  let run := paystack_verify validate (Some client) e req w in
  (code (fst run) <> 200 /\ delivered (snd run) = delivered w)
  \/ (exists t pid,
         code (fst run) = 200
         /\ reports client (reqBody req) t pid
         /\ delivered (snd run)
            = (delivered w
               ++ (if tx_status t =? "success"
                   then to_emit (io e) "admin-room" "payment-notification" pid
                        ++ io_emit (io e) "admin-submission-received" pid
                   else []))%list).
Proof.
  unfold paystack_verify. cbv zeta.
  destruct (bool_decide (errors req = [])); simpl;
    [| left; split; [discriminate | reflexivity]].
  unfold_handler.
  destruct (verify client (reqBody req)) as [[st m t]|m] eqn:Hv; cbn;
    [| left; split; [discriminate | reflexivity]].
  destruct st; cbn; [| left; split; [discriminate | reflexivity]].
  destruct (tx_metadata t) as [md|] eqn:Hmd; cbn;
    [| left; split; [discriminate | reflexivity]].
  destruct (payment_id md) as [pid|] eqn:Hpid; cbn;
    [| left; split; [discriminate | reflexivity]].
  destruct (findById pid (db w)) as [before|] eqn:Hfind; cbn;
    [| left; split; [discriminate | reflexivity]].
  rewrite PaymentsSpec.save_run.
  destruct (validate _ _); cbn; [| left; split; [discriminate | reflexivity]].
  right. exists t, pid. unfold notifyAdmins. unfold_handler.
  rewrite PaymentsSpec.preSave_id, PaymentsSpec.applyTransaction_id,
    (PaymentsSpec.find_id_sound _ _ _ Hfind).
  destruct (tx_status t =? "success"); cbn;
    (split; [reflexivity |]);
    (split; [exists m, md; auto |]); [reflexivity | now rewrite List.app_nil_r].
Qed.

Lemma in_to_emit io room ev subject d :
  In d (to_emit io room ev subject)
  <-> exists s, In s io /\ inRoom room s = true
                /\ d = {| d_to := sid s; d_event := ev; d_subject := subject |}.
Proof.
  unfold to_emit. rewrite List.in_map_iff. split.
  - intros (s & <- & Hs). apply List.filter_In in Hs as [Hin Hroom]. eauto.
  - intros (s & Hin & Hroom & ->). exists s. split; [reflexivity |].
    apply List.filter_In. auto.
Qed.

Lemma in_io_emit io ev subject d :
  In d (io_emit io ev subject)
  <-> exists s, In s io /\ d = {| d_to := sid s; d_event := ev; d_subject := subject |}.
Proof.
  unfold io_emit. rewrite List.in_map_iff. split.
  - intros (s & <- & Hs). eauto.
  - intros (s & Hin & ->). eauto.
Qed.

(** X5. A Paystack verify notifies only when it answers 200 on a reported
    success.  Then [payment-notification] goes to the sessions joined to
    the admin room and to no other, while [admin-submission-received] goes
    to every connected session whatever its rooms. *)
Theorem only_a_successful_verify_notifies
        (validate : option Payment -> Payment -> bool) client e (req : Req string) w :
  let run := paystack_verify validate (Some client) e req w in
  (code (fst run) <> 200 -> newDeliveries w (snd run) = [])
  /\ (forall t pid,
        reports client (reqBody req) t pid -> code (fst run) = 200 ->
        (tx_status t <> "success" -> newDeliveries w (snd run) = [])
        /\ (tx_status t = "success" ->
            (forall s, In s (io e) ->
                In {| d_to := sid s; d_event := "admin-submission-received";
                      d_subject := pid |} (newDeliveries w (snd run)))
            /\ (forall d, In d (newDeliveries w (snd run)) ->
                  d_event d = "payment-notification" ->
                  exists s, In s (io e) /\ inRoom "admin-room" s = true
                            /\ d_to d = sid s)
            /\ (forall s, In s (io e) -> inRoom "admin-room" s = true ->
                  In {| d_to := sid s; d_event := "payment-notification";
                        d_subject := pid |} (newDeliveries w (snd run))))).
Proof.
  intros run. unfold newDeliveries.
  destruct (paystack_verify_deliveries validate client e req w)
    as [[Hcode Hdel] | (t0 & pid0 & Hcode & Hrep0 & Hdel)]; fold run in Hcode, Hdel.
  - rewrite Hdel, skipn_all_exact. split; [reflexivity |].
    intros t pid _ H200. contradiction.
  - rewrite Hdel, skipn_app_exact. split; [intros Hne; contradiction |].
    intros t pid Hrep _.
    destruct (PaymentsSpec.reports_functional _ _ _ _ _ _ Hrep Hrep0) as [<- <-].
    split.
    + intros Hns. apply String.eqb_neq in Hns. now rewrite Hns.
    + intros ->. simpl. split; [| split].
      * intros s Hs. apply List.in_or_app. right. apply in_io_emit. eauto.
      * intros d Hd Hev. apply List.in_app_or in Hd as [Hd | Hd].
        -- apply in_to_emit in Hd as (s & Hs & Hroom & ->). eauto.
        -- apply in_io_emit in Hd as (s & Hs & ->). discriminate Hev.
      * intros s Hs Hroom. apply List.in_or_app. left. apply in_to_emit. eauto.
Qed.

Lemma only_a_successful_verify_notifies_witness :
  newDeliveries Sample.paid
    (snd (paystack_verify paymentSchema (Some (Sample.provider "failed"))
            (Sample.env "p3" 3000) Sample.verifyReq Sample.paid)) = [].
Proof.
  destruct (only_a_successful_verify_notifies paymentSchema (Sample.provider "failed")
              (Sample.env "p3" 3000) Sample.verifyReq Sample.paid) as [_ H].
  destruct (H (Sample.txn "failed") "p1") as [Hfailed _].
  - exists "Verification successful", {| payment_id := Some "p1" |}. repeat split.
  - vm_compute. reflexivity.
  - apply Hfailed. discriminate.
Defined.

End RefundsSpec.

(** * Further properties of the message code *)

Module InboxSpec.
Import Messages Inbox.

(** ** Read receipts *)

Lemma hasReadBy_pushRead a n m :
  hasReadBy a (pushRead {| rr_user := a; readAt := n |} m) = true.
Proof.
  unfold hasReadBy. simpl. rewrite existsb_app. simpl.
  rewrite String.eqb_refl. now rewrite orb_true_r.
Qed.

Lemma hasReadBy_false_not_in a m :
  hasReadBy a m = false -> ~ In a (map rr_user (isRead m)).
Proof.
  unfold hasReadBy. intros H Hin. apply List.in_map_iff in Hin as (r & Hr & Hin).
  assert (Ht : existsb (fun r => rr_user r =? a) (isRead m) = true).
  { apply existsb_exists. exists r. split; [assumption |]. subst a. apply String.eqb_refl. }
  congruence.
Qed.

Lemma NoDup_snoc (l : list string) a : NoDup l -> ~ In a l -> NoDup (l ++ [a]).
Proof.
  intros Hnd Hn. apply NoDup_app. split; [assumption |]. split.
  - intros x Hx Hxa. apply list_elem_of_In in Hx. apply list_elem_of_In in Hxa.
    destruct Hxa as [<- | []]. contradiction.
  - apply NoDup_singleton.
Qed.

(** X6. [markAsReadByAdmin] gives every message of the conversation a receipt
    of the admin, and at most one: marking again changes nothing, a
    message never holds two receipts of one reader, and the messages of
    other conversations are left as they are. *)
Theorem marking_read_is_idempotent (c : string) (a : ObjectId) (n n' : Date) (s : Store) :
  markAsReadByAdmin c a n' (markAsReadByAdmin c a n s) = markAsReadByAdmin c a n s
  /\ Forall (fun m => conversation m = c -> hasReadBy a m = true)
            (markAsReadByAdmin c a n s)
  /\ (Forall readOnce s -> Forall readOnce (markAsReadByAdmin c a n s))
  /\ Forall2 (fun m m' => _id m' = _id m /\ (conversation m <> c -> m' = m))
             s (markAsReadByAdmin c a n s).
Proof.
  unfold markAsReadByAdmin. repeat split.
  - rewrite List.map_map. apply List.map_ext. intros m.
    destruct ((conversation m =? c) && negb (hasReadBy a m)) eqn:E.
    + cbn [conversation pushRead]. rewrite hasReadBy_pushRead.
      now rewrite andb_false_r.
    + now rewrite E.
  - apply List.Forall_forall. intros m' Hin.
    apply List.in_map_iff in Hin as (m & <- & _).
    destruct (conversation m =? c) eqn:Hc; simpl.
    + destruct (hasReadBy a m) eqn:Hr; simpl; intros _;
        [assumption | apply hasReadBy_pushRead].
    + apply String.eqb_neq in Hc. intros Hc'. contradiction.
  - intros Hs. apply List.Forall_forall. intros m' Hin.
    apply List.in_map_iff in Hin as (m & <- & Hm).
    rewrite List.Forall_forall in Hs. specialize (Hs m Hm).
    destruct (conversation m =? c); simpl; [| assumption].
    destruct (hasReadBy a m) eqn:Hr; simpl; [assumption |].
    unfold readOnce. simpl. rewrite List.map_app. simpl.
    apply NoDup_snoc; [exact Hs | now apply hasReadBy_false_not_in].
  - induction s as [|m s IH]; simpl; constructor; [| exact IH].
    destruct (conversation m =? c) eqn:Hc; simpl.
    + apply String.eqb_eq in Hc.
      destruct (negb (hasReadBy a m)); split; auto; intros; contradiction.
    + split; reflexivity.
Qed.

Lemma marking_read_is_idempotent_witness :
  Forall readOnce (markAsReadByAdmin "u1" "a1" 20 (db Sample.greeted)).
Proof.
  destruct (marking_read_is_idempotent "u1" "a1" 20 20 (db Sample.greeted))
    as (_ & _ & Honce & _).
  apply Honce. vm_compute. repeat constructor.
Defined.

(** The method of a single message behaves alike: a second call by the
    same admin neither changes the message nor saves it. *)
Lemma markRead_twice a n n' m :
  markRead a n' (fst (markRead a n m)) = (fst (markRead a n m), false).
Proof.
  unfold markRead. destruct (hasReadBy a m) eqn:Hr; simpl.
  - now rewrite Hr.
  - now rewrite hasReadBy_pushRead.
Qed.

(** ** Sorting *)

Lemma insertDesc_sorted m l : newestFirst l -> newestFirst (insertDesc m l).
Proof.
  unfold newestFirst. induction l as [|x l IH]; simpl; intros Hl.
  - repeat constructor.
  - apply StronglySorted_inv in Hl as [Hl Hx].
    destruct (createdAt x <? createdAt m)%Z eqn:E.
    + apply Z.ltb_lt in E. constructor; [constructor; assumption |].
      constructor; [lia |].
      eapply List.Forall_impl; [| exact Hx]. simpl. intros y Hy. lia.
    + apply Z.ltb_ge in E. constructor; [auto |].
      apply List.Forall_forall. intros y Hy.
      apply MessagesSpec.in_insertDesc in Hy as [-> | Hy]; [assumption |].
      rewrite List.Forall_forall in Hx. auto.
Qed.

Lemma sortDesc_sorted l : newestFirst (sortDesc l).
Proof.
  induction l as [|m l IH]; simpl; [constructor | now apply insertDesc_sorted].
Qed.

Lemma in_firstn {A} n (l : list A) x : In x (firstn n l) -> In x l.
Proof.
  revert n. induction l as [|y l IH]; intros [|n]; simpl; try contradiction.
  intros [-> | H]; eauto.
Qed.

Lemma firstn_sorted n l : newestFirst l -> newestFirst (firstn n l).
Proof.
  unfold newestFirst. revert n. induction l as [|x l IH]; intros [|n] Hl; simpl;
    try constructor.
  - apply StronglySorted_inv in Hl as [Hl _]. auto.
  - apply StronglySorted_inv in Hl as [_ Hx].
    apply List.Forall_forall. intros y Hy. rewrite List.Forall_forall in Hx.
    apply Hx. eapply in_firstn. eassumption.
Qed.

Lemma filter_sorted f l : newestFirst l -> newestFirst (List.filter f l).
Proof.
  unfold newestFirst. induction l as [|x l IH]; simpl; intros Hl; [constructor |].
  apply StronglySorted_inv in Hl as [Hl Hx].
  destruct (f x); [| auto]. constructor; [auto |].
  apply List.Forall_forall. intros y Hy. apply List.filter_In in Hy as [Hy _].
  rewrite List.Forall_forall in Hx. auto.
Qed.

(** X7. GET /messages for a caller who is not an admin answers 200 with at
    most fifty messages, newest first, each of them stored and either of
    the caller's own conversation or flagged visible to all admins; a
    message an admin sent to another user is never among them.  Nothing is
    written. *)
Theorem user_listing_is_bounded (who : User) (userId : option string) (w : World Store) :
  isAdmin who = false ->
  exists ms,
    list_messages who userId w = (json 200 (Success ms), w)
    /\ (length ms <= 50)%nat
    /\ newestFirst ms
    /\ Forall (fun m => In m (db w)
                        /\ (conversation m = uid who \/ isVisibleToAllAdmins m = true)) ms.
Proof.
  intros Hadm. exists (getConversation (uid who) (db w)).
  unfold list_messages. rewrite Hadm. split; [reflexivity |].
  unfold getConversation. split; [apply List.firstn_le_length |]. split.
  - apply firstn_sorted, sortDesc_sorted.
  - apply List.Forall_forall. intros m Hm. apply in_firstn in Hm.
    apply (proj1 (MessagesSpec.in_sortDesc _ _)) in Hm.
    apply List.filter_In in Hm as [Hin Hf].
    split; [assumption |]. apply orb_true_iff in Hf as [Hc | Hv]; [left | now right].
    now apply String.eqb_eq.
Qed.

Lemma user_listing_is_bounded_witness :
  exists ms, list_messages Sample.john None Sample.greeted = (json 200 (Success ms), Sample.greeted)
             /\ (length ms <= 50)%nat.
Proof.
  destruct (user_listing_is_bounded Sample.john None Sample.greeted eq_refl)
    as (ms & Hrun & Hlen & _).
  exists ms. split; assumption.
Defined.

(** ** Conversation summaries *)

Lemma group_snoc l m : group (l ++ [m]) = accumulate m (group l).
Proof. unfold group. now rewrite fold_left_app. Qed.

Lemma summaryOf_accumulate c m gs :
  summaryOf c (accumulate m gs)
  = if conversation m =? c
    then Some (match summaryOf c gs with Some g => bump m g | None => firstOf m end)
    else summaryOf c gs.
Proof.
  unfold summaryOf. induction gs as [|g gs IH]; simpl.
  - destruct (conversation m =? c); reflexivity.
  - destruct (c_id g =? conversation m) eqn:Eg; simpl.
    + apply String.eqb_eq in Eg. rewrite Eg.
      destruct (conversation m =? c); reflexivity.
    + destruct (c_id g =? c) eqn:Ec.
      * apply String.eqb_eq in Ec. subst c. rewrite String.eqb_sym, Eg. reflexivity.
      * exact IH.
Qed.

Lemma group_spec c l : summaryOf c (group l) = summarise c l.
Proof.
  induction l as [|m l IH] using rev_ind; [reflexivity |].
  rewrite group_snoc, summaryOf_accumulate, IH. unfold summarise.
  rewrite List.filter_app. simpl. destruct (conversation m =? c) eqn:E.
  - apply String.eqb_eq in E.
    destruct (List.filter (fun m0 => conversation m0 =? c) l) as [|x r]; simpl.
    + unfold firstOf. rewrite E. destruct (unread m); reflexivity.
    + unfold bump. simpl. f_equal. f_equal.
      * rewrite !length_app. simpl. lia.
      * destruct (unread x); simpl; rewrite List.filter_app, !length_app; simpl;
          destruct (unread m); simpl; lia.
  - now rewrite List.app_nil_r.
Qed.

Lemma keys_accumulate m gs :
  map c_id (accumulate m gs)
  = if existsb (fun g => c_id g =? conversation m) gs
    then map c_id gs else (map c_id gs ++ [conversation m])%list.
Proof.
  induction gs as [|g gs IH]; simpl; [reflexivity |].
  destruct (c_id g =? conversation m); simpl; [reflexivity |].
  rewrite IH. destruct (existsb _ gs); reflexivity.
Qed.

Lemma keys_unique l : NoDup (map c_id (group l)).
Proof.
  induction l as [|m l IH] using rev_ind; [constructor |].
  rewrite group_snoc, keys_accumulate.
  destruct (existsb _ (group l)) eqn:E; [assumption |].
  apply NoDup_snoc; [assumption |]. intros Hin.
  apply List.in_map_iff in Hin as (g & Hg & Hin).
  assert (Ht : existsb (fun g => c_id g =? conversation m) (group l) = true).
  { apply existsb_exists. exists g. split; [assumption |]. rewrite Hg. apply String.eqb_refl. }
  congruence.
Qed.

Lemma count_insertDesc (f : Message -> bool) m l :
  length (List.filter f (insertDesc m l)) = length (List.filter f (m :: l)).
Proof.
  induction l as [|x l IH]; simpl; [reflexivity |].
  destruct (createdAt x <? createdAt m)%Z; simpl; [reflexivity |].
  simpl in IH. destruct (f x), (f m); simpl in *; lia.
Qed.

Lemma count_sortDesc (f : Message -> bool) l :
  length (List.filter f (sortDesc l)) = length (List.filter f l).
Proof.
  induction l as [|m l IH]; simpl; [reflexivity |].
  rewrite count_insertDesc. simpl. destruct (f m); simpl; lia.
Qed.

Lemma length_sortDesc l : length (sortDesc l) = length l.
Proof.
  induction l as [|m l IH]; simpl; [reflexivity |]. rewrite <- IH.
  generalize (sortDesc l). intros k.
  induction k as [|x k IHk]; simpl; [reflexivity |].
  destruct (createdAt x <? createdAt m)%Z; simpl; [reflexivity | now rewrite IHk].
Qed.

Lemma filter_and {A} (f g : A -> bool) l :
  List.filter f (List.filter g l) = List.filter (fun x => g x && f x) l.
Proof.
  induction l as [|x l IH]; simpl; [reflexivity |].
  destruct (g x); simpl; [destruct (f x) |]; now rewrite IH.
Qed.

Lemma filter_shorter {A} (f : A -> bool) l : (length (List.filter f l) <= length l)%nat.
Proof. induction l as [|x l IH]; simpl; [lia |]. destruct (f x); simpl; lia. Qed.

Lemma total_accumulate m gs :
  list_sum (map messageCount (accumulate m gs)) = S (list_sum (map messageCount gs)).
Proof.
  induction gs as [|g gs IH]; simpl; [reflexivity |].
  destruct (c_id g =? conversation m); simpl; lia.
Qed.

Lemma total_group l : list_sum (map messageCount (group l)) = length l.
Proof.
  induction l as [|m l IH] using rev_ind; [reflexivity |].
  rewrite group_snoc, total_accumulate, IH, length_app. simpl. lia.
Qed.

Lemma own_summary gs g :
  NoDup (map c_id gs) -> In g gs -> summaryOf (c_id g) gs = Some g.
Proof.
  unfold summaryOf. induction gs as [|x gs IH]; simpl; [contradiction |].
  intros Hnd Hin. apply NoDup_cons in Hnd as [Hx Hnd].
  destruct (c_id x =? c_id g) eqn:E.
  - destruct Hin as [-> | Hin]; [reflexivity |]. exfalso. apply Hx.
    apply String.eqb_eq in E. rewrite E. apply list_elem_of_In. now apply List.in_map.
  - destruct Hin as [-> | Hin]; [now rewrite String.eqb_refl in E | auto].
Qed.

(** What the summary of a conversation says, in terms of the collection. *)
Lemma summary_facts (s : Store) c g :
  summaryOf c (getAllConversations s) = Some g ->
  let mine := fun m => inConversations m && (conversation m =? c) in
  c_id g = c
  /\ messageCount g = length (List.filter mine s)
  /\ unreadCount g = length (List.filter (fun m => mine m && unread m) s)
  /\ (unreadCount g <= messageCount g)%nat
  /\ In (lastMessage g) s /\ mine (lastMessage g) = true
  /\ (forall m, In m s -> mine m = true ->
                (createdAt m <= createdAt (lastMessage g))%Z).
Proof.
  intros Hg mine. revert Hg.
  unfold getAllConversations. rewrite group_spec. unfold summarise.
  set (l := sortDesc (List.filter inConversations s)).
  destruct (List.filter (fun m => conversation m =? c) l) as [|m0 r] eqn:E;
    [discriminate |].
  assert (Hcount : length (m0 :: r) = length (List.filter mine s)).
  { rewrite <- E. unfold l. now rewrite count_sortDesc, filter_and. }
  assert (Hunread : length (List.filter unread (m0 :: r))
                    = length (List.filter (fun m => mine m && unread m) s)).
  { rewrite <- E. unfold l.
    rewrite filter_and, count_sortDesc, filter_and.
    f_equal. apply List.filter_ext. intros m. unfold mine. now rewrite andb_assoc. }
  assert (Hle : (length (List.filter unread (m0 :: r)) <= length (m0 :: r))%nat)
    by apply filter_shorter.
  assert (Hmem : forall m, In m (m0 :: r) <-> In m s /\ mine m = true).
  { intros m. rewrite <- E, List.filter_In. unfold l.
    rewrite MessagesSpec.in_sortDesc, List.filter_In. unfold mine.
    rewrite andb_true_iff. tauto. }
  assert (Hsorted : newestFirst (m0 :: r)).
  { rewrite <- E. apply filter_sorted. apply sortDesc_sorted. }
  intros [= <-]. cbv beta iota delta [c_id messageCount unreadCount lastMessage].
  split; [reflexivity |]. split; [exact Hcount |]. split; [exact Hunread |].
  split; [exact Hle |].
  destruct (proj1 (Hmem m0) (or_introl eq_refl)) as [Hin Hm]. repeat split; auto.
  intros m Hm1 Hm2. destruct (proj2 (Hmem m) (conj Hm1 Hm2)) as [<- | Hr]; [lia |].
  apply StronglySorted_inv in Hsorted as [_ Hall].
  rewrite List.Forall_forall in Hall. now apply Hall.
Qed.

(** X8. [getAllConversations] lists every conversation that has a matched
    message exactly once; the message counts add up to the number of
    matched messages; each entry counts the matched messages of its
    conversation, counts as unread those sent by a user that nobody has
    read, and shows as last message a newest one of the conversation. *)
Theorem conversations_are_summarised (s : Store) :
  NoDup (map c_id (getAllConversations s))
  /\ list_sum (map messageCount (getAllConversations s))
     = length (List.filter inConversations s)
  /\ (forall m, In m s -> inConversations m = true ->
                exists g, In g (getAllConversations s) /\ c_id g = conversation m)
  /\ Forall (fun g =>
               let mine := fun m => inConversations m && (conversation m =? c_id g) in
               messageCount g = length (List.filter mine s)
               /\ unreadCount g = length (List.filter (fun m => mine m && unread m) s)
               /\ (unreadCount g <= messageCount g)%nat
               /\ In (lastMessage g) s /\ mine (lastMessage g) = true
               /\ (forall m, In m s -> mine m = true ->
                             (createdAt m <= createdAt (lastMessage g))%Z))
            (getAllConversations s).
Proof.
  split; [apply keys_unique |]. split; [| split].
  - unfold getAllConversations. rewrite total_group.
    apply length_sortDesc.
  - intros m Hin Hm.
    destruct (summaryOf (conversation m) (getAllConversations s)) as [g|] eqn:E.
    + exists g. unfold summaryOf in E. apply find_some in E as [Hg Hc].
      split; [assumption | now apply String.eqb_eq].
    + exfalso. unfold getAllConversations in E. rewrite group_spec in E.
      unfold summarise in E.
      destruct (List.filter _ (sortDesc _)) as [|x r] eqn:F; [| discriminate].
      assert (Hx : In m (List.filter (fun m0 => conversation m0 =? conversation m)
                           (sortDesc (List.filter inConversations s)))).
      { apply List.filter_In. split; [| apply String.eqb_refl].
        apply MessagesSpec.in_sortDesc. apply List.filter_In. auto. }
      rewrite F in Hx. contradiction.
  - apply List.Forall_forall. intros g Hg.
    pose proof (own_summary _ _ (keys_unique _) Hg) as Hown.
    destruct (summary_facts s (c_id g) g Hown) as (_ & H). exact H.
Qed.

Lemma conversations_are_summarised_witness :
  list_sum (map messageCount (getAllConversations (db Sample.greeted))) = 2%nat.
Proof.
  destruct (conversations_are_summarised (db Sample.greeted)) as (_ & Hsum & _).
  rewrite Hsum. vm_compute. reflexivity.
Defined.

(** ** Reading a conversation *)

Lemma count_map_preserving (p : Message -> bool) (f : Message -> Message) l :
  (forall m, p (f m) = p m) ->
  length (List.filter p (map f l)) = length (List.filter p l).
Proof.
  intros Hp. induction l as [|m l IH]; simpl; [reflexivity |].
  rewrite Hp. destruct (p m); simpl; congruence.
Qed.

Lemma receipt_is_not_unread a m : hasReadBy a m = true -> unread m = false.
Proof.
  unfold hasReadBy, unread. destruct (isRead m); [discriminate |].
  intros _. apply andb_false_r.
Qed.

Lemma marked_is_not_unread c a n s m :
  In m (markAsReadByAdmin c a n s) -> conversation m = c -> unread m = false.
Proof.
  unfold markAsReadByAdmin. intros Hin Hc.
  apply List.in_map_iff in Hin as (m0 & <- & _).
  apply (receipt_is_not_unread a).
  destruct (conversation m0 =? c) eqn:E; simpl in *.
  - destruct (hasReadBy a m0) eqn:Hr; simpl; [assumption | apply hasReadBy_pushRead].
  - apply String.eqb_neq in E. contradiction.
Qed.

Lemma filter_nothing {A} (p : A -> bool) l :
  (forall x, In x l -> p x = false) -> List.filter p l = [].
Proof.
  induction l as [|x l IH]; simpl; intros H; [reflexivity |].
  rewrite (H x (or_introl eq_refl)). apply IH. intros y Hy. apply H. now right.
Qed.

(** X9. After PUT /messages/read/:conversationId the summary that
    [getAllConversations] gives of that conversation counts no unread
    message, and counts as many messages as before. *)
Theorem reading_clears_the_unread_count
        (e : Env) (who : User) (c : string) (w : World Store) (g : Summary) :
  In g (getAllConversations (db (snd (mark_read e who c w)))) ->
  c_id g = c ->
  fst (mark_read e who c w) = json 200 (Success tt)
  /\ unreadCount g = 0%nat
  /\ messageCount g
     = length (List.filter (fun m => inConversations m && (conversation m =? c)) (db w)).
Proof.
  intros Hg Hc. split; [reflexivity |].
  change (db (snd (mark_read e who c w)))
    with (markAsReadByAdmin c (uid who) (now e) (db w)) in Hg.
  pose proof (own_summary _ _ (keys_unique _) Hg) as Hown.
  destruct (summary_facts _ _ _ Hown) as (_ & Hcount & Hunread & _).
  rewrite Hc in Hcount, Hunread. split.
  - rewrite Hunread. rewrite filter_nothing; [reflexivity |].
    intros m Hm. destruct (conversation m =? c) eqn:E.
    + apply String.eqb_eq in E. rewrite (marked_is_not_unread _ _ _ _ _ Hm E).
      apply andb_false_r.
    + now rewrite andb_false_r.
  - rewrite Hcount. unfold markAsReadByAdmin. apply count_map_preserving.
    intros m. destruct (_ && negb _); reflexivity.
Qed.

Lemma reading_clears_the_unread_count_witness :
  exists g,
    In g (getAllConversations
            (db (snd (mark_read (Sample.env "r1" 20) Sample.root "u1" Sample.greeted))))
    /\ c_id g = "u1" /\ unreadCount g = 0%nat /\ messageCount g = 2%nat.
Proof.
  destruct (getAllConversations
              (db (snd (mark_read (Sample.env "r1" 20) Sample.root "u1" Sample.greeted))))
    as [|g rest] eqn:E; [vm_compute in E; discriminate E |].
  assert (Hc : c_id g = "u1") by (vm_compute in E; injection E as <- _; reflexivity).
  exists g.
  destruct (reading_clears_the_unread_count (Sample.env "r1" 20) Sample.root "u1"
              Sample.greeted g) as (_ & Hu & Hm).
  - rewrite E. left. reflexivity.
  - exact Hc.
  - repeat split; [left; reflexivity | exact Hc | exact Hu |].
    rewrite Hm. vm_compute. reflexivity.
Defined.

(** ** Sending *)

Ltac case_all :=
  repeat match goal with
         | |- context [if ?b then _ else _] => destruct b eqn:?; simpl
         | |- context [match ?x with Some _ => _ | None => _ end] => destruct x eqn:?; simpl
         end.

Lemma null_sender_is_rejected m : sender m = None -> messageSchema m = false.
Proof. unfold messageSchema. now intros ->. Qed.

Ltac no_auto_reply :=
  match goal with
  | H : messageSchema ?m = true |- _ =>
      rewrite null_sender_is_rejected in H by reflexivity; discriminate H
  end.

Lemma count_snoc (p : Message -> bool) s m :
  p m = false -> length (List.filter p (s ++ [m])%list) = length (List.filter p s).
Proof. intros Hm. rewrite List.filter_app. simpl. rewrite Hm. now rewrite List.app_nil_r. Qed.

Lemma serve_stores_no_auto_reply r w :
  length (List.filter isAutoReply (db (serve messageSchema r w)))
  = length (List.filter isAutoReply (db w)).
Proof.
  destruct r as [e req | e req | e who c]; cbn [serve].
  - unfold send.
    apply (wp_try_catch _ _
             (fun w' => length (List.filter isAutoReply (db w'))
                        = length (List.filter isAutoReply (db w)))).
    unfold save, sendAutoReply.
    repeat (cbv beta zeta; first [wp_basic | wp_case]); simpl;
      try no_auto_reply; rewrite ?count_snoc by reflexivity; reflexivity.
  - unfold broadcast.
    apply (wp_try_catch _ _
             (fun w' => length (List.filter isAutoReply (db w'))
                        = length (List.filter isAutoReply (db w)))).
    unfold requireAdmin, save.
    repeat (cbv beta zeta; first [wp_basic | wp_case]); simpl;
      rewrite ?count_snoc by reflexivity; reflexivity.
  - unfold mark_read.
    apply (wp_try_catch _ _
             (fun w' => length (List.filter isAutoReply (db w'))
                        = length (List.filter isAutoReply (db w)))).
    repeat (cbv beta zeta; first [wp_basic | wp_case]); simpl.
    unfold markAsReadByAdmin. apply count_map_preserving.
    intros m. destruct (_ && negb _); reflexivity.
Qed.

Lemma send_user_plain validate e (req : Req SendBody) w :
  isAdmin (caller req) = false -> errors req = [] ->
  validate (userMessage e req) = true ->
  (forall m, sender m = None -> validate m = false) ->
  code (fst (send validate e req w)) = 201
  /\ db (snd (send validate e req w)) = (db w ++ [userMessage e req])%list.
Proof.
  intros Hadm Herr Hok Hnull. unfold send, save, sendAutoReply, userMessage in *.
  rewrite Hadm, Herr. unfold_handler. simpl. rewrite Hok. simpl.
  rewrite ?Hnull by reflexivity.
  case_all; rewrite ?Hnull by reflexivity; split; reflexivity.
Qed.

(** X10. With the validators of the schema itself the auto-reply, which
    [sendAutoReply] makes with a null sender, is never stored: POST
    /messages always answers with [autoReply: null], no sequence of
    requests changes the number of auto-replies in the collection, and the
    message of the user is stored and answered with 201 all the same. *)
Theorem schema_never_stores_an_auto_reply :
  (forall e req w d,
      body (fst (send messageSchema e req w)) = Success d -> autoReply d = None)
  /\ (forall rs w,
        length (List.filter isAutoReply (db (run messageSchema rs w)))
        = length (List.filter isAutoReply (db w)))
  /\ (forall e req w,
        isAdmin (caller req) = false -> errors req = [] ->
        messageSchema (userMessage e req) = true ->
        code (fst (send messageSchema e req w)) = 201
        /\ db (snd (send messageSchema e req w)) = (db w ++ [userMessage e req])%list).
Proof.
  split; [| split].
  - intros e req w d. unfold send, save, sendAutoReply. unfold_handler. simpl.
    case_all; intros H; try discriminate H; try no_auto_reply;
      injection H as <-; reflexivity.
  - intros rs. induction rs as [|r rs IH]; intros w; simpl; [reflexivity |].
    rewrite IH. apply serve_stores_no_auto_reply.
  - intros e req w Hadm Herr Hok.
    apply send_user_plain; auto using null_sender_is_rejected.
Qed.

Lemma schema_never_stores_an_auto_reply_witness :
  db (snd (send messageSchema (Sample.env "m1" 10) (Sample.hello "Hi") emptyWorld))
  = [userMessage (Sample.env "m1" 10) (Sample.hello "Hi")].
Proof.
  destruct schema_never_stores_an_auto_reply as (_ & _ & Hsend).
  destruct (Hsend (Sample.env "m1" 10) (Sample.hello "Hi") emptyWorld) as [_ Hdb];
    [reflexivity | reflexivity | vm_compute; reflexivity |].
  exact Hdb.
Defined.

(** X11. What an admin sends: without a recipient nothing is stored and the
    answer is 400; with one, the message joins the conversation of that
    user, is not a submission to the admins, and is delivered to the
    sessions of the room of that user and to no other. *)
Theorem admin_reply_reaches_only_the_user
        (validate : Message -> bool) (e : Env) (req : Req SendBody) (w : World Store) :
  isAdmin (caller req) = true -> errors req = [] ->
  let run := send validate e req w in
  (truthy (recipientId (reqBody req)) = false ->
   run = (json 400 (Failure "Invalid message configuration"), w))
  /\ (code (fst run) = 201 ->
      exists rid msg,
        recipientId (reqBody req) = Some rid /\ rid <> ""
        /\ db (snd run) = (db w ++ [msg])%list
        /\ _id msg = newId e /\ sender msg = Some (uid (caller req))
        /\ recipient msg = Some rid /\ conversation msg = rid
        /\ text msg = b_text (reqBody req) /\ isAutoReply msg = false
        /\ adminSubmission msg = false
        /\ Refunds.newDeliveries w (snd run)
           = to_emit (io e) ("user-" +:+ rid) "message-received" (newId e)
        /\ (forall d, In d (Refunds.newDeliveries w (snd run)) ->
              exists s, In s (io e) /\ inRoom ("user-" +:+ rid) s = true
                        /\ d_to d = sid s)).
Proof.
  intros Hadm Herr run. subst run. unfold send, save. rewrite Hadm, Herr. simpl.
  unfold_handler. split.
  - intros ->. reflexivity.
  - destruct (recipientId (reqBody req)) as [rid|] eqn:Hrid; simpl;
      [| intros H; discriminate H].
    destruct (rid =? "") eqn:Hne; simpl; [intros H; discriminate H |].
    destruct (validate _) eqn:Hv; simpl; [| intros H; discriminate H].
    intros _. apply String.eqb_neq in Hne.
    eexists rid, _. split; [reflexivity |]. split; [assumption |].
    split; [reflexivity |]. repeat (split; [reflexivity |]).
    unfold Refunds.newDeliveries. simpl. rewrite RefundsSpec.skipn_app_exact.
    split; [reflexivity |].
    intros d Hd. apply RefundsSpec.in_to_emit in Hd as (s0 & Hs & Hroom & ->). eauto.
Qed.

Lemma admin_reply_reaches_only_the_user_witness :
  send messageSchema (Sample.env "m9" 90)
       {| caller := Sample.root; errors := [];
          reqBody := {| b_text := "Hello"; recipientId := None |} |} Sample.greeted
  = (json 400 (Failure "Invalid message configuration"), Sample.greeted).
Proof.
  apply (admin_reply_reaches_only_the_user messageSchema (Sample.env "m9" 90)
           {| caller := Sample.root; errors := [];
              reqBody := {| b_text := "Hello"; recipientId := None |} |} Sample.greeted);
    reflexivity.
Defined.

(** X12. A message of a user that is answered with 201 is announced to every
    connected session, whatever its rooms, as [admin-submission-received],
    and as [message-received] to the sessions of the admin room and to no
    other; what was delivered before stays delivered. *)
Theorem user_message_is_announced_to_every_session
        (validate : Message -> bool) (e : Env) (req : Req SendBody) (w : World Store) :
  isAdmin (caller req) = false ->
  code (fst (send validate e req w)) = 201 ->
  let w' := snd (send validate e req w) in
  delivered w' = (delivered w ++ Refunds.newDeliveries w w')%list
  /\ (forall s, In s (io e) ->
        In {| d_to := sid s; d_event := "admin-submission-received";
              d_subject := newId e |} (Refunds.newDeliveries w w'))
  /\ (forall s, In s (io e) -> inRoom "admin-room" s = true ->
        In {| d_to := sid s; d_event := "message-received"; d_subject := newId e |}
           (Refunds.newDeliveries w w'))
  /\ (forall d, In d (Refunds.newDeliveries w w') ->
        d_event d = "message-received" ->
        exists s, In s (io e) /\ inRoom "admin-room" s = true /\ d_to d = sid s).
Proof.
  intros Hadm Hcode w'.
  assert (Hdel : delivered w'
                 = (delivered w
                    ++ (to_emit (io e) "admin-room" "message-received" (newId e)
                        ++ io_emit (io e) "admin-submission-received" (newId e)))%list).
  { subst w'. revert Hcode. unfold send, save, sendAutoReply. rewrite Hadm. simpl.
    unfold_handler. simpl. case_all; intros Hcode; try discriminate Hcode; reflexivity. }
  unfold Refunds.newDeliveries. rewrite Hdel, RefundsSpec.skipn_app_exact.
  split; [reflexivity |]. split; [| split].
  - intros s Hs. apply List.in_or_app. right. apply RefundsSpec.in_io_emit. eauto.
  - intros s Hs Hroom. apply List.in_or_app. left. apply RefundsSpec.in_to_emit. eauto.
  - intros d Hd Hev. apply List.in_app_or in Hd as [Hd | Hd].
    + apply RefundsSpec.in_to_emit in Hd as (s & Hs & Hroom & ->). eauto.
    + apply RefundsSpec.in_io_emit in Hd as (s & Hs & ->). discriminate Hev.
Qed.

Lemma user_message_is_announced_witness :
  In {| d_to := "s1"; d_event := "admin-submission-received"; d_subject := "m2" |}
     (Refunds.newDeliveries Sample.greeted
        (snd (send Sample.lenient
                (connected [{| sid := "s1"; rooms := ["user-u2"] |}] (Sample.env "m2" 20))
                (Sample.hello "Anyone?") Sample.greeted))).
Proof.
  destruct (user_message_is_announced_to_every_session Sample.lenient
              (connected [{| sid := "s1"; rooms := ["user-u2"] |}] (Sample.env "m2" 20))
              (Sample.hello "Anyone?") Sample.greeted) as (_ & Hall & _).
  - reflexivity.
  - vm_compute. reflexivity.
  - apply (Hall {| sid := "s1"; rooms := ["user-u2"] |}). left. reflexivity.
Defined.

(** X23. Messages of users are flagged visible to all admins, and
    [getConversation] returns every message with that flag, so a message
    that a user sent (answer 201) is listed by GET /messages to every
    caller, other users included, whatever the query, while the collection
    holds no more than fifty messages. *)
Theorem user_message_is_listed_to_every_caller
        (validate : Message -> bool) (e : Env) (req : Req SendBody) (w : World Store) :
  isAdmin (caller req) = false ->
  code (fst (send validate e req w)) = 201 ->
  let w' := snd (send validate e req w) in
  (length (db w') <= 50)%nat ->
  forall who userId,
    exists ms, list_messages who userId w' = (json 200 (Success ms), w')
               /\ In (userMessage e req) ms.
Proof.
  intros Hadm Hcode w' Hlen who userId.
  destruct (MessagesSpec.send_user_201 validate e req w Hadm Hcode) as [tail Hdb].
  assert (Hin : In (userMessage e req) (db w')).
  { unfold w'. rewrite Hdb. apply List.in_or_app. right. left. reflexivity. }
  assert (Hconv : forall c, In (userMessage e req) (getConversation c (db w'))).
  { intros c. unfold getConversation. rewrite List.firstn_all2.
    - apply MessagesSpec.in_sortDesc. apply List.filter_In. split; [exact Hin |].
      apply orb_true_r.
    - rewrite length_sortDesc. etransitivity; [apply filter_shorter | exact Hlen]. }
  unfold list_messages. unfold_handler.
  destruct (isAdmin who); [destruct (truthy userId) |]; eexists; (split; [reflexivity |]);
    try apply Hconv.
  apply MessagesSpec.in_submissions. split; [exact Hin | reflexivity].
Qed.

Lemma user_message_is_listed_witness :
  exists ms,
    list_messages {| uid := "u2"; uname := "Mary"; email := "mary@example.com";
                     isAdmin := false |} None
      (snd (send messageSchema (Sample.env "m1" 10) (Sample.hello "Hi") emptyWorld))
    = (json 200 (Success ms),
       snd (send messageSchema (Sample.env "m1" 10) (Sample.hello "Hi") emptyWorld))
    /\ In (userMessage (Sample.env "m1" 10) (Sample.hello "Hi")) ms.
Proof.
  apply (user_message_is_listed_to_every_caller messageSchema (Sample.env "m1" 10)
           (Sample.hello "Hi") emptyWorld).
  - reflexivity.
  - vm_compute. reflexivity.
  - vm_compute. lia.
Defined.

End InboxSpec.

(** * Further properties of the location code *)

Module PlacesSpec.
Import Locations Places.

Ltac wp_run := repeat (cbv beta zeta; first [wp_basic | wp_case]).

(** PUT /locations/:id keeps the invariant when it leaves the location
    with the type and the user it had. *)
Lemma put_keeps_one_primary validate id (req : Req Update) w :
  (forall l, db w !! id = Some l ->
             default (type l) (u_type (reqBody req)) = type l
             /\ default (user l) (u_user (reqBody req)) = user l) ->
  onePrimaryPerType (db w) -> onePrimaryPerType (db (snd (update validate id req w))).
Proof.
  intros Hsame Hw. unfold update.
  apply (wp_try_catch _ _ (fun w => onePrimaryPerType (db w))).
  unfold save. wp_run; simpl; try assumption.
  apply LocationsSpec.save_keeps_one_primary; auto. intros Hp.
  match goal with H : db w !! id = Some ?l |- _ => rename H into Hl; rename l into old end.
  destruct (Hsame old eq_refl) as [Hty Hus].
  unfold isModified_isPrimary. simpl in *.
  destruct (isPrimary old) eqn:Ho.
  - right. exists old. auto.
  - left. rewrite Hp. reflexivity.
Qed.

Lemma serve_keeps_one_primary validate r w :
  keepsTypeAndUser r w -> onePrimaryPerType (db w) ->
  onePrimaryPerType (db (serve validate r w)).
Proof.
  destruct r as [e req | id req | id req]; cbn [serve keepsTypeAndUser].
  - intros _. apply LocationsSpec.share_keeps_one_primary.
  - apply put_keeps_one_primary.
  - intros _. apply LocationsSpec.remove_keeps_one_primary.
Qed.

Lemma empty_one_primary : onePrimaryPerType (db emptyWorld).
Proof. intros i j a b Hi. simpl in Hi. rewrite lookup_empty in Hi. discriminate. Qed.

(** X13. As long as no PUT moves a location to another type or user
    (its body may repeat the type and the user the location has), every
    sequence of POST, PUT and DELETE requests keeps at most one primary
    location for a user and a type, whatever the validators. *)
Theorem one_primary_is_kept
        (validate : Location -> bool) (rs : list Request) (w : World Store) :
  noneMoves validate rs w ->
  onePrimaryPerType (db w) ->
  onePrimaryPerType (db (run validate rs w)).
Proof.
  revert w. induction rs as [|r rs IH]; intros w Hrs Hw; simpl; [assumption |].
  destruct Hrs as [Hr Hrs].
  apply IH; [assumption |]. now apply serve_keeps_one_primary.
Qed.

Lemma one_primary_is_kept_witness :
  onePrimaryPerType
    (db (run locationSchema
             [Share (Sample.env "L1") (Sample.primary "home");
              Share (Sample.env "L2") (Sample.primary "home");
              Put "L1" (Locations.Sample.put Locations.Sample.john
                          {| u_latitude := None; u_longitude := None; u_name := None;
                             u_description := None; u_type := Some "home";
                             u_isPrimary := Some true; u_isActive := None;
                             u_user := None |});
              Delete "L2" Sample.byJohn]
             emptyWorld)).
Proof.
  apply one_primary_is_kept; [| apply empty_one_primary].
  cbn [noneMoves keepsTypeAndUser].
  split; [exact I |]. split; [exact I |].
  split; [| split; exact I].
  intros l Hl. vm_compute in Hl. injection Hl as <-. split; reflexivity.
Defined.

(** What a POST that answered 201 did. *)
Lemma share_201 validate e (req : Req NewLocation) w :
  code (fst (share validate e req w)) = 201 ->
  let location :=
    {| user := uid (caller req); name := n_name (reqBody req);
       description := n_description (reqBody req);
       latitude := n_latitude (reqBody req); longitude := n_longitude (reqBody req);
       type := default "other" (n_type (reqBody req)); isActive := true;
       isPrimary := default false (n_isPrimary (reqBody req));
       isVisibleToAdmins := true |} in
  db (snd (share validate e req w))
  = <[newId e := location]> (preSave None (newId e) location (db w)).
Proof.
  unfold share, save. unfold_handler.
  destruct (bool_decide (errors req = [])); simpl; [| intros H; discriminate H].
  destruct (validate _); simpl; [| intros H; discriminate H].
  reflexivity.
Qed.

(** X14. A location shared as primary takes the flag over: after a POST with
    [isPrimary: true] that answered 201 the new location is stored as
    primary for the caller and its type, no other location of that user
    and type is primary any more, and every other location is as it was
    or has only lost the flag. *)
Theorem new_primary_takes_over
        (validate : Location -> bool) (e : Env) (req : Req NewLocation) (w : World Store) :
  code (fst (share validate e req w)) = 201 ->
  n_isPrimary (reqBody req) = Some true ->
  let w' := snd (share validate e req w) in
  let t := default "other" (n_type (reqBody req)) in
  (exists l, db w' !! newId e = Some l /\ isPrimary l = true /\ isActive l = true
             /\ user l = uid (caller req) /\ type l = t)
  /\ (forall k o, k <> newId e -> db w' !! k = Some o ->
                  user o = uid (caller req) -> type o = t -> isPrimary o = false)
  /\ (forall k o, k <> newId e -> db w' !! k = Some o ->
                  exists o0, db w !! k = Some o0
                             /\ (o = o0 \/ (isPrimary o0 = true /\ o = set_isPrimary false o0))).
Proof.
  intros Hcode Hprim w' t. subst w'.
  rewrite (share_201 _ _ _ _ Hcode). rewrite Hprim. unfold preSave. simpl.
  split; [| split].
  - eexists. rewrite lookup_insert_eq. split; [reflexivity |]. repeat split.
  - intros k o Hk Hlk Hu Ht. rewrite lookup_insert_ne in Hlk by congruence.
    eapply (LocationsSpec.cleared_others _ _ _ _ _ Hk Hlk); simpl; assumption.
  - intros k o Hk Hlk. rewrite lookup_insert_ne in Hlk by congruence.
    rewrite LocationsSpec.clear_lookup in Hlk.
    destruct (db w !! k) as [o0|]; simpl in Hlk; [| discriminate Hlk].
    injection Hlk as <-. exists o0. split; [reflexivity |].
    destruct (isPrimary o0) eqn:Hp; rewrite ?andb_false_r, ?andb_true_r; [| now left].
    destruct (_ && negb _); [right; auto | now left].
Qed.

Lemma new_primary_takes_over_witness :
  isPrimary <$> db (snd (share locationSchema (Sample.env "L3") (Sample.primary "home")
                           Locations.Sample.places)) !! "L1"
  = Some false.
Proof.
  destruct (new_primary_takes_over locationSchema (Sample.env "L3") (Sample.primary "home")
              Locations.Sample.places) as (_ & Hothers & _).
  - vm_compute. reflexivity.
  - reflexivity.
  - destruct (db (snd (share locationSchema (Sample.env "L3") (Sample.primary "home")
                         Locations.Sample.places)) !! "L1") as [o|] eqn:Ho;
      [| vm_compute in Ho; discriminate Ho].
    simpl. f_equal. apply (Hothers "L1" o); [discriminate | exact Ho | |].
    + vm_compute in Ho. injection Ho as <-. reflexivity.
    + vm_compute in Ho. injection Ho as <-. reflexivity.
Defined.

Lemma set_isActive_twice b l : set_isActive b (set_isActive b l) = set_isActive b l.
Proof. reflexivity. Qed.

Lemma preSave_unmodified l l' id (s : Store) :
  isPrimary l' = isPrimary l -> preSave (Some l) id l' s = s.
Proof.
  intros H. unfold preSave, isModified_isPrimary. rewrite H.
  destruct (isPrimary l); reflexivity.
Qed.

(** X15. DELETE /locations/:id by the owner or an admin is a soft delete: the
    answer is 200, the location stays in the collection with only
    [isActive] set to false, no other location changes, and a second
    DELETE answers 200 again and changes nothing. *)
Theorem deleting_a_location_is_soft
        (validate : Location -> bool) (id : ObjectId) (req : Req unit)
        (w : World Store) (l : Location) :
  db w !! id = Some l ->
  isAdmin (caller req) = true \/ user l = uid (caller req) ->
  validate (set_isActive false l) = true ->
  let run := remove validate id req w in
  fst run = json 200 (Success tt)
  /\ snd run = {| db := <[id := set_isActive false l]> (db w); delivered := delivered w |}
  /\ remove validate id req (snd run) = (json 200 (Success tt), snd run).
Proof.
  intros Hl Hown Hok run.
  assert (Hpass : forall l', user l' = user l ->
             negb (isAdmin (caller req)) && negb (user l' =? uid (caller req)) = false).
  { intros l' Hu. destruct Hown as [-> | Ho]; [reflexivity |].
    rewrite Hu, Ho, String.eqb_refl. apply andb_false_r. }
  assert (Hrun : run = (json 200 (Success tt),
                        {| db := <[id := set_isActive false l]> (db w);
                           delivered := delivered w |})).
  { subst run. unfold remove, save. unfold_handler. rewrite Hl.
    rewrite (Hpass l eq_refl), Hok. simpl.
    unfold with_db. now rewrite preSave_unmodified by reflexivity. }
  rewrite Hrun. simpl. split; [reflexivity |]. split; [reflexivity |].
  unfold remove, save. unfold_handler. simpl. rewrite lookup_insert_eq.
  rewrite (Hpass (set_isActive false l) eq_refl), set_isActive_twice, Hok. simpl.
  unfold with_db. simpl. rewrite preSave_unmodified by reflexivity.
  now rewrite insert_insert_eq.
Qed.

Lemma deleting_a_location_is_soft_witness :
  db (snd (remove locationSchema "L1" Sample.byJohn Locations.Sample.places)) !! "L1"
  = Some (set_isActive false (Locations.Sample.place "home" true)).
Proof.
  destruct (deleting_a_location_is_soft locationSchema "L1" Sample.byJohn
              Locations.Sample.places (Locations.Sample.place "home" true))
    as (_ & Hdb & _).
  - reflexivity.
  - right. reflexivity.
  - reflexivity.
  - rewrite Hdb. reflexivity.
Defined.

End PlacesSpec.

(** * Further properties of the vehicle code *)

Module GarageSpec.
Import Vehicles Garage.

Ltac wp_run := repeat (cbv beta zeta; first [wp_basic | wp_case]).

(** The document found under a key is the one known to be there. *)
Ltac same_doc :=
  match goal with
  | H1 : ?s !! ?k = Some ?a, H2 : ?s !! ?k = Some ?b |- _ =>
      rewrite H1 in H2; injection H2 as <-
  end.

Lemma set_isActive_same v : isActive v = false -> set_isActive false v = v.
Proof. destruct v; simpl; now intros ->. Qed.

Lemma serve_frozen validate r w id v :
  creates r <> Some id -> db w !! id = Some v -> isActive v = false ->
  db (serve validate r w) !! id = Some v.
Proof.
  intros Hnew Hv Hoff.
  destruct r as [newId req | id' req | id' who | id' now req]; cbn [serve].
  - unfold create. apply (wp_try_catch _ _ (fun w' => db w' !! id = Some v)).
    unfold save. wp_run; simpl; try assumption.
    rewrite lookup_insert_ne; [assumption | simpl in Hnew; congruence].
  - unfold update. apply (wp_try_catch _ _ (fun w' => db w' !! id = Some v)).
    unfold save. wp_run; simpl; try assumption.
    destruct (decide (id' = id)) as [-> | Hne]; [| now rewrite lookup_insert_ne].
    same_doc. rewrite Hoff in *. discriminate.
  - unfold remove. apply (wp_try_catch _ _ (fun w' => db w' !! id = Some v)).
    unfold save. wp_run; simpl; try assumption.
    destruct (decide (id' = id)) as [-> | Hne]; [| now rewrite lookup_insert_ne].
    same_doc. now rewrite lookup_insert_eq, set_isActive_same.
  - unfold add_maintenance. apply (wp_try_catch _ _ (fun w' => db w' !! id = Some v)).
    unfold save. wp_run; simpl; try assumption.
    destruct (decide (id' = id)) as [-> | Hne]; [| now rewrite lookup_insert_ne].
    same_doc. rewrite Hoff in *. discriminate.
Qed.

(** X16. A soft-deleted vehicle is frozen: no sequence of POST, PUT, DELETE and
    maintenance requests changes it (new documents get ids of their own),
    and GET, PUT and POST maintenance on it answer 404 to every caller,
    an admin included, so that no request brings it back. *)
Theorem inactive_vehicle_is_frozen
        (validate : Vehicle -> bool) (rs : list Request) (w : World Store)
        (id : ObjectId) (v : Vehicle) :
  db w !! id = Some v -> isActive v = false ->
  Forall (fun r => creates r <> Some id) rs ->
  let w' := run validate rs w in
  db w' !! id = Some v
  /\ (forall users who,
        get_vehicle users id who w' = (json 404 (Failure "Vehicle not found"), w'))
  /\ (forall req, errors req = [] ->
        update validate id req w' = (json 404 (Failure "Vehicle not found"), w'))
  /\ (forall now req, errors req = [] ->
        add_maintenance validate id now req w'
        = (json 404 (Failure "Vehicle not found"), w')).
Proof.
  intros Hv Hoff Hrs w'.
  assert (Hkept : db w' !! id = Some v).
  { subst w'. revert w Hv. induction rs as [|r rs IH]; intros w Hv; simpl; [assumption |].
    apply List.Forall_cons_iff in Hrs as [Hr Hrs].
    apply IH; [assumption |]. now apply serve_frozen. }
  split; [exact Hkept |]. split; [| split].
  - intros users who. unfold get_vehicle. unfold_handler. cbv beta.
    now rewrite Hkept, Hoff.
  - intros req Herr. unfold update. unfold_handler. rewrite Herr. cbv beta. simpl.
    now rewrite Hkept, Hoff.
  - intros now req Herr. unfold add_maintenance. unfold_handler. rewrite Herr.
    cbv beta. simpl. now rewrite Hkept, Hoff.
Qed.

Lemma inactive_vehicle_is_frozen_witness :
  db (run (vehicleSchema 2026)
          [Put "v1" {| caller := Sample.john; errors := [];
                       reqBody := {| u_make := None; u_model := None; u_year := None;
                                     u_licensePlate := None; u_color := None;
                                     u_mileage := None; u_owner := None;
                                     u_isActive := Some true |} |};
           Delete "v1" Sample.john;
           Create "v2" (Garage.Sample.corolla "xyz 1")]
          (Sample.garage false)) !! "v1"
  = Some (Sample.camry false).
Proof.
  apply inactive_vehicle_is_frozen.
  - reflexivity.
  - reflexivity.
  - repeat constructor; discriminate.
Defined.

(** ** License plates *)

Lemma upper_upper c : upper (upper c) = upper c.
Proof. destruct c as [[] [] [] [] [] [] [] []]; reflexivity. Qed.

Lemma upper_ascii c :
  (Ascii.nat_of_ascii c <? 128)%nat = true ->
  (Ascii.nat_of_ascii (upper c) <? 128)%nat = true.
Proof. destruct c as [[] [] [] [] [] [] [] []]; vm_compute; auto. Qed.

Lemma toUpperCase_twice p : toUpperCase (toUpperCase p) = toUpperCase p.
Proof. induction p as [|c p IH]; simpl; [reflexivity |]. now rewrite upper_upper, IH. Qed.

Lemma toUpperCase_ascii p : isAscii p = true -> isAscii (toUpperCase p) = true.
Proof.
  unfold isAscii. induction p as [|c p IH]; simpl; [reflexivity |].
  intros H. apply andb_true_iff in H as [Hc Hp].
  apply andb_true_iff. split; [now apply upper_ascii | now apply IH].
Qed.

Lemma addMaintenanceRecord_plate r n v :
  licensePlate (addMaintenanceRecord r n v) = licensePlate v.
Proof. unfold addMaintenanceRecord. destruct (truthyZ _ && _); reflexivity. Qed.

Lemma plates_insert (s : Store) k v :
  platesUpper s ->
  isAscii (licensePlate v) = true -> toUpperCase (licensePlate v) = licensePlate v ->
  platesUpper (<[k := v]> s).
Proof.
  intros Hs Ha Hv k0 v0 Hlk.
  apply lookup_insert_Some in Hlk as [[_ <-] | [_ Hlk]]; [auto | eauto].
Qed.

Lemma serve_plates validate r w :
  asciiPlates r -> platesUpper (db w) -> platesUpper (db (serve validate r w)).
Proof.
  intros Hr Hw.
  destruct r as [newId req | id' req | id' who | id' now req]; cbn [serve asciiPlates] in *.
  - unfold create. apply (wp_try_catch _ _ (fun w' => platesUpper (db w'))).
    unfold save. wp_run; simpl; try assumption.
    apply plates_insert; [assumption | now apply toUpperCase_ascii | apply toUpperCase_twice].
  - unfold update. apply (wp_try_catch _ _ (fun w' => platesUpper (db w'))).
    unfold save. wp_run; simpl; try assumption.
    apply plates_insert; [assumption | |]; simpl;
      destruct (u_licensePlate (reqBody req));
      first [ now apply toUpperCase_ascii | apply toUpperCase_twice
            | eapply Hw; eassumption ].
  - unfold remove. apply (wp_try_catch _ _ (fun w' => platesUpper (db w'))).
    unfold save. wp_run; simpl; try assumption.
    apply plates_insert; [assumption | |]; simpl; eapply Hw; eassumption.
  - unfold add_maintenance. apply (wp_try_catch _ _ (fun w' => platesUpper (db w'))).
    unfold save. wp_run; simpl; try assumption.
    apply plates_insert; [assumption | |]; rewrite addMaintenanceRecord_plate;
      eapply Hw; eassumption.
Qed.

Lemma run_plates validate rs w :
  Forall asciiPlates rs -> platesUpper (db w) -> platesUpper (db (run validate rs w)).
Proof.
  revert w. induction rs as [|r rs IH]; intros w Hrs Hw; simpl; [assumption |].
  apply List.Forall_cons_iff in Hrs as [Hr Hrs].
  apply IH; [assumption |]. now apply serve_plates.
Qed.

Lemma plateTaken_found (s : Store) k v p :
  s !! k = Some v -> isActive v = true -> licensePlate v = p -> plateTaken p s = true.
Proof.
  intros Hk Ha Hp. unfold plateTaken. apply existsb_exists. exists v. split.
  - apply List.in_map_iff. exists (k, v). split; [reflexivity |].
    apply list_elem_of_In. now apply elem_of_map_to_list.
  - rewrite Ha, Hp, String.eqb_refl. reflexivity.
Qed.

(** X17. For license plates made of ASCII characters: every request
    stores the plate in upper case, so the duplicate check of POST
    /vehicles does not depend on the case of the letters.  In a collection
    built by requests with such plates every stored plate is an ASCII
    string in upper case, and a valid POST whose ASCII plate equals, up to
    the case of its letters, the plate of an active vehicle answers 400
    and writes nothing. *)
Theorem duplicate_plate_is_refused
        (validate : Vehicle -> bool) (rs : list Request)
        (newId : ObjectId) (req : Req NewVehicle) (k : ObjectId) (v : Vehicle) :
  Forall asciiPlates rs ->
  isAscii (n_licensePlate (reqBody req)) = true ->
  let w := run validate rs emptyWorld in
  db w !! k = Some v -> isActive v = true -> errors req = [] ->
  toUpperCase (n_licensePlate (reqBody req)) = toUpperCase (licensePlate v) ->
  isAscii (licensePlate v) = true
  /\ toUpperCase (licensePlate v) = licensePlate v
  /\ create validate newId req w
     = (json 400 (Failure "A vehicle with this license plate already exists"), w).
Proof.
  intros Hrs Hascii w Hk Ha Herr Hplate.
  assert (Hup : platesUpper (db w)).
  { apply run_plates; [assumption |]. intros k0 v0 H0. simpl in H0.
    rewrite lookup_empty in H0. discriminate. }
  destruct (Hup k v Hk) as [Hav Huv]. split; [exact Hav |]. split; [exact Huv |].
  unfold create. unfold_handler. rewrite Herr. simpl.
  rewrite (plateTaken_found (db w) k v); [reflexivity | assumption | assumption |].
  rewrite Hplate. symmetry. exact Huv.
Qed.

Lemma duplicate_plate_is_refused_witness :
  code (fst (create (vehicleSchema 2026) "v9" (Garage.Sample.corolla "Abc 123")
               (run (vehicleSchema 2026) [Create "v1" (Garage.Sample.corolla "abc 123")]
                    emptyWorld))) = 400.
Proof.
  destruct (duplicate_plate_is_refused (vehicleSchema 2026)
              [Create "v1" (Garage.Sample.corolla "abc 123")] "v9"
              (Garage.Sample.corolla "Abc 123") "v1"
              {| owner := "u2"; make := "Toyota"; model := "Corolla"; year := 2021;
                 licensePlate := "ABC 123"; color := None; mileage := 0;
                 maintenanceHistory := []; isActive := true |})
    as (_ & _ & Hrun).
  - repeat constructor.
  - reflexivity.
  - reflexivity.
  - reflexivity.
  - reflexivity.
  - reflexivity.
  - rewrite Hrun. reflexivity.
Defined.

(** X18. A vehicle made by POST /vehicles (answer 201) with a plate of
    ASCII characters belongs to the caller whatever owner the body names,
    carries that plate with its letters a to z in upper case, and no
    active vehicle held that plate.  When it is active and the caller is a
    stored user, the caller reads it back with GET and every other caller
    who is not an admin gets 403. *)
Theorem created_vehicle_belongs_to_caller
        (validate : Vehicle -> bool) (newId : ObjectId) (req : Req NewVehicle)
        (w : World Store) :
  code (fst (create validate newId req w)) = 201 ->
  isAscii (n_licensePlate (reqBody req)) = true ->
  let w' := snd (create validate newId req w) in
  exists v,
    fst (create validate newId req w) = json 201 (Success v)
    /\ w' = {| db := <[newId := v]> (db w); delivered := delivered w |}
    /\ owner v = uid (caller req)
    /\ licensePlate v = toUpperCase (n_licensePlate (reqBody req))
    /\ isAscii (licensePlate v) = true
    /\ plateTaken (licensePlate v) (db w) = false
    /\ (isActive v = true ->
        forall users, uid (caller req) ∈ users ->
          get_vehicle users newId (caller req) w' = (json 200 (Success v), w')
          /\ (forall other, isAdmin other = false -> uid other <> uid (caller req) ->
                code (fst (get_vehicle users newId other w')) = 403)).
Proof.
  unfold create, save. unfold_handler.
  destruct (bool_decide (errors req = [])); simpl; [| intros H; discriminate H].
  destruct (plateTaken _ (db w)) eqn:Htaken; simpl; [intros H; discriminate H |].
  destruct (validate _); simpl; [| intros H; discriminate H].
  intros _ Hascii. eexists. split; [reflexivity |]. split; [reflexivity |].
  split; [reflexivity |]. split; [reflexivity |].
  split; [now apply toUpperCase_ascii |]. split; [exact Htaken |].
  simpl. intros Hact users Huser. unfold get_vehicle. unfold_handler. simpl.
  rewrite lookup_insert_eq. simpl. rewrite Hact. simpl.
  rewrite (populate_stored users _ Huser). split.
  - destruct (isAdmin (caller req)); simpl; [reflexivity |].
    now rewrite String.eqb_refl.
  - intros other Hadm Hne. rewrite Hadm. simpl.
    assert (Hneq : (uid (caller req) =? uid other) = false)
      by (apply String.eqb_neq; congruence).
    now rewrite Hneq.
Qed.

Lemma created_vehicle_belongs_to_caller_witness :
  exists v,
    fst (create (vehicleSchema 2026) "v2" (Garage.Sample.corolla "xyz 1")
           (Sample.garage true)) = json 201 (Success v)
    /\ owner v = "u2" /\ licensePlate v = "XYZ 1".
Proof.
  destruct (created_vehicle_belongs_to_caller (vehicleSchema 2026) "v2"
              (Garage.Sample.corolla "xyz 1") (Sample.garage true))
    as (v & Hres & _ & Hown & Hplate & _).
  - vm_compute. reflexivity.
  - reflexivity.
  - exists v. split; [exact Hres |]. split; [exact Hown | exact Hplate].
Defined.

(** ** The maintenance schedule *)

Lemma filter_filter_comm {A} (f g : A -> bool) l :
  List.filter f (List.filter g l) = List.filter g (List.filter f l).
Proof.
  induction l as [|x l IH]; simpl; [reflexivity |].
  destruct (f x) eqn:Hf, (g x) eqn:Hg; simpl; rewrite ?Hf, ?Hg, IH; reflexivity.
Qed.

Lemma filter_all {A} (f : A -> bool) l :
  Forall (fun x => f x = true) l -> List.filter f l = l.
Proof.
  induction l as [|x l IH]; simpl; intros H; [reflexivity |].
  apply List.Forall_cons_iff in H as [Hx Hl]. rewrite Hx. now rewrite IH.
Qed.

(** X19. Completing a scheduled maintenance removes every entry with that id
    from the schedule and from the overdue list and nothing else, adds the
    service record at the end of the history, and leaves the mileage as it
    was even when the record carries a higher one; completing right after
    scheduling gives the schedule back. *)
Theorem completing_clears_the_schedule
        (now : Date) (id : ObjectId) (r : MaintenanceRecord) (d : VehicleDoc) :
  let d' := completeScheduledMaintenance id r d in
  Forall (fun m => up_id m <> id) (upcomingMaintenance d')
  /\ (forall m, In m (upcomingMaintenance d) -> up_id m <> id ->
                In m (upcomingMaintenance d'))
  /\ overdueMaintenance now d'
     = List.filter (fun m => negb (up_id m =? id)) (overdueMaintenance now d)
  /\ maintenanceHistory (doc d') = (maintenanceHistory (doc d) ++ [r])%list
  /\ mileage (doc d') = mileage (doc d)
  /\ (forall m, Forall (fun x => up_id x <> up_id m) (upcomingMaintenance d) ->
        upcomingMaintenance
          (completeScheduledMaintenance (up_id m) r (scheduleMaintenance m d))
        = upcomingMaintenance d).
Proof.
  intros d'. subst d'. unfold completeScheduledMaintenance, overdueMaintenance. simpl.
  split; [| split; [| split; [| split; [| split]]]].
  - apply List.Forall_forall. intros m Hm. apply List.filter_In in Hm as [_ Hm].
    apply negb_true_iff in Hm. now apply String.eqb_neq.
  - intros m Hm Hne. apply List.filter_In. split; [assumption |].
    apply negb_true_iff. now apply String.eqb_neq.
  - apply filter_filter_comm.
  - reflexivity.
  - reflexivity.
  - intros m Hfresh. rewrite List.filter_app. simpl.
    rewrite String.eqb_refl. simpl. rewrite List.app_nil_r.
    apply filter_all. eapply List.Forall_impl; [| exact Hfresh].
    simpl. intros x Hx. apply negb_true_iff. now apply String.eqb_neq.
Qed.

Lemma completing_clears_the_schedule_witness :
  upcomingMaintenance
    (completeScheduledMaintenance "k1" Garage.Sample.oilDone
       (scheduleMaintenance Garage.Sample.oilDue
          {| doc := Sample.camry true; upcomingMaintenance := [Garage.Sample.tyresDue] |}))
  = [Garage.Sample.tyresDue].
Proof.
  destruct (completing_clears_the_schedule 600 "k1" Garage.Sample.oilDone
              {| doc := Sample.camry true; upcomingMaintenance := [Garage.Sample.tyresDue] |})
    as (_ & _ & _ & _ & _ & Hback).
  apply (Hback Garage.Sample.oilDue). repeat constructor. discriminate.
Defined.

Example overdue_by_date_and_mileage :
  map up_id (overdueMaintenance 600 Garage.Sample.scheduled) = ["k1"; "k2"]
  /\ map up_id (overdueMaintenance 600
                  (completeScheduledMaintenance "k1" Garage.Sample.oilDone
                     Garage.Sample.scheduled)) = ["k2"].
Proof. split; reflexivity. Qed.

End GarageSpec.

(** * Further properties of the service code *)

Module BookingsSpec.
Import Services Bookings.

Ltac wp_run := repeat (cbv beta zeta; first [wp_basic | wp_case]).

Lemma grown_refl s : grown s s.
Proof. repeat split. exists []. now rewrite List.app_nil_r. Qed.

Lemma grown_trans a b c : grown a b -> grown b c -> grown a c.
Proof.
  intros (Hu & Hv & Ht & Hti & Hd & Hur & Hp & m1 & Hn)
         (Hu' & Hv' & Ht' & Hti' & Hd' & Hur' & Hp' & m2 & Hn').
  repeat split; try congruence.
  exists (m1 ++ m2)%list. rewrite Hn', Hn. now rewrite List.app_assoc.
Qed.

Lemma grown_applyStatus e who b s : grown s (applyStatus e who b s).
Proof.
  unfold applyStatus.
  destruct (truthy (b_notes b)), (b_status b =? "completed"); simpl;
    repeat split; eauto; exists []; now rewrite List.app_nil_r.
Qed.

Lemma grown_addNote t who n s : grown s (addNote t who n s).
Proof. unfold addNote. repeat split. simpl. eauto. Qed.

Lemma grownAt_insert id s (m : Store) id' x :
  grownAt id s m -> (id' = id -> grown s x) -> grownAt id s (<[id' := x]> m).
Proof.
  intros (s' & Hs' & Hg) Hx. destruct (decide (id' = id)) as [-> | Hne].
  - exists x. rewrite lookup_insert_eq. auto.
  - exists s'. rewrite lookup_insert_ne by assumption. auto.
Qed.

Lemma serve_grown validate r w id s :
  creates r <> Some id -> db w !! id = Some s ->
  grownAt id s (db (serve validate r w)).
Proof.
  intros Hnew Hs.
  assert (Hw : grownAt id s (db w)) by (exists s; split; [assumption | apply grown_refl]).
  destruct r as [vehicles newId req | id' e req | id' e req]; cbn [serve].
  - unfold create. apply (wp_try_catch _ _ (fun w' => grownAt id s (db w'))).
    unfold save. wp_run; simpl; try assumption.
    apply grownAt_insert; [assumption |]. intros ->. simpl in Hnew. congruence.
  - unfold update_status. apply (wp_try_catch _ _ (fun w' => grownAt id s (db w'))).
    unfold save. wp_run; simpl; try assumption;
      repeat (apply grownAt_insert; [| intros ->;
        match goal with
        | H : db w !! id = Some ?x |- _ =>
            rewrite Hs in H; injection H as <-; apply grown_applyStatus
        end]); assumption.
  - unfold add_note. apply (wp_try_catch _ _ (fun w' => grownAt id s (db w'))).
    unfold save. wp_run; simpl; try assumption.
    apply grownAt_insert; [assumption |]. intros ->.
    match goal with
    | H : db w !! id = Some ?x |- _ => rewrite Hs in H; injection H as <-
    end.
    apply grown_addNote.
Qed.

(** X20. Whatever status updates and notes follow, a service stays the request
    of the same user for the same vehicle with the same title, description,
    type, urgency and preferred date, and its notes are the earlier ones
    in their order, possibly followed by more: no request removes or
    rewrites a note. *)
Theorem service_notes_only_grow
        (validate : Service -> bool) (rs : list Request) (w : World Store)
        (id : ObjectId) (s : Service) :
  db w !! id = Some s ->
  Forall (fun r => creates r <> Some id) rs ->
  exists s', db (run validate rs w) !! id = Some s' /\ grown s s'.
Proof.
  revert w s. induction rs as [|r rs IH]; intros w s Hs Hrs; simpl.
  - exists s. split; [assumption | apply grown_refl].
  - apply List.Forall_cons_iff in Hrs as [Hr Hrs].
    destruct (serve_grown validate r w id s Hr Hs) as (s1 & Hs1 & Hg1).
    destruct (IH _ _ Hs1 Hrs) as (s2 & Hs2 & Hg2).
    exists s2. split; [assumption | eapply grown_trans; eassumption].
Qed.

Lemma service_notes_only_grow_witness :
  exists s',
    db (run serviceSchema
            [AddNote "s1" (Sample.env 800) (Bookings.Sample.note Sample.john "Please call");
             Status "s1" (Sample.env 900) (Sample.setStatus "completed")]
            Sample.booked) !! "s1" = Some s'
    /\ grown Sample.oilChange s'.
Proof.
  apply service_notes_only_grow.
  - reflexivity.
  - repeat constructor; discriminate.
Defined.

Example note_is_kept_through_completion :
  (fun o => match o with
            | Some s' => (status s', map n_text (notes s'))
            | None => ("", [])
            end)
    (db (run serviceSchema
             [AddNote "s1" (Sample.env 800) (Bookings.Sample.note Sample.john "Please call");
              Status "s1" (Sample.env 900) (Sample.setStatus "completed")]
             Sample.booked) !! "s1")
  = ("completed", ["Please call"]).
Proof. vm_compute. reflexivity. Qed.

(** X21. A service made by POST /services (answer 201) is for a vehicle
    that exists and that the caller owns, unless the caller is an admin;
    it is stored pending, without completion time or notes, as a service
    of the caller.  An admin creator, and a creator who is a stored user,
    reads it back with GET.  Every other caller who is not an admin is
    refused the service, the owner of the vehicle included when an admin
    made the request: with 403 while the creator is a stored user, with
    500 once the creator's id names no stored user. *)
Theorem created_service_belongs_to_caller
        (validate : Service -> bool) (vehicles : Vehicles.Store) (newId : ObjectId)
        (req : Req NewService) (w : World Store) :
  code (fst (create validate vehicles newId req w)) = 201 ->
  let w' := snd (create validate vehicles newId req w) in
  exists v s,
    vehicles !! b_vehicleId (reqBody req) = Some v
    /\ (isAdmin (caller req) = true \/ Vehicles.owner v = uid (caller req))
    /\ w' = {| db := <[newId := s]> (db w); delivered := delivered w |}
    /\ user s = uid (caller req) /\ vehicle s = b_vehicleId (reqBody req)
    /\ status s = "pending" /\ completedAt s = None /\ notes s = []
    /\ (forall users, isAdmin (caller req) = true \/ uid (caller req) ∈ users ->
          get_service users newId (caller req) w' = (json 200 (Success s), w'))
    /\ (forall users other, isAdmin other = false -> uid other <> uid (caller req) ->
          (uid (caller req) ∈ users ->
           code (fst (get_service users newId other w')) = 403)
          /\ (uid (caller req) ∉ users ->
              code (fst (get_service users newId other w')) = 500)
          /\ Access.withheld (fst (get_service users newId other w'))
          /\ snd (get_service users newId other w') = w').
Proof.
  unfold create, save. unfold_handler.
  destruct (bool_decide (errors req = [])); simpl; [| intros H; discriminate H].
  destruct (vehicles !! b_vehicleId (reqBody req)) as [v|] eqn:Hv; simpl;
    [| intros H; discriminate H].
  destruct (negb (isAdmin (caller req)) && negb (Vehicles.owner v =? uid (caller req)))
    eqn:Hauth; simpl; [intros H; discriminate H |].
  destruct (validate _); simpl; [| intros H; discriminate H].
  intros _. eexists v, _. split; [reflexivity |]. split.
  { apply andb_false_iff in Hauth as [Ha | Ho].
    - left. now apply negb_false_iff.
    - right. apply negb_false_iff in Ho. now apply String.eqb_eq. }
  split; [reflexivity |]. repeat (split; [reflexivity |]).
  unfold get_service, Access.withheld. unfold_handler. simpl.
  rewrite lookup_insert_eq. simpl. split.
  - intros users [Hadm | Huser].
    + now rewrite Hadm.
    + rewrite (populate_stored users _ Huser).
      destruct (isAdmin (caller req)); simpl; [reflexivity |].
      now rewrite String.eqb_refl.
  - intros users other Hadm Hne. rewrite Hadm. simpl.
    assert (Hneq : (uid (caller req) =? uid other) = false)
      by (apply String.eqb_neq; congruence).
    unfold populate.
    destruct (bool_decide (uid (caller req) ∈ users)) eqn:Hu; simpl; rewrite ?Hneq; simpl.
    + apply bool_decide_eq_true_1 in Hu. repeat split; auto. intros Hn. contradiction.
    + apply bool_decide_eq_false_1 in Hu. repeat split; auto. intros Hn. contradiction.
Qed.

Lemma created_service_belongs_to_caller_witness :
  code (fst (get_service ({["a1"]} ∪ {["u1"]}) "s2" Sample.john
               (snd (create serviceSchema (db (Vehicles.Sample.garage true)) "s2"
                       (Bookings.Sample.brakes Sample.root) Sample.booked)))) = 403.
Proof.
  destruct (created_service_belongs_to_caller serviceSchema
              (db (Vehicles.Sample.garage true)) "s2"
              (Bookings.Sample.brakes Sample.root) Sample.booked)
    as (v & s & _ & _ & _ & _ & _ & _ & _ & _ & _ & Hothers).
  - vm_compute. reflexivity.
  - destruct (Hothers ({["a1"]} ∪ {["u1"]}) Sample.john) as (H403 & _);
      [reflexivity | discriminate |].
    apply H403. vm_compute. reflexivity.
Defined.

End BookingsSpec.

(** * The handler registry of the socket client *)

Module SocketsSpec.
Import Sockets.

Lemma in_add h h' l : In h (add h' l) <-> h = h' \/ In h l.
Proof.
  unfold add. destruct (existsb (String.eqb h') l) eqn:E.
  - split; [auto |]. intros [-> | H]; [| assumption].
    apply existsb_exists in E as (x & Hx & Hxe). apply String.eqb_eq in Hxe. now subst.
  - rewrite List.in_app_iff. simpl. intuition congruence.
Qed.

Lemma in_delete h h' l : In h (delete h' l) <-> h <> h' /\ In h l.
Proof.
  unfold delete. rewrite List.filter_In, negb_true_iff, String.eqb_neq. tauto.
Qed.

Lemma add_once h l : List.NoDup l -> List.NoDup (add h l).
Proof.
  unfold add. intros Hl. destruct (existsb (String.eqb h) l) eqn:E; [assumption |].
  apply List.NoDup_app; [assumption | repeat constructor; simpl; tauto |].
  intros x Hx [Heq | []]. subst x.
  assert (Ht : existsb (String.eqb h) l = true).
  { apply existsb_exists. exists h. split; [assumption | apply String.eqb_refl]. }
  congruence.
Qed.

Lemma delete_once h l : List.NoDup l -> List.NoDup (delete h l).
Proof. unfold delete. apply List.NoDup_filter. Qed.

Lemma emit_on e e' h s :
  emit e (on e' h s) = if e' =? e then add h (emit e s) else emit e s.
Proof.
  unfold emit, on. simpl. destruct (e' =? e) eqn:E.
  - apply String.eqb_eq in E. subst. now rewrite lookup_insert_eq.
  - apply String.eqb_neq in E. now rewrite lookup_insert_ne.
Qed.

Lemma emit_unsubscribe e e' h s :
  emit e (unsubscribe e' h s) = if e' =? e then delete h (emit e s) else emit e s.
Proof.
  unfold emit, unsubscribe. destruct (eventHandlers s !! e') as [l|] eqn:Hl; simpl.
  - destruct (e' =? e) eqn:E.
    + apply String.eqb_eq in E. subst. now rewrite lookup_insert_eq, Hl.
    + apply String.eqb_neq in E. now rewrite lookup_insert_ne.
  - destruct (e' =? e) eqn:E; [| reflexivity].
    apply String.eqb_eq in E. subst. now rewrite Hl.
Qed.

Lemma emit_disconnect e s : emit e (disconnect s) = emit e s.
Proof. unfold emit, disconnect. destruct (socket s); reflexivity. Qed.

Lemma emit_connect e sock s : emit e (connect sock s) = emit e s.
Proof. unfold connect, emit. simpl. apply emit_disconnect. Qed.

Lemma emit_connected e up s : emit e (connected up s) = emit e s.
Proof. unfold emit, connected. destruct up; [destruct (socket s) |]; reflexivity. Qed.

Lemma run_snoc ops o : run (ops ++ [o]) = apply (run ops) o.
Proof. unfold run. now rewrite fold_left_app. Qed.

Lemma subscribed_snoc e h ops o :
  subscribed e h (ops ++ [o])
  = match o with
    | On e' h' => if (e' =? e) && (h' =? h) then true else subscribed e h ops
    | Unsubscribe e' h' => if (e' =? e) && (h' =? h) then false else subscribed e h ops
    | _ => subscribed e h ops
    end.
Proof. unfold subscribed. now rewrite fold_left_app. Qed.

(** X22. The registry follows the last subscription: after any sequence of
    [on] calls, unsubscribe calls, connects, disconnects and socket
    events, [emit] calls a handler exactly when the last thing done about
    it on that event was to subscribe it, and calls it once, however many
    times it was subscribed; connecting and disconnecting lose no
    handler; an unsubscribe function obtained from one of two
    subscriptions of the same handler ends both. *)
Theorem emit_follows_the_last_subscription (ops : list Op) (event : string) :
  List.NoDup (emit event (run ops))
  /\ (forall handler,
        In handler (emit event (run ops)) <-> subscribed event handler ops = true)
  /\ (forall handler,
        ~ In handler
            (emit event (unsubscribe event handler
                           (on event handler (on event handler (run ops)))))).
Proof.
  assert (Hmain : List.NoDup (emit event (run ops))
                  /\ forall handler, In handler (emit event (run ops))
                                     <-> subscribed event handler ops = true).
  { induction ops as [|o ops [IHn IHs]] using rev_ind.
    - split; [constructor |]. intros h. unfold run, emit, subscribed. simpl.
      rewrite lookup_empty. simpl. split; [contradiction | discriminate].
    - rewrite run_snoc. split.
      + destruct o as [e h | e h | sock | | up]; cbn [apply].
        * rewrite emit_on. destruct (e =? event); [now apply add_once | assumption].
        * rewrite emit_unsubscribe.
          destruct (e =? event); [now apply delete_once | assumption].
        * now rewrite emit_connect.
        * now rewrite emit_disconnect.
        * now rewrite emit_connected.
      + intros h0. rewrite subscribed_snoc.
        destruct o as [e h | e h | sock | | up]; cbn [apply].
        * rewrite emit_on. destruct (e =? event) eqn:Ee; simpl; [| apply IHs].
          rewrite in_add, IHs. destruct (h =? h0) eqn:Eh.
          -- apply String.eqb_eq in Eh. subst. tauto.
          -- apply String.eqb_neq in Eh. intuition congruence.
        * rewrite emit_unsubscribe. destruct (e =? event) eqn:Ee; simpl; [| apply IHs].
          rewrite in_delete, IHs. destruct (h =? h0) eqn:Eh.
          -- apply String.eqb_eq in Eh. subst. intuition congruence.
          -- apply String.eqb_neq in Eh. intuition congruence.
        * rewrite emit_connect. apply IHs.
        * rewrite emit_disconnect. apply IHs.
        * rewrite emit_connected. apply IHs. }
  destruct Hmain as [Hn Hs]. split; [exact Hn |]. split; [exact Hs |].
  intros h. rewrite emit_unsubscribe, String.eqb_refl, in_delete. tauto.
Qed.

Example two_subscriptions_one_call :
  emit "message-received"
       (run [On "message-received" "badge"; Connect "s1"; SocketEvent true;
             On "message-received" "badge"; On "message-received" "list";
             Disconnect; Connect "s2"])
  = ["badge"; "list"].
Proof. vm_compute. reflexivity. Qed.

End SocketsSpec.
